(** * Interaction-event trackers of the workflow recorder: a shallow embedding

    The Go trackers (hotkey detector, text selection, drag and drop, text
    input, browser tabs) and the rate limiter are written here as pure
    functions over explicit state records.  A handler takes the tracker
    state, its arguments and the values it reads from its surroundings
    (clock readings, clipboard text, event metadata) and returns the new
    state together with the list of events handed to the callback. *)

From Stdlib Require Import ZArith String Ascii List Bool Lia.
From stdpp Require Import base option list gmap strings sorting.

#[local] Set Warnings "-clear-no-such-hyp".

Local Open Scope string_scope.
Local Open Scope Z_scope.
Local Open Scope list_scope.

(** ** Machine integers *)

(** Two's-complement wrap-around of a [w]-bit signed integer. *)
Definition wrapS (w : Z) (x : Z) : Z :=
  (x + 2 ^ (w - 1)) mod 2 ^ w - 2 ^ (w - 1).

(** Wrap-around of a [w]-bit unsigned integer. *)
Definition wrapU (w : Z) (x : Z) : Z := x mod 2 ^ w.

Definition int32 (x : Z) : Z := wrapS 32 x.
Definition int64 (x : Z) : Z := wrapS 64 x.
Definition uint32 (x : Z) : Z := wrapU 32 x.
Definition uint64 (x : Z) : Z := wrapU 64 x.

(** ** Time *)

(** A [time.Time] is the number of nanoseconds since the zero instant
    [time.Time{}]; a [time.Duration] is an int64 count of nanoseconds. *)
Definition Time := Z.
Definition Duration := Z.

Definition zeroTime : Time := 0.
Definition IsZero (t : Time) : bool := t =? 0.

Definition maxDuration : Duration := 2 ^ 63 - 1.
Definition minDuration : Duration := - 2 ^ 63.

(** [t.Sub(u)]: the difference, saturated to the range of a Duration. *)
Definition Sub (t u : Time) : Duration :=
  Z.max minDuration (Z.min maxDuration (t - u)).

(** [time.Since(u)] when the clock reads [now]. *)
Definition Since (now u : Time) : Duration := Sub now u.

Definition Millisecond : Duration := 1000000.
Definition Second : Duration := 1000 * Millisecond.

(** [d.Milliseconds()]: integer division truncating toward zero. *)
Definition Milliseconds (d : Duration) : Z := Z.quot d Millisecond.

(** ** Shared event structures *)

Record Position := mkPosition { X : Z; Y : Z }.

(** [UIElement]; the [Bounds] field is never read by the trackers and is
    left out. *)
Record UIElement := mkUIElement {
  Role : string;
  Name : string;
  ProcessID : Z;
  WindowTitle : string;
  ApplicationName : string;
  URL : string
}.

(** [EventMetadata]; a nil [*UIElement] is [None]. *)
Record EventMetadata := mkEventMetadata {
  MetaUIElement : option UIElement;
  Timestamp : Z
}.

Inductive MouseButton :=
  | MouseButtonLeft | MouseButtonRight | MouseButtonMiddle | MouseButtonNone.

Definition MouseButton_eqb (a b : MouseButton) : bool :=
  match a, b with
  | MouseButtonLeft, MouseButtonLeft
  | MouseButtonRight, MouseButtonRight
  | MouseButtonMiddle, MouseButtonMiddle
  | MouseButtonNone, MouseButtonNone => true
  | _, _ => false
  end.

(** ** Distances

    [calculateDistance] returns [math.Sqrt(dx*dx + dy*dy)] where [dx] and
    [dy] are the float64 images of int32 differences (which wrap).  The
    result is kept as the integer under the root; it is only ever compared
    with whole-number thresholds [t], and for those the float64 comparison
    agrees with the comparison of the integer with [t * t]. *)
Record Root := mkRoot { radicand : Z }.

Definition calculateDistance (p1 p2 : Position) : Root :=
  let dx := int32 (X p2 - X p1) in
  let dy := int32 (Y p2 - Y p1) in
  mkRoot (dx * dx + dy * dy).

(** [d < t], [d >= t], [d > t], [d <= t] for a whole-number [t]. *)
Definition root_ltb (d : Root) (t : Z) : bool :=
  if t <=? 0 then false else radicand d <? t * t.
Definition root_geb (d : Root) (t : Z) : bool := negb (root_ltb d t).
Definition root_gtb (d : Root) (t : Z) : bool :=
  if t <? 0 then true else t * t <? radicand d.
Definition root_leb (d : Root) (t : Z) : bool := negb (root_gtb d t).

(** ** Strings *)

(** [strings.Contains]: [sub] occurs in [s] as a run of bytes. *)
Fixpoint Contains (s sub : string) : bool :=
  String.prefix sub s ||
  match s with
  | EmptyString => false
  | String _ rest => Contains rest sub
  end.

(** [strings.ToLower] on the ASCII range: the bytes 'A'..'Z' are mapped to
    'a'..'z' and every other byte is kept. *)
Definition lowerByte (c : ascii) : ascii :=
  let n := N_of_ascii c in
  if ((65 <=? n) && (n <=? 90))%N then ascii_of_N (n + 32) else c.

Fixpoint ToLower (s : string) : string :=
  match s with
  | EmptyString => EmptyString
  | String c rest => String (lowerByte c) (ToLower rest)
  end.

(** * Hotkey detector (hotkey_detector.go) *)

Module Hotkey.

Record HotkeyPattern := mkPattern {
  Keys : list Z;
  PatCombination : string;
  PatAction : string;
  PatIsGlobal : bool;
  Category : string
}.

Record HotkeyEvent := mkHotkeyEvent {
  Combination : string;
  Action : string;
  IsGlobal : bool;
  Metadata : EventMetadata
}.

Record HotkeyDetector := mkDetector {
  PressedKeys : gmap Z bool;
  KeyPressOrder : list Z;
  LastKeyTime : Time;
  HotkeyPatterns : list HotkeyPattern;
  MaxKeyDelay : Duration
}.

Definition VK_CONTROL : Z := 0x11.
Definition VK_MENU : Z := 0x12.
Definition VK_SHIFT : Z := 0x10.
Definition VK_LWIN : Z := 0x5B.

Definition initializeHotkeyPatterns : list HotkeyPattern :=
  [ mkPattern [VK_CONTROL; 0x53] "Ctrl+S" "Save" false "File";
    mkPattern [VK_CONTROL; 0x4F] "Ctrl+O" "Open" false "File";
    mkPattern [VK_CONTROL; 0x4E] "Ctrl+N" "New" false "File";
    mkPattern [VK_CONTROL; 0x50] "Ctrl+P" "Print" false "File";
    mkPattern [VK_CONTROL; 0x43] "Ctrl+C" "Copy" false "Edit";
    mkPattern [VK_CONTROL; 0x56] "Ctrl+V" "Paste" false "Edit";
    mkPattern [VK_CONTROL; 0x58] "Ctrl+X" "Cut" false "Edit";
    mkPattern [VK_CONTROL; 0x5A] "Ctrl+Z" "Undo" false "Edit";
    mkPattern [VK_CONTROL; 0x59] "Ctrl+Y" "Redo" false "Edit";
    mkPattern [VK_CONTROL; 0x41] "Ctrl+A" "Select All" false "Edit";
    mkPattern [VK_CONTROL; 0x46] "Ctrl+F" "Find" false "Edit";
    mkPattern [VK_MENU; 0x09] "Alt+Tab" "Switch Window" true "Window";
    mkPattern [VK_MENU; 0x70] "Alt+F4" "Close Window" false "Window";
    mkPattern [VK_LWIN; 0x44] "Win+D" "Show Desktop" true "Window";
    mkPattern [VK_LWIN; 0x4C] "Win+L" "Lock Screen" true "System";
    mkPattern [VK_CONTROL; 0x54] "Ctrl+T" "New Tab" false "Browser";
    mkPattern [VK_CONTROL; 0x57] "Ctrl+W" "Close Tab" false "Browser";
    mkPattern [VK_CONTROL; 0x09] "Ctrl+Tab" "Next Tab" false "Browser";
    mkPattern [VK_CONTROL; VK_SHIFT; 0x09] "Ctrl+Shift+Tab" "Previous Tab" false "Browser";
    mkPattern [VK_CONTROL; 0x52] "Ctrl+R" "Refresh" false "Browser";
    mkPattern [VK_CONTROL; 0x4C] "Ctrl+L" "Address Bar" false "Browser";
    mkPattern [VK_LWIN; 0x31] "Win+1" "Launch App 1" true "Launcher";
    mkPattern [VK_LWIN; 0x32] "Win+2" "Launch App 2" true "Launcher";
    mkPattern [VK_LWIN; 0x33] "Win+3" "Launch App 3" true "Launcher";
    mkPattern [VK_LWIN; 0x34] "Win+4" "Launch App 4" true "Launcher";
    mkPattern [VK_LWIN; 0x35] "Win+5" "Launch App 5" true "Launcher";
    mkPattern [0x70] "F1" "Help" false "Function";
    mkPattern [0x73] "F4" "Address Bar" false "Function";
    mkPattern [0x74] "F5" "Refresh" false "Function";
    mkPattern [0x7A] "F11" "Full Screen" false "Function";
    mkPattern [VK_CONTROL; 0x42] "Ctrl+B" "Bold" false "Format";
    mkPattern [VK_CONTROL; 0x49] "Ctrl+I" "Italic" false "Format";
    mkPattern [VK_CONTROL; 0x55] "Ctrl+U" "Underline" false "Format";
    mkPattern [VK_MENU; 0x25] "Alt+Left" "Back" false "Navigation";
    mkPattern [VK_MENU; 0x27] "Alt+Right" "Forward" false "Navigation";
    mkPattern [VK_CONTROL; 0x24] "Ctrl+Home" "Go to Start" false "Navigation";
    mkPattern [VK_CONTROL; 0x23] "Ctrl+End" "Go to End" false "Navigation";
    mkPattern [VK_CONTROL; VK_SHIFT; 0x1B] "Ctrl+Shift+Esc" "Task Manager" true "System";
    mkPattern [VK_CONTROL; VK_MENU; 0x2E] "Ctrl+Alt+Delete" "Security Screen" true "System";
    mkPattern [0x2C] "PrintScreen" "Screenshot" true "System" ].

Definition NewHotkeyDetector : HotkeyDetector :=
  mkDetector ∅ [] zeroTime initializeHotkeyPatterns (500 * Millisecond).

(** [sort.Slice(l, func(i, j) bool { return l[i] < l[j] })] on key codes. *)
Fixpoint insertSorted (k : Z) (l : list Z) : list Z :=
  match l with
  | [] => [k]
  | x :: rest => if k <? x then k :: l else x :: insertSorted k rest
  end.

Definition sortKeys (l : list Z) : list Z := foldr insertSorted [] l.

(** The element-wise comparison loop at the end of [keysMatch]. *)
Fixpoint sameKeys (a b : list Z) : bool :=
  match a, b with
  | [], _ => true
  | x :: a', y :: b' => (x =? y) && sameKeys a' b'
  | _ :: _, [] => false
  end.

Definition keysMatch (pressedKeys patternKeys : list Z) : bool :=
  if negb (length pressedKeys =? length patternKeys)%nat then false
  else sameKeys pressedKeys (sortKeys patternKeys).

Definition clearState (hd : HotkeyDetector) : HotkeyDetector :=
  mkDetector ∅ [] (LastKeyTime hd) (HotkeyPatterns hd) (MaxKeyDelay hd).

(** The loop over the pattern catalog in [checkForHotkeys]. *)
Fixpoint firstMatch (pressedKeysList : list Z) (patterns : list HotkeyPattern)
  : option HotkeyPattern :=
  match patterns with
  | [] => None
  | pattern :: rest =>
      if keysMatch pressedKeysList (Keys pattern) then Some pattern
      else firstMatch pressedKeysList rest
  end.

Definition checkForHotkeys (hd : HotkeyDetector) (meta : EventMetadata)
  : HotkeyDetector * list HotkeyEvent :=
  if (size (PressedKeys hd) <? 2)%nat then (hd, [])
  else
    let pressedKeysList := sortKeys (map fst (map_to_list (PressedKeys hd))) in
    match firstMatch pressedKeysList (HotkeyPatterns hd) with
    | Some pattern =>
        (clearState hd,
         [mkHotkeyEvent (PatCombination pattern) (PatAction pattern)
                        (PatIsGlobal pattern) meta])
    | None => (hd, [])
    end.

(** [hd.PressedKeys[keyCode]]: the zero value [false] for an absent key. *)
Definition isPressed (hd : HotkeyDetector) (keyCode : Z) : bool :=
  default false (PressedKeys hd !! keyCode).

(** Removal of the first occurrence of [keyCode] from the press order. *)
Fixpoint removeFirst (keyCode : Z) (l : list Z) : list Z :=
  match l with
  | [] => []
  | k :: rest => if k =? keyCode then rest else k :: removeFirst keyCode rest
  end.

(** [HandleKeyPress]; [now] is the clock reading the call uses (stored on
    key-down, compared with [LastKeyTime] on key-up) and [meta] what
    [createEventMetadata] returns. *)
Definition HandleKeyPress (hd : HotkeyDetector) (keyCode : Z) (isKeyDown : bool)
    (now : Time) (meta : EventMetadata) : HotkeyDetector * list HotkeyEvent :=
  if isKeyDown then
    if negb (isPressed hd keyCode) then
      checkForHotkeys
        (mkDetector (<[keyCode := true]> (PressedKeys hd))
                    (KeyPressOrder hd ++ [keyCode])
                    now (HotkeyPatterns hd) (MaxKeyDelay hd))
        meta
    else (hd, [])
  else
    if isPressed hd keyCode then
      let hd' := mkDetector (delete keyCode (PressedKeys hd))
                            (removeFirst keyCode (KeyPressOrder hd))
                            (LastKeyTime hd) (HotkeyPatterns hd) (MaxKeyDelay hd) in
      if (size (PressedKeys hd') =? 0)%nat
         || (MaxKeyDelay hd' <? Since now (LastKeyTime hd'))
      then (clearState hd', [])
      else (hd', [])
    else (hd, []).

(** One call of the entry point. *)
Record KeyCall := mkKeyCall {
  keyCode : Z;
  isKeyDown : bool;
  at_time : Time;
  with_meta : EventMetadata
}.

(** A sequence of entry-point calls; the events are collected in order. *)
Fixpoint run (hd : HotkeyDetector) (calls : list KeyCall)
  : HotkeyDetector * list HotkeyEvent :=
  match calls with
  | [] => (hd, [])
  | c :: rest =>
      let '(hd1, ev1) := HandleKeyPress hd (keyCode c) (isKeyDown c)
                                        (at_time c) (with_meta c) in
      let '(hd2, ev2) := run hd1 rest in
      (hd2, ev1 ++ ev2)
  end.

End Hotkey.

(** * Text selection tracker (text_selection_tracker.go) *)

Module TextSelection.

Inductive SelectionMethod :=
  | SelectionMouseDrag
  | SelectionDoubleClick
  | SelectionTripleClick
  | SelectionKeyboardShortcut
  | SelectionContextMenu.

Record TextSelectionEvent := mkTextSelectionEvent {
  SelectedText : string;
  StartPosition : Position;
  EndPosition : Position;
  Method : SelectionMethod;
  SelectionLength : Z;
  Metadata : EventMetadata
}.

(** [ClickCount] is a Go [int], 64 bits wide on the platform the recorder
    is built for. *)
Record TextSelectionTracker := mkTracker {
  IsSelecting : bool;
  SelectionStartPos : Position;
  SelectionStartTime : Time;
  LastMousePos : Position;
  LastClickTime : Time;
  LastClickPos : Position;
  ClickCount : Z
}.

Definition NewTextSelectionTracker : TextSelectionTracker :=
  mkTracker false (mkPosition 0 0) zeroTime (mkPosition 0 0) zeroTime
            (mkPosition 0 0) 0.

(** [isCloseClick]; [now] is the clock reading behind its [time.Since]
    (the [clickTime] argument is not used by the source). *)
Definition isCloseClick (tst : TextSelectionTracker) (position : Position)
    (now : Time) : bool :=
  if 500 * Millisecond <? Since now (LastClickTime tst) then false
  else root_leb (calculateDistance (LastClickPos tst) position) 5.

(** [HandleMouseDown]; [now] is the reading of [time.Now()] that is stored
    and [now'] the later reading inside [isCloseClick]. *)
Definition HandleMouseDown (tst : TextSelectionTracker) (position : Position)
    (button : MouseButton) (now now' : Time) : TextSelectionTracker :=
  if negb (MouseButton_eqb button MouseButtonLeft) then tst
  else
    let count := if isCloseClick tst position now'
                 then int64 (ClickCount tst + 1) else 1 in
    mkTracker true position now position now position count.

Definition HandleMouseMove (tst : TextSelectionTracker) (position : Position)
  : TextSelectionTracker :=
  if negb (IsSelecting tst) then tst
  else mkTracker (IsSelecting tst) (SelectionStartPos tst)
                 (SelectionStartTime tst) position (LastClickTime tst)
                 (LastClickPos tst) (ClickCount tst).

(** [getSelectedText] as the source has it: a placeholder that reads the
    clipboard, drops what it read and returns the empty string. *)
Definition getSelectedText (clipboard : string) : string := "".

(** The body of [HandleMouseUp] for a content source that answers
    [selectedText]. *)
Definition HandleMouseUpWith (selectedText : string)
    (tst : TextSelectionTracker) (position : Position) (button : MouseButton)
    (meta : EventMetadata) : TextSelectionTracker * list TextSelectionEvent :=
  if negb (MouseButton_eqb button MouseButtonLeft) then (tst, [])
  else if negb (IsSelecting tst) then (tst, [])
  else
    let tst' := mkTracker false (SelectionStartPos tst) (SelectionStartTime tst)
                          (LastMousePos tst) (LastClickTime tst)
                          (LastClickPos tst) (ClickCount tst) in
    let distance := calculateDistance (SelectionStartPos tst) position in
    let minSelectionDistance := 5 in
    if root_ltb distance minSelectionDistance && (ClickCount tst <=? 1)
    then (tst', [])
    else
      let method :=
        if ClickCount tst =? 2 then Some SelectionDoubleClick
        else if ClickCount tst =? 3 then Some SelectionTripleClick
        else if root_geb distance minSelectionDistance
             then Some SelectionMouseDrag
             else None in
      match method with
      | None => (tst', [])
      | Some m =>
          if (selectedText =? "")%string then (tst', [])
          else (tst',
                [mkTextSelectionEvent selectedText (SelectionStartPos tst)
                   position m (uint32 (Z.of_nat (String.length selectedText)))
                   meta])
      end.

(** [HandleMouseUp] with the source's own [getSelectedText]. *)
Definition HandleMouseUp (clipboard : string) :=
  HandleMouseUpWith (getSelectedText clipboard).

End TextSelection.

(** * Drag and drop tracker (drag_drop_tracker.go) *)

Module DragDrop.

Record DragDropEvent := mkDragDropEvent {
  StartPosition : Position;
  EndPosition : Position;
  SourceElement : option UIElement;
  DataType : string;
  Content : string;
  Success : bool;
  Metadata : EventMetadata
}.

(** [MinDragDistance] is a float64 holding a whole number of pixels (the
    constructor stores 10.0 and nothing reassigns it). *)
Record DragDropTracker := mkTracker {
  IsDragging : bool;
  DragStartPos : Position;
  DragStartTime : Time;
  DragStartElement : option UIElement;
  LastDragPos : Position;
  MinDragDistance : Z
}.

Definition NewDragDropTracker : DragDropTracker :=
  mkTracker false (mkPosition 0 0) zeroTime None (mkPosition 0 0) 10.

Definition HandleMouseDown (ddt : DragDropTracker) (position : Position)
    (button : MouseButton) (element : option UIElement) (now : Time)
  : DragDropTracker :=
  if negb (MouseButton_eqb button MouseButtonLeft) then ddt
  else mkTracker false position now element position (MinDragDistance ddt).

Definition HandleMouseMove (ddt : DragDropTracker) (position : Position)
  : DragDropTracker :=
  if IsZero (DragStartTime ddt) then ddt
  else
    let distance := calculateDistance (DragStartPos ddt) position in
    let dragging :=
      if negb (IsDragging ddt) && root_geb distance (MinDragDistance ddt)
      then true else IsDragging ddt in
    mkTracker dragging (DragStartPos ddt) (DragStartTime ddt)
              (DragStartElement ddt) position (MinDragDistance ddt).

Definition clearDragState (ddt : DragDropTracker) : DragDropTracker :=
  mkTracker false (mkPosition 0 0) zeroTime None (mkPosition 0 0)
            (MinDragDistance ddt).

Definition dropTargetRoles : list string :=
  [ "list"; "listbox"; "tree"; "treeitem";
    "document"; "application"; "pane"; "window";
    "textbox"; "editbox"; "richedit";
    "button"; "dropdownbutton" ].

Definition dropKeywords : list string :=
  [ "drop"; "upload"; "import"; "attach"; "browse";
    "file"; "folder"; "directory" ].

(** [isDropTarget] on a non-nil element (nil is answered by the caller). *)
Definition isDropTarget (element : UIElement) : bool :=
  let elementRole := ToLower (Role element) in
  if existsb (fun role => (elementRole =? role)%string
                          || Contains elementRole role) dropTargetRoles
  then true
  else
    let elementName := ToLower (Name element) in
    existsb (fun keyword => Contains elementName keyword) dropKeywords.

(** [isSuccessfulDrop]; [now] is the clock reading behind [time.Since]. *)
Definition isSuccessfulDrop (ddt : DragDropTracker) (dropPosition : Position)
    (targetElement : option UIElement) (now : Time) : bool :=
  if match targetElement with
     | Some e => isDropTarget e
     | None => false
     end
  then true
  else
    let distance := calculateDistance (DragStartPos ddt) dropPosition in
    if root_gtb distance 50 then true
    else
      let duration := Since now (DragStartTime ddt) in
      if 500 * Millisecond <? duration then true else false.

(** [getDragContent]; [clipboardContent] is what [getClipboardContent]
    returns.  The result is the pair (content, dataType). *)
Definition getDragContent (ddt : DragDropTracker) (clipboardContent : string)
  : string * string :=
  if negb (clipboardContent =? "")%string then
    if Contains clipboardContent ":\" || Contains clipboardContent "/"
    then (clipboardContent, "file")
    else (clipboardContent, "text")
  else
    match DragStartElement ddt with
    | Some e =>
        let elementRole := ToLower (Role e) in
        let elementName := ToLower (Name e) in
        if (Contains elementRole "listitem" || Contains elementRole "treeitem")
           && Contains elementName "."
        then (Name e, "file")
        else if Contains elementRole "text" || Contains elementRole "edit"
        then (Name e, "text")
        else if Contains elementRole "image" || Contains elementName "image"
        then (Name e, "image")
        else ("", "unknown")
    | None => ("", "unknown")
    end.

(** [HandleMouseUp]; [now] is the clock reading inside [isSuccessfulDrop],
    [clipboard] the clipboard text and [meta] the result of
    [createEventMetadata]. *)
Definition HandleMouseUp (ddt : DragDropTracker) (position : Position)
    (button : MouseButton) (element : option UIElement) (now : Time)
    (clipboard : string) (meta : EventMetadata)
  : DragDropTracker * list DragDropEvent :=
  if negb (MouseButton_eqb button MouseButtonLeft) then (ddt, [])
  else if negb (IsDragging ddt) || IsZero (DragStartTime ddt)
  then (clearDragState ddt, [])
  else
    let distance := calculateDistance (DragStartPos ddt) position in
    if root_ltb distance (MinDragDistance ddt) then (clearDragState ddt, [])
    else
      let dropSuccess := isSuccessfulDrop ddt position element now in
      let '(content, dataType) := getDragContent ddt clipboard in
      let meta' := match element with
                   | Some e => mkEventMetadata (Some e) (Timestamp meta)
                   | None => meta
                   end in
      (clearDragState ddt,
       [mkDragDropEvent (DragStartPos ddt) position (DragStartElement ddt)
                        dataType content dropSuccess meta']).

Definition HandleKeyPress (ddt : DragDropTracker) (keyCode : Z)
    (isKeyDown : bool) : DragDropTracker :=
  if (keyCode =? 0x1B) && isKeyDown then
    if IsDragging ddt then clearDragState ddt else ddt
  else ddt.

End DragDrop.

(** * Rate limiter (RateLimiter) *)

Module RateLimit.

(** [MaxEvents] and [EventCount] are int32. *)
Record RateLimiter := mkRateLimiter {
  MaxEvents : Z;
  WindowSize : Duration;
  EventCount : Z;
  WindowStart : Time
}.

Definition NewRateLimiter (maxEvents : Z) (windowSize : Duration) (now : Time)
  : RateLimiter :=
  mkRateLimiter maxEvents windowSize 0 now.

(** [Allow]; [now] is the reading of [time.Now()]. *)
Definition Allow (rl : RateLimiter) (now : Time) : RateLimiter * bool :=
  let rl1 :=
    if WindowSize rl <=? Sub now (WindowStart rl)
    then mkRateLimiter (MaxEvents rl) (WindowSize rl) 0 now
    else rl in
  if MaxEvents rl1 <=? EventCount rl1 then (rl1, false)
  else (mkRateLimiter (MaxEvents rl1) (WindowSize rl1)
                      (int32 (EventCount rl1 + 1)) (WindowStart rl1),
        true).

(** Successive calls at the clock readings [times]; the answers in order. *)
Fixpoint allows (rl : RateLimiter) (times : list Time)
  : RateLimiter * list bool :=
  match times with
  | [] => (rl, [])
  | now :: rest =>
      let '(rl1, ok) := Allow rl now in
      let '(rl2, oks) := allows rl1 rest in
      (rl2, ok :: oks)
  end.

End RateLimit.

(** * Text input manager (text_input_tracker.go) *)

Module TextInput.

(** ** [strings.TrimSpace] *)

Definition bytes (l : list N) : string :=
  foldr (fun n s => String (ascii_of_N n) s) EmptyString l.

(** UTF-8 encodings of the runes [unicode.IsSpace] accepts: tab, line feed,
    vertical tab, form feed, carriage return, space, U+0085, U+00A0,
    U+1680, U+2000..U+200A, U+2028, U+2029, U+202F, U+205F and U+3000. *)
Definition spaceRunes : list string :=
  map bytes
    [ [9]; [10]; [11]; [12]; [13]; [32];
      [194; 133]; [194; 160];
      [225; 154; 128];
      [226; 128; 128]; [226; 128; 129]; [226; 128; 130]; [226; 128; 131];
      [226; 128; 132]; [226; 128; 133]; [226; 128; 134]; [226; 128; 135];
      [226; 128; 136]; [226; 128; 137]; [226; 128; 138];
      [226; 128; 168]; [226; 128; 169]; [226; 128; 175];
      [226; 129; 159];
      [227; 128; 128] ]%N.

Definition revString (s : string) : string :=
  string_of_list_ascii (rev (list_ascii_of_string s)).

(** Width in bytes of the rune of [runes] that [s] starts with, 0 if none. *)
Definition runeWidth (runes : list string) (s : string) : nat :=
  match filter (fun r => String.prefix r s = true) runes with
  | r :: _ => String.length r
  | [] => O
  end.

(** Drops leading runes of [runes]; [skip] counts the bytes of the current
    rune still to be dropped. *)
Fixpoint trimRunes (runes : list string) (skip : nat) (s : string) : string :=
  match s with
  | EmptyString => EmptyString
  | String _ rest =>
      match skip with
      | S k => trimRunes runes k rest
      | O =>
          match runeWidth runes s with
          | O => s
          | S k => trimRunes runes k rest
          end
      end
  end.

Definition TrimSpace (s : string) : string :=
  let left := trimRunes spaceRunes 0 s in
  revString (trimRunes (map revString spaceRunes) 0 (revString left)).

(** ** The manager *)

Inductive TextInputMethod :=
  | TextInputTyped
  | TextInputPasted
  | TextInputAutoFilled
  | TextInputSuggestion
  | TextInputMixed.

Record TextInputCompletedEvent := mkCompletedEvent {
  TextValue : string;
  FieldName : string;
  FieldType : string;
  EvInputMethod : TextInputMethod;
  TypingDurationMs : Z;
  EvKeystrokeCount : Z;
  Metadata : EventMetadata
}.

(** One session.  The [CompletionTimer] is not a field here: its firing is
    the call [CompleteTextInput key "timeout"] made from outside. *)
Record TextInputTracker := mkTracker {
  Element : option UIElement;
  StartTime : Time;
  LastKeystroke : Time;
  KeystrokeCount : Z;
  InitialText : string;
  CurrentText : string;
  InputMethod : TextInputMethod
}.

Record TextInputManager := mkManager {
  ActiveInputs : gmap string TextInputTracker;
  CompletionTimeout : Duration
}.


Definition getElementKey (element : option UIElement) : string :=
  match element with
  | None => ""
  | Some e =>
      String.append (Role e)
        (String.append "|" (String.append (Name e)
           (String.append "|" (WindowTitle e))))
  end.

(** [getCurrentText] as the source has it: a placeholder returning the
    empty string for every element. *)
Definition getCurrentText (element : option UIElement) : string := "".

Definition getFieldName (element : option UIElement) : string :=
  match element with
  | None => "Unknown"
  | Some e => if (Name e =? "")%string then "Unknown" else Name e
  end.

Definition getFieldType (element : option UIElement) : string :=
  match element with
  | None => "Unknown"
  | Some e => Role e
  end.

(** What a completion reads from its surroundings: the clock and the event
    metadata. *)
Record Reading := mkReading { now : Time; meta : EventMetadata }.

Section ContentSource.

(** The text of a field as the content source reports it at the time of
    the call. *)
Variable readText : option UIElement -> string.

(** [completeTextInputInternal]; a nil tracker is [None].  The [reason]
    only reaches the log. *)
Definition completeTextInputInternalWith (tracker : option TextInputTracker)
    (reason : string) (r : Reading) : list TextInputCompletedEvent :=
  match tracker with
  | None => []
  | Some tracker =>
      let finalText := readText (Element tracker) in
      if negb (finalText =? InitialText tracker)%string
         && negb (TrimSpace finalText =? "")%string
      then
        let duration := Milliseconds (Since (now r) (StartTime tracker)) in
        let meta' := match Element tracker with
                     | Some e => mkEventMetadata (Some e) (Timestamp (meta r))
                     | None => meta r
                     end in
        [mkCompletedEvent finalText (getFieldName (Element tracker))
           (getFieldType (Element tracker)) (InputMethod tracker)
           (uint64 duration) (KeystrokeCount tracker) meta']
      else []
  end.

(** [StartTextInput]; [t0] and [t1] are the two readings of [time.Now()]
    for the new session. *)
Definition StartTextInputWith (tim : TextInputManager)
    (element : option UIElement) (r : Reading) (t0 t1 : Time)
  : TextInputManager * list TextInputCompletedEvent :=
  match element with
  | None => (tim, [])
  | Some _ =>
      let elementKey := getElementKey element in
      let events :=
        match ActiveInputs tim !! elementKey with
        | Some existing =>
            completeTextInputInternalWith (Some existing) "focus_change" r
        | None => []
        end in
      let tracker := mkTracker element t0 t1 0 (readText element)
                               (readText element) TextInputTyped in
      (mkManager (<[elementKey := tracker]> (ActiveInputs tim))
                 (CompletionTimeout tim),
       events)
  end.

Definition CompleteTextInputWith (tim : TextInputManager) (elementKey : string)
    (reason : string) (r : Reading)
  : TextInputManager * list TextInputCompletedEvent :=
  match ActiveInputs tim !! elementKey with
  | Some tracker =>
      (mkManager (delete elementKey (ActiveInputs tim)) (CompletionTimeout tim),
       completeTextInputInternalWith (Some tracker) reason r)
  | None => (tim, [])
  end.

(** [CompleteAllActiveInputs].  Go visits the sessions in an unspecified
    order; here they are visited in the order of [map_to_list], and [rs]
    gives the reading for each key. *)
Definition CompleteAllActiveInputsWith (tim : TextInputManager)
    (rs : string -> Reading)
  : TextInputManager * list TextInputCompletedEvent :=
  (mkManager ∅ (CompletionTimeout tim),
   concat (map (fun kt => completeTextInputInternalWith (Some (snd kt))
                            "session_end" (rs (fst kt)))
               (map_to_list (ActiveInputs tim)))).

End ContentSource.

(** The entry points with the source's own [getCurrentText]. *)
Definition completeTextInputInternal := completeTextInputInternalWith getCurrentText.
Definition StartTextInput := StartTextInputWith getCurrentText.
Definition CompleteTextInput := CompleteTextInputWith getCurrentText.
Definition CompleteAllActiveInputs := CompleteAllActiveInputsWith getCurrentText.

End TextInput.

(** * Browser tab tracker (BrowserTabTracker) *)

Module BrowserTab.

Inductive TabAction :=
  | TabCreated | TabSwitched | TabClosed | TabMoved
  | TabDuplicated | TabPinned | TabRefreshed.

Inductive TabNavigationMethod :=
  | TabNavigationKeyboardShortcut
  | TabNavigationTabClick
  | TabNavigationNewTabButton
  | TabNavigationCloseButton
  | TabNavigationContextMenu
  | TabNavigationAddressBar
  | TabNavigationLinkNewTab
  | TabNavigationOther.

Record BrowserTabNavigationEvent := mkNavigationEvent {
  Action : TabAction;
  Method : TabNavigationMethod;
  ToURL : string;
  FromURL : string;
  ToTitle : string;
  FromTitle : string;
  Browser : string;
  TabIndex : Z;
  TotalTabs : Z;
  PageDwellTimeMs : Z;
  IsBackForward : bool;
  Metadata : EventMetadata
}.

Record BrowserState := mkBrowserState {
  StateProcessID : Z;
  StateWindowTitle : string;
  CurrentURL : string;
  LastURLChange : Time;
  TabCount : Z;
  LastTabAction : Time;
  RecentHotkeys : list string;
  RecentClicks : list Position
}.

(** The tracker; the two tables of compiled patterns are constants and
    appear below as the functions that use them. *)
Record BrowserTabTracker := mkTracker {
  BrowserStates : gmap Z BrowserState;
  LastNavigation : Time
}.

Definition NewBrowserTabTracker : BrowserTabTracker := mkTracker ∅ zeroTime.

Definition browsers : list string :=
  [ "chrome"; "firefox"; "edge"; "safari"; "opera"; "brave"; "vivaldi" ].

Definition isBrowserWindow (element : UIElement) : bool :=
  let appName := ToLower (ApplicationName element) in
  let windowTitle := ToLower (WindowTitle element) in
  existsb (fun browser => Contains appName browser
                          || Contains windowTitle browser) browsers.

(** ** URL extraction *)

(** The bytes the class [\s] and the escaped hyphen stand for. *)
Definition isSpaceOrHyphen (c : ascii) : bool :=
  existsb (N.eqb (N_of_ascii c)) [9; 10; 12; 13; 32; 45]%N.

(** U+2014 (em dash) in UTF-8. *)
Definition emDash : string :=
  String (ascii_of_N 226) (String (ascii_of_N 128) (String (ascii_of_N 148) EmptyString)).

(** The longest run matching [[^\s\-—...]+] at the start of [s]; [extra]
    lists the further ASCII bytes the class excludes. *)
Fixpoint urlRun (extra : list ascii) (s : string) : string :=
  match s with
  | EmptyString => EmptyString
  | String c rest =>
      if isSpaceOrHyphen c || existsb (Ascii.eqb c) extra || String.prefix emDash s
      then EmptyString
      else String c (urlRun extra rest)
  end.

Fixpoint dropBytes (n : nat) (s : string) : string :=
  match n, s with
  | S k, String _ rest => dropBytes k rest
  | _, _ => s
  end.

(** A match of [https?://[^...]+] anchored at the start of [s]. *)
Definition matchURLAt (extra : list ascii) (s : string) : option string :=
  if String.prefix "https://" s then
    match urlRun extra (dropBytes 8 s) with
    | EmptyString => None
    | run => Some (String.append "https://" run)
    end
  else if String.prefix "http://" s then
    match urlRun extra (dropBytes 7 s) with
    | EmptyString => None
    | run => Some (String.append "http://" run)
    end
  else None.

(** [pattern.FindString]: the leftmost match, or the empty string. *)
Fixpoint FindString (extra : list ascii) (s : string) : string :=
  match matchURLAt extra s with
  | Some m => m
  | None =>
      match s with
      | EmptyString => EmptyString
      | String _ rest => FindString extra rest
      end
  end.

(** The table [URLPatterns]: four browsers, one and the same pattern, so
    the order in which Go visits the table does not show. *)
Definition URLPatterns : list (string * list ascii) :=
  [ ("chrome", []); ("firefox", []); ("edge", []); ("safari", []) ].

Fixpoint dropLeading (cutset : list ascii) (l : list ascii) : list ascii :=
  match l with
  | [] => []
  | c :: rest => if existsb (Ascii.eqb c) cutset then dropLeading cutset rest else l
  end.

(** [strings.TrimRight(s, cutset)] for an ASCII cutset. *)
Definition TrimRight (s : string) (cutset : list ascii) : string :=
  string_of_list_ascii
    (rev (dropLeading cutset (rev (list_ascii_of_string s)))).

Fixpoint firstURL (patterns : list (string * list ascii)) (windowTitle : string)
  : string :=
  match patterns with
  | [] => EmptyString
  | (_, extra) :: rest =>
      match FindString extra windowTitle with
      | EmptyString => firstURL rest windowTitle
      | matches => matches
      end
  end.

Definition extractURL (windowTitle : string) : string :=
  if (windowTitle =? "")%string then ""
  else
    match firstURL URLPatterns windowTitle with
    | EmptyString =>
        match FindString ["|"; "["; "]"]%char windowTitle with
        | EmptyString => ""
        | m => TrimRight m ["."; ","; ";"; ")"]%char
        end
    | matches => matches
    end.

(** ** Navigation method *)

Definition isNewTabHotkey (hotkey : string) : bool :=
  existsb (String.eqb hotkey) ["Ctrl+T"; "Ctrl+Shift+T"].
Definition isCloseTabHotkey (hotkey : string) : bool :=
  existsb (String.eqb hotkey) ["Ctrl+W"; "Ctrl+F4"].
Definition isTabCycleHotkey (hotkey : string) : bool :=
  existsb (String.eqb hotkey)
    ["Ctrl+Tab"; "Ctrl+Shift+Tab"; "Ctrl+1"; "Ctrl+2"; "Ctrl+3"; "Ctrl+4";
     "Ctrl+5"; "Ctrl+6"; "Ctrl+7"; "Ctrl+8"; "Ctrl+9"].
Definition isAddressBarHotkey (hotkey : string) : bool :=
  existsb (String.eqb hotkey) ["Ctrl+L"; "F6"].

(** The [switch] inside the loop of [determineNavigationMethod]: the
    method a single hotkey returns, if it is one of the listed cases. *)
Definition hotkeyMethod (hotkey : string) : option TabNavigationMethod :=
  if isNewTabHotkey hotkey then Some TabNavigationNewTabButton
  else if isCloseTabHotkey hotkey then Some TabNavigationCloseButton
  else if isTabCycleHotkey hotkey then Some TabNavigationKeyboardShortcut
  else if isAddressBarHotkey hotkey then Some TabNavigationAddressBar
  else None.

(** The loop over [RecentHotkeys]. *)
Fixpoint scanHotkeys (hotkeys : list string) : option TabNavigationMethod :=
  match hotkeys with
  | [] => None
  | hotkey :: rest =>
      match hotkeyMethod hotkey with
      | Some m => Some m
      | None => scanHotkeys rest
      end
  end.

Definition determineNavigationMethod (browserState : BrowserState)
  : TabNavigationMethod :=
  match scanHotkeys (RecentHotkeys browserState) with
  | Some m => m
  | None =>
      if (0 <? length (RecentClicks browserState))%nat
      then TabNavigationTabClick
      else TabNavigationOther
  end.

Definition navigationHotkeys : list string :=
  [ "Ctrl+T"; "Ctrl+Shift+T"; "Ctrl+W"; "Ctrl+F4";
    "Ctrl+Tab"; "Ctrl+Shift+Tab"; "Ctrl+L"; "F6";
    "Ctrl+1"; "Ctrl+2"; "Ctrl+3"; "Ctrl+4"; "Ctrl+5";
    "Ctrl+6"; "Ctrl+7"; "Ctrl+8"; "Ctrl+9";
    "Ctrl+R"; "F5"; "Ctrl+F5"; "Ctrl+Shift+R";
    "Alt+Left"; "Alt+Right"; "Backspace" ].

Definition isBrowserNavigationHotkey (combination : string) : bool :=
  existsb (String.eqb combination) navigationHotkeys.

(** [s[1:]] after an append that made the buffer longer than [cap]. *)
Definition keepRecent {A} (cap : nat) (l : list A) : list A :=
  if (cap <? length l)%nat then tail l else l.

Definition HandleHotkey (btt : BrowserTabTracker) (combination : string)
    (activeElement : option UIElement) : BrowserTabTracker :=
  match activeElement with
  | None => btt
  | Some e =>
      if negb (isBrowserWindow e) then btt
      else if isBrowserNavigationHotkey combination then
        match BrowserStates btt !! ProcessID e with
        | Some st =>
            let st' := mkBrowserState (StateProcessID st) (StateWindowTitle st)
                         (CurrentURL st) (LastURLChange st) (TabCount st)
                         (LastTabAction st)
                         (keepRecent 5 (RecentHotkeys st ++ [combination]))
                         (RecentClicks st) in
            mkTracker (<[ProcessID e := st']> (BrowserStates btt))
                      (LastNavigation btt)
        | None => btt
        end
      else btt
  end.

Definition HandleClick (btt : BrowserTabTracker) (position : Position)
    (activeElement : option UIElement) : BrowserTabTracker :=
  match activeElement with
  | None => btt
  | Some e =>
      if negb (isBrowserWindow e) then btt
      else
        match BrowserStates btt !! ProcessID e with
        | Some st =>
            let st' := mkBrowserState (StateProcessID st) (StateWindowTitle st)
                         (CurrentURL st) (LastURLChange st) (TabCount st)
                         (LastTabAction st) (RecentHotkeys st)
                         (keepRecent 10 (RecentClicks st ++ [position])) in
            mkTracker (<[ProcessID e := st']> (BrowserStates btt))
                      (LastNavigation btt)
        | None => btt
        end
  end.

Section Labels.

(** Three helpers only fill the title, browser and back/forward fields of
    an event.  [extractTitle] and [getBrowserName] walk a Go map in an
    unspecified order and match case-folding regular expressions; they are
    kept abstract here, together with [isBackForwardNavigation]. *)
Variable extractTitle : string -> string.
Variable getBrowserName : string -> string.
Variable isBackForwardNavigation : string -> string -> bool.

(** [HandleWindowChange]; [clock i] is the i-th reading of the clock made
    by the call and [meta] the result of [createEventMetadata]. *)
Definition HandleWindowChange (btt : BrowserTabTracker)
    (element : option UIElement) (clock : nat -> Time) (meta : EventMetadata)
  : BrowserTabTracker * list BrowserTabNavigationEvent :=
  match element with
  | None => (btt, [])
  | Some e =>
      if negb (isBrowserWindow e) then (btt, [])
      else
        let processID := ProcessID e in
        let windowTitle := WindowTitle e in
        let currentURL := extractURL windowTitle in
        match BrowserStates btt !! processID with
        | None =>
            let browserState :=
              mkBrowserState processID windowTitle currentURL (clock O) 1
                             zeroTime [] [] in
            (mkTracker (<[processID := browserState]> (BrowserStates btt))
                       (LastNavigation btt), [])
        | Some browserState =>
            if negb (currentURL =? "")%string
               && negb (currentURL =? CurrentURL browserState)%string
            then
              let dwellTime :=
                uint64 (Milliseconds (Since (clock O) (LastURLChange browserState))) in
              let event :=
                mkNavigationEvent TabSwitched
                  (determineNavigationMethod browserState)
                  currentURL (CurrentURL browserState)
                  (extractTitle windowTitle)
                  (extractTitle (StateWindowTitle browserState))
                  (getBrowserName (ApplicationName e))
                  0 0 dwellTime
                  (isBackForwardNavigation (CurrentURL browserState) currentURL)
                  (mkEventMetadata (Some e) (Timestamp meta)) in
              let st' :=
                mkBrowserState (StateProcessID browserState) windowTitle
                  currentURL (clock 1%nat) (TabCount browserState)
                  (clock 2%nat) (RecentHotkeys browserState)
                  (RecentClicks browserState) in
              (mkTracker (<[processID := st']> (BrowserStates btt))
                         (LastNavigation btt), [event])
            else
              let st' :=
                mkBrowserState (StateProcessID browserState) windowTitle
                  (if negb (currentURL =? "")%string then currentURL
                   else CurrentURL browserState)
                  (LastURLChange browserState) (TabCount browserState)
                  (LastTabAction browserState) (RecentHotkeys browserState)
                  (RecentClicks browserState) in
              (mkTracker (<[processID := st']> (BrowserStates btt))
                         (LastNavigation btt), [])
        end
  end.

End Labels.

End BrowserTab.

(** * Facts about machine integers and distances *)

(** A value inside the int32 range is not changed by the wrap-around. *)
Lemma int32_small x : - 2 ^ 31 <= x < 2 ^ 31 → int32 x = x.
Proof.
  intros H. unfold int32, wrapS.
  change (2 ^ (32 - 1)) with 2147483648. change (2 ^ 32) with 4294967296.
  change (2 ^ 31) with 2147483648 in H.
  rewrite Z.mod_small; lia.
Qed.

(** Where the coordinate differences fit an int32 the integer under the
    root is the squared Euclidean distance. *)
Lemma calculateDistance_exact p1 p2 :
  - 2 ^ 31 <= X p2 - X p1 < 2 ^ 31 →
  - 2 ^ 31 <= Y p2 - Y p1 < 2 ^ 31 →
  radicand (calculateDistance p1 p2)
  = (X p2 - X p1) * (X p2 - X p1) + (Y p2 - Y p1) * (Y p2 - Y p1).
Proof.
  intros Hx Hy. unfold calculateDistance. simpl.
  rewrite !int32_small by done. reflexivity.
Qed.

Lemma root_geb_ltb d t : root_geb d t = negb (root_ltb d t).
Proof. reflexivity. Qed.

(** The thresholds the trackers use, read on the integer under the root:
    5 px for a selection, 50 px for an intentional drop. *)
Lemma root_ltb_5 d : root_ltb d 5 = true ↔ radicand d < 25.
Proof. unfold root_ltb. simpl. apply Z.ltb_lt. Qed.

Lemma root_geb_5 d : root_geb d 5 = true ↔ 25 <= radicand d.
Proof.
  unfold root_geb, root_ltb. simpl. rewrite negb_true_iff. apply Z.ltb_ge.
Qed.

Lemma root_gtb_50 d : root_gtb d 50 = true ↔ 2500 < radicand d.
Proof. unfold root_gtb. simpl. apply Z.ltb_lt. Qed.

(** * Facts about the hotkey detector *)

Module HotkeyFacts.
Import Hotkey.

#[local] Arguments HandleKeyPress : simpl never.

(** A key code is in the press-order list iff it is a key of the held set. *)
Definition synced (hd : HotkeyDetector) : Prop :=
  ∀ k : Z, k ∈ KeyPressOrder hd ↔ is_Some (PressedKeys hd !! k).

(** What the entry points maintain besides: no key is listed twice, and
    the map only ever stores [true]. *)
Definition coherent (hd : HotkeyDetector) : Prop :=
  synced hd
  ∧ NoDup (KeyPressOrder hd)
  ∧ ∀ k b, PressedKeys hd !! k = Some b → b = true.

(** A detector with no key held: what [NewHotkeyDetector] builds, for any
    pattern table and delay. *)
Definition idle (t : Time) (patterns : list HotkeyPattern) (delay : Duration)
  : HotkeyDetector :=
  mkDetector ∅ [] t patterns delay.

Definition keyDown (meta : EventMetadata) (kt : Z * Time) : KeyCall :=
  mkKeyCall (fst kt) true (snd kt) meta.
Definition keyUp (meta : EventMetadata) (kt : Z * Time) : KeyCall :=
  mkKeyCall (fst kt) false (snd kt) meta.

Lemma coherent_idle t patterns delay : coherent (idle t patterns delay).
Proof.
  repeat split; simpl.
  - intros H. by apply elem_of_nil in H.
  - rewrite lookup_empty. intros []. discriminate.
  - constructor.
  - intros k b. by rewrite lookup_empty.
Qed.

Lemma coherent_clearState hd : coherent (clearState hd).
Proof. apply coherent_idle. Qed.

(** [checkForHotkeys] either leaves the detector alone and emits nothing,
    or emits one event and clears the held keys. *)
Lemma checkForHotkeys_cases hd meta :
  checkForHotkeys hd meta = (hd, [])
  ∨ ∃ ev, checkForHotkeys hd meta = (clearState hd, [ev])
          ∧ (2 ≤ size (PressedKeys hd))%nat.
Proof.
  unfold checkForHotkeys.
  destruct (size (PressedKeys hd) <? 2)%nat eqn:Hsz; [by left|].
  apply Nat.ltb_ge in Hsz.
  destruct (firstMatch _ _); [right; eauto | by left].
Qed.

Lemma isPressed_false hd k :
  coherent hd → isPressed hd k = false → PressedKeys hd !! k = None.
Proof.
  intros (_ & _ & Htrue) Hp. unfold isPressed in Hp.
  destruct (PressedKeys hd !! k) as [b|] eqn:E; [|done].
  simpl in Hp. subst b. by specialize (Htrue _ _ E).
Qed.

Lemma isPressed_true hd k :
  isPressed hd k = true → is_Some (PressedKeys hd !! k).
Proof.
  unfold isPressed. destruct (PressedKeys hd !! k); [eauto | discriminate].
Qed.

Lemma elem_of_removeFirst k l :
  NoDup l → ∀ x, x ∈ removeFirst k l ↔ x ∈ l ∧ x ≠ k.
Proof.
  induction 1 as [|y l Hy Hnd IH]; intros x; simpl.
  - split; [intros H; by apply elem_of_nil in H | intros [H _]; by apply elem_of_nil in H].
  - destruct (Z.eqb_spec y k) as [->|Hne].
    + rewrite elem_of_cons. split.
      * intros Hx. split; [by right|]. intros ->. contradiction.
      * intros [[->|Hx] Hk]; [contradiction | done].
    + rewrite !elem_of_cons, IH. split.
      * intros [->|[Hx Hk]]; [split; [by left | done] | split; [by right | done]].
      * intros [[->|Hx] Hk]; [by left | right; done].
Qed.

Lemma NoDup_removeFirst k l : NoDup l → NoDup (removeFirst k l).
Proof.
  induction 1 as [|y l Hy Hnd IH]; simpl; [constructor|].
  destruct (y =? k); [done|].
  constructor; [|done].
  rewrite elem_of_removeFirst by done. tauto.
Qed.

(** Key-down insertion keeps the two structures in step. *)
Lemma coherent_insert hd k now :
  coherent hd → PressedKeys hd !! k = None →
  coherent (mkDetector (<[k := true]> (PressedKeys hd)) (KeyPressOrder hd ++ [k])
                       now (HotkeyPatterns hd) (MaxKeyDelay hd)).
Proof.
  intros (Hs & Hnd & Htrue) Hk. repeat split; simpl.
  - rewrite elem_of_app, list_elem_of_singleton. intros [Hin| ->].
    + apply Hs in Hin. destruct (decide (k = k0)) as [->|Hne].
      * rewrite lookup_insert_eq. eauto.
      * by rewrite lookup_insert_ne.
    + rewrite lookup_insert_eq. eauto.
  - rewrite elem_of_app, list_elem_of_singleton.
    destruct (decide (k = k0)) as [->|Hne]; [by right|].
    rewrite lookup_insert_ne by done. intros H. left. by apply Hs.
  - apply NoDup_app. split; [done|]. split; [|apply NoDup_singleton].
    intros x Hx ->%list_elem_of_singleton.
    apply Hs in Hx. rewrite Hk in Hx. by destruct Hx.
  - intros k' b. destruct (decide (k = k')) as [->|Hne].
    + rewrite lookup_insert_eq. congruence.
    + rewrite lookup_insert_ne by done. apply Htrue.
Qed.

(** Key-up removal keeps the two structures in step. *)
Lemma coherent_delete hd k :
  coherent hd →
  coherent (mkDetector (delete k (PressedKeys hd)) (removeFirst k (KeyPressOrder hd))
                       (LastKeyTime hd) (HotkeyPatterns hd) (MaxKeyDelay hd)).
Proof.
  intros (Hs & Hnd & Htrue). repeat split; simpl.
  - rewrite elem_of_removeFirst by done. intros [Hin Hne].
    rewrite lookup_delete_ne by done. by apply Hs.
  - rewrite elem_of_removeFirst by done.
    destruct (decide (k = k0)) as [->|Hne].
    + rewrite lookup_delete_eq. intros []. discriminate.
    + rewrite lookup_delete_ne by done. intros H. split; [by apply Hs | done].
  - by apply NoDup_removeFirst.
  - intros k' b. destruct (decide (k = k')) as [->|Hne].
    + by rewrite lookup_delete_eq.
    + rewrite lookup_delete_ne by done. apply Htrue.
Qed.

Lemma coherent_checkForHotkeys hd meta :
  coherent hd → coherent (fst (checkForHotkeys hd meta)).
Proof.
  intros H. destruct (checkForHotkeys_cases hd meta) as [-> | (ev & -> & _)];
    simpl; [done | apply coherent_clearState].
Qed.

(** Every branch of the entry point preserves the synchronisation. *)
Lemma coherent_HandleKeyPress hd k down now meta :
  coherent hd → coherent (fst (HandleKeyPress hd k down now meta)).
Proof.
  intros H. unfold HandleKeyPress. destruct down.
  - destruct (isPressed hd k) eqn:Hp; simpl; [done|].
    apply coherent_checkForHotkeys, coherent_insert; [done|].
    by apply isPressed_false.
  - destruct (isPressed hd k) eqn:Hp; simpl; [|done].
    match goal with |- context [if ?c then _ else _] => destruct c end; simpl.
    + apply coherent_idle.
    + by apply coherent_delete.
Qed.

Lemma coherent_run calls : ∀ hd, coherent hd → coherent (fst (run hd calls)).
Proof.
  induction calls as [|c calls IH]; intros hd H; simpl; [done|].
  pose proof (coherent_HandleKeyPress hd (keyCode c) (isKeyDown c)
                (at_time c) (with_meta c) H) as H1.
  destruct (HandleKeyPress _ _ _ _ _) as [hd1 ev1]. simpl in H1.
  specialize (IH hd1 H1). destruct (run hd1 calls) as [hd2 ev2]. done.
Qed.

(** C8: between any two calls of the entry point, whatever calls came
    before, a key code is in [KeyPressOrder] iff it is a key of
    [PressedKeys]; the list holds no key twice.  Every branch of
    [HandleKeyPress] (insertion, removal, the clear on a match, the clear on
    an empty set or an elapsed delay) is covered by the run. *)
Theorem held_keys_and_press_order_in_sync :
  ∀ (t : Time) (patterns : list HotkeyPattern) (delay : Duration)
    (calls : list KeyCall),
    let hd := fst (run (idle t patterns delay) calls) in
    (∀ k : Z, k ∈ KeyPressOrder hd ↔ is_Some (PressedKeys hd !! k))
    ∧ NoDup (KeyPressOrder hd).
Proof.
  intros t patterns delay calls hd.
  destruct (coherent_run calls _ (coherent_idle t patterns delay)) as (Hs & Hnd & _).
  split; [exact Hs | exact Hnd].
Qed.

(** ** Key-downs followed by key-ups *)

Lemma HandleKeyPress_down_size hd k now meta :
  (size (PressedKeys (fst (HandleKeyPress hd k true now meta)))
   ≤ S (size (PressedKeys hd)))%nat.
Proof.
  unfold HandleKeyPress. destruct (isPressed hd k); simpl; [lia|].
  match goal with |- context [checkForHotkeys ?h meta] =>
    destruct (checkForHotkeys_cases h meta) as [-> | (ev & -> & _)] end; simpl.
  - destruct (PressedKeys hd !! k) eqn:E.
    + rewrite map_size_insert_Some by eauto. lia.
    + rewrite map_size_insert_None by done. lia.
  - rewrite map_size_empty. lia.
Qed.

Lemma run_downs_size meta downs : ∀ hd,
  (size (PressedKeys (fst (run hd (map (keyDown meta) downs))))
   ≤ size (PressedKeys hd) + length downs)%nat.
Proof.
  induction downs as [|[k t] downs IH]; intros hd; simpl; [lia|].
  pose proof (HandleKeyPress_down_size hd k t meta) as H1.
  destruct (HandleKeyPress hd k true t meta) as [hd1 ev1]. simpl in H1.
  specialize (IH hd1). destruct (run hd1 _) as [hd2 ev2]. simpl in *. lia.
Qed.

(** A key-down that emits nothing leaves the key in the held set. *)
Lemma HandleKeyPress_down_silent hd k now meta :
  snd (HandleKeyPress hd k true now meta) = [] →
  dom (PressedKeys (fst (HandleKeyPress hd k true now meta)))
  = {[k]} ∪ dom (PressedKeys hd).
Proof.
  unfold HandleKeyPress. destruct (isPressed hd k) eqn:Hp; simpl.
  - intros _. apply isPressed_true, elem_of_dom in Hp. set_solver.
  - match goal with |- context [checkForHotkeys ?h meta] =>
      destruct (checkForHotkeys_cases h meta) as [-> | (ev & -> & _)] end; simpl.
    + intros _. by rewrite dom_insert_L.
    + discriminate.
Qed.

Lemma run_downs_silent meta downs : ∀ hd,
  snd (run hd (map (keyDown meta) downs)) = [] →
  dom (PressedKeys (fst (run hd (map (keyDown meta) downs))))
  = list_to_set downs.*1 ∪ dom (PressedKeys hd).
Proof.
  induction downs as [|[k t] downs IH]; intros hd; simpl.
  - intros _. set_solver.
  - pose proof (HandleKeyPress_down_silent hd k t meta) as H1.
    destruct (HandleKeyPress hd k true t meta) as [hd1 ev1]. simpl in H1.
    specialize (IH hd1). destruct (run hd1 _) as [hd2 ev2]. simpl in *.
    intros [-> ->]%app_eq_nil. rewrite IH, H1 by done. set_solver.
Qed.

(** A key-up takes its key out of the held set and adds none. *)
Lemma HandleKeyPress_up_dom hd k now meta :
  coherent hd →
  dom (PressedKeys (fst (HandleKeyPress hd k false now meta)))
  ⊆ dom (PressedKeys hd) ∖ {[k]}.
Proof.
  intros Hc. unfold HandleKeyPress. destruct (isPressed hd k) eqn:Hp; simpl.
  - match goal with |- context [if ?c then _ else _] => destruct c end; simpl.
    + rewrite dom_empty_L. set_solver.
    + rewrite dom_delete_L. set_solver.
  - apply isPressed_false in Hp; [|done].
    apply not_elem_of_dom in Hp. set_solver.
Qed.

Lemma run_ups_dom meta ups : ∀ hd,
  coherent hd →
  dom (PressedKeys (fst (run hd (map (keyUp meta) ups))))
  ⊆ dom (PressedKeys hd) ∖ list_to_set ups.*1.
Proof.
  induction ups as [|[k t] ups IH]; intros hd Hc; simpl.
  - set_solver.
  - pose proof (HandleKeyPress_up_dom hd k t meta Hc) as H1.
    pose proof (coherent_HandleKeyPress hd k false t meta Hc) as Hc1.
    destruct (HandleKeyPress hd k false t meta) as [hd1 ev1]. simpl in H1, Hc1.
    specialize (IH hd1 Hc1). destruct (run hd1 _) as [hd2 ev2]. simpl in *.
    set_solver.
Qed.

(** Every held key was put there by one of the key-downs. *)
Lemma run_downs_dom meta downs : ∀ hd,
  dom (PressedKeys (fst (run hd (map (keyDown meta) downs))))
  ⊆ list_to_set downs.*1 ∪ dom (PressedKeys hd).
Proof.
  induction downs as [|[k t] downs IH]; intros hd; simpl; [set_solver|].
  assert (H1 : dom (PressedKeys (fst (HandleKeyPress hd k true t meta)))
               ⊆ {[k]} ∪ dom (PressedKeys hd)).
  { unfold HandleKeyPress. destruct (isPressed hd k); simpl; [set_solver|].
    match goal with |- context [checkForHotkeys ?h meta] =>
      destruct (checkForHotkeys_cases h meta) as [-> | (ev & -> & _)] end; simpl.
    - rewrite dom_insert_L. set_solver.
    - rewrite dom_empty_L. set_solver. }
  destruct (HandleKeyPress hd k true t meta) as [hd1 ev1]. simpl in H1.
  specialize (IH hd1). destruct (run hd1 _) as [hd2 ev2]. simpl in *.
  set_solver.
Qed.

(** C2 as the spec words it, for the detector the constructor builds:
    N key-downs leave exactly N held keys. *)
Definition held_count_claim : Prop :=
  ∀ (meta : EventMetadata) (downs : list (Z * Time)),
    size (PressedKeys (fst (run NewHotkeyDetector (map (keyDown meta) downs))))
    = length downs.

(** C2, counterexample: key-down of Ctrl then S matches the Ctrl+S pattern,
    which clears the held set; two key-downs, no key held. *)
Lemma ctrl_s_key_downs_leave_no_key_held :
  let downs := [(0x11, 1000); (0x53, 2000)] in
  let hd := fst (run NewHotkeyDetector
                     (map (keyDown (mkEventMetadata None 0)) downs)) in
  size (PressedKeys hd) = 0%nat
  ∧ length downs = 2%nat
  ∧ ¬ held_count_claim.
Proof.
  split; [by vm_compute|]. split; [done|].
  intros H.
  specialize (H (mkEventMetadata None 0) [(0x11, 1000); (0x53, 2000)]).
  vm_compute in H. discriminate.
Qed.

(** C2, amended: N key-downs from a detector with no key held leave at
    most N held keys; when the N key codes are pairwise distinct and no
    pattern matched on the way, the held keys are exactly those N; and
    key-ups for all of those keys, in any order and at any time, leave the
    held set empty. *)
Theorem key_downs_then_key_ups :
  ∀ (t : Time) (patterns : list HotkeyPattern) (delay : Duration)
    (meta : EventMetadata) (downs ups : list (Z * Time)),
    let after_downs := run (idle t patterns delay) (map (keyDown meta) downs) in
    let hd1 := fst after_downs in
    (size (PressedKeys hd1) ≤ length downs)%nat
    ∧ (NoDup downs.*1 → snd after_downs = [] →
       size (PressedKeys hd1) = length downs
       ∧ ∀ k : Z, is_Some (PressedKeys hd1 !! k) ↔ k ∈ downs.*1)
    ∧ ((∀ k : Z, k ∈ downs.*1 → k ∈ ups.*1) →
       PressedKeys (fst (run hd1 (map (keyUp meta) ups))) = ∅).
Proof.
  intros t patterns delay meta downs ups after_downs hd1.
  pose proof (coherent_idle t patterns delay) as Hc0.
  split; [|split].
  - pose proof (run_downs_size meta downs (idle t patterns delay)) as H.
    simpl in H. rewrite map_size_empty in H. exact H.
  - intros Hnd Hsilent.
    pose proof (run_downs_silent meta downs _ Hsilent) as Hdom.
    fold after_downs in Hdom. fold hd1 in Hdom.
    simpl in Hdom. rewrite dom_empty_L, (right_id_L ∅ (∪)) in Hdom.
    split.
    + rewrite <- size_dom, Hdom, size_list_to_set by done.
      by rewrite length_fmap.
    + intros k. rewrite <- elem_of_dom, Hdom. apply elem_of_list_to_set.
  - intros Hcover.
    pose proof (coherent_run (map (keyDown meta) downs) _ Hc0) as Hc1.
    fold after_downs in Hc1. fold hd1 in Hc1.
    pose proof (run_ups_dom meta ups hd1 Hc1) as Hsub.
    apply dom_empty_inv_L. apply set_eq. intros k. split; [|set_solver].
    intros Hk. apply Hsub in Hk. apply elem_of_difference in Hk as [Hk Hnot].
    exfalso. apply Hnot. apply elem_of_list_to_set. apply Hcover.
    pose proof (run_downs_dom meta downs (idle t patterns delay)) as Hgen.
    simpl in Hgen. rewrite dom_empty_L in Hgen. apply Hgen in Hk.
    apply elem_of_union in Hk as [Hk|Hk];
      [by apply elem_of_list_to_set in Hk | set_solver].
Qed.

(** ** Ctrl+S *)

Definition saveEvent (meta : EventMetadata) : HotkeyEvent :=
  mkHotkeyEvent "Ctrl+S" "Save" false meta.

(** With at most one key code among the held keys no pattern is looked up. *)
Lemma checkForHotkeys_single hd k meta :
  dom (PressedKeys hd) ⊆ {[k]} → checkForHotkeys hd meta = (hd, []).
Proof.
  intros Hsub. unfold checkForHotkeys.
  apply subseteq_size in Hsub. rewrite size_dom, size_singleton in Hsub.
  destruct (Nat.ltb_spec (size (PressedKeys hd)) 2); [done | lia].
Qed.

(** Calls whose key-downs all carry the key code [k] emit nothing when no
    other key is held. *)
Lemma run_single_key k calls : ∀ hd,
  dom (PressedKeys hd) ⊆ {[k]} →
  (∀ c, c ∈ calls → isKeyDown c = true → keyCode c = k) →
  snd (run hd calls) = [].
Proof.
  induction calls as [|c calls IH]; intros hd Hsub Hk; simpl; [done|].
  assert (H1 : snd (HandleKeyPress hd (keyCode c) (isKeyDown c) (at_time c) (with_meta c)) = []
               ∧ dom (PressedKeys (fst (HandleKeyPress hd (keyCode c) (isKeyDown c)
                                          (at_time c) (with_meta c)))) ⊆ {[k]}).
  { unfold HandleKeyPress. destruct (isKeyDown c) eqn:Hd.
    - rewrite (Hk c) by (done || apply list_elem_of_here).
      destruct (isPressed hd k); simpl; [done|].
      rewrite (checkForHotkeys_single _ k); simpl.
      + split; [done|]. rewrite dom_insert_L. set_solver.
      + rewrite dom_insert_L. set_solver.
    - destruct (isPressed hd (keyCode c)); simpl; [|done].
      match goal with |- context [if ?b then _ else _] => destruct b end; simpl.
      + split; [done|]. rewrite dom_empty_L. set_solver.
      + split; [done|]. rewrite dom_delete_L. set_solver. }
  destruct (HandleKeyPress _ _ _ _ _) as [hd1 ev1]. simpl in H1.
  destruct H1 as [-> Hsub1].
  specialize (IH hd1 Hsub1). destruct (run hd1 calls) as [hd2 ev2]. simpl in *.
  apply IH. intros c' Hc'. apply Hk. by apply list_elem_of_further.
Qed.

(** C4 as the spec words it: once Ctrl+S has fired, no further key-down of
    the two keys, which are still held down, emits an event. *)
Definition no_second_event_claim : Prop :=
  ∀ (meta : EventMetadata) (more : list (Z * Time)),
    (∀ k, k ∈ more.*1 → k = VK_CONTROL ∨ k = 0x53) →
    snd (run (fst (run NewHotkeyDetector
                       (map (keyDown meta) [(VK_CONTROL, 1000); (0x53, 2000)])))
             (map (keyDown meta) more)) = [].

(** C4, counterexample: the match forgets that Ctrl and S are down, so a
    repeated key-down of both, with no key-up in between, fires again. *)
Lemma repeated_ctrl_s_key_downs_fire_again :
  let meta := mkEventMetadata None 0 in
  let held := fst (run NewHotkeyDetector
                       (map (keyDown meta) [(VK_CONTROL, 1000); (0x53, 2000)])) in
  snd (run held (map (keyDown meta) [(VK_CONTROL, 3000); (0x53, 4000)]))
  = [saveEvent meta]
  ∧ ¬ no_second_event_claim.
Proof.
  split; [by vm_compute|].
  intros H.
  specialize (H (mkEventMetadata None 0) [(VK_CONTROL, 3000); (0x53, 4000)]).
  assert (Hk : ∀ k, k ∈ [(VK_CONTROL, 3000); (0x53, 4000)].*1 → k = VK_CONTROL ∨ k = 0x53).
  { intros k. simpl. rewrite !elem_of_cons. intros [->|[->|Hk]]; [by left | by right |].
    by apply elem_of_nil in Hk. }
  specialize (H Hk). vm_compute in H. discriminate.
Qed.

(** C4, amended: from the detector the constructor builds, key-down of
    Ctrl and S, in either order and with no key-up, emits exactly one event,
    Ctrl+S / Save, and leaves no key recorded as held; after that, calls
    whose key-downs all carry one and the same key code (the repeat of a
    held key, say) emit nothing. *)
Theorem ctrl_s_fires_once_and_clears :
  ∀ (m1 m2 : EventMetadata) (t1 t2 : Time),
    let ctrl_s := run NewHotkeyDetector
                      [mkKeyCall VK_CONTROL true t1 m1; mkKeyCall 0x53 true t2 m2] in
    let s_ctrl := run NewHotkeyDetector
                      [mkKeyCall 0x53 true t1 m1; mkKeyCall VK_CONTROL true t2 m2] in
    snd ctrl_s = [saveEvent m2]
    ∧ snd s_ctrl = [saveEvent m2]
    ∧ PressedKeys (fst ctrl_s) = ∅ ∧ KeyPressOrder (fst ctrl_s) = []
    ∧ PressedKeys (fst s_ctrl) = ∅ ∧ KeyPressOrder (fst s_ctrl) = []
    ∧ ∀ (k : Z) (more : list KeyCall),
        (∀ c, c ∈ more → isKeyDown c = true → keyCode c = k) →
        snd (run (fst ctrl_s) more) = [] ∧ snd (run (fst s_ctrl) more) = [].
Proof.
  intros m1 m2 t1 t2 ctrl_s s_ctrl.
  assert (E1 : ctrl_s = (clearState (mkDetector ∅ [] t2 initializeHotkeyPatterns
                                       (500 * Millisecond)), [saveEvent m2]))
    by (by vm_compute).
  assert (E2 : s_ctrl = (clearState (mkDetector ∅ [] t2 initializeHotkeyPatterns
                                       (500 * Millisecond)), [saveEvent m2]))
    by (by vm_compute).
  rewrite E1, E2. simpl. repeat (split; [done|]).
  intros k more Hk. split; apply (run_single_key k); simpl; set_solver.
Qed.

End HotkeyFacts.

(** * Facts about the rate limiter *)

Module RateLimitFacts.
Import RateLimit.

#[local] Arguments Allow : simpl never.

(** How many calls were allowed. *)
Fixpoint allowed (oks : list bool) : nat :=
  match oks with
  | [] => O
  | true :: rest => S (allowed rest)
  | false :: rest => allowed rest
  end.

(** The call at [now] falls inside the window of [rl]. *)
Definition inside (rl : RateLimiter) (now : Time) : Prop :=
  Sub now (WindowStart rl) < WindowSize rl.

(** One call inside the window. *)
Lemma Allow_inside rl now :
  inside rl now → 0 <= EventCount rl → MaxEvents rl <= 2 ^ 31 - 1 →
  Allow rl now
  = if MaxEvents rl <=? EventCount rl then (rl, false)
    else (mkRateLimiter (MaxEvents rl) (WindowSize rl) (EventCount rl + 1)
                        (WindowStart rl), true).
Proof.
  unfold inside, Allow. intros Hin Hc Hmax.
  destruct (Z.leb_spec (WindowSize rl) (Sub now (WindowStart rl))); [lia|].
  destruct (Z.leb_spec (MaxEvents rl) (EventCount rl)); [done|].
  rewrite int32_small; [done|]. change (2 ^ 31) with 2147483648 in *. lia.
Qed.

(** One call at or past the end of the window: the counter restarts. *)
Lemma Allow_reset rl now :
  WindowSize rl <= Sub now (WindowStart rl) →
  Allow rl now
  = if MaxEvents rl <=? 0
    then (mkRateLimiter (MaxEvents rl) (WindowSize rl) 0 now, false)
    else (mkRateLimiter (MaxEvents rl) (WindowSize rl) 1 now, true).
Proof.
  unfold Allow. intros Hout.
  destruct (Z.leb_spec (WindowSize rl) (Sub now (WindowStart rl))); [|lia].
  simpl. destruct (MaxEvents rl <=? 0); done.
Qed.

(** Calls inside one window: call number [i] is allowed iff the counter
    it finds, [EventCount rl + i], is below the maximum. *)
Lemma allows_inside times : ∀ rl,
  0 <= EventCount rl → MaxEvents rl <= 2 ^ 31 - 1 →
  Forall (inside rl) times →
  let res := allows rl times in
  snd res = map (fun i => EventCount rl + Z.of_nat i <? MaxEvents rl)
                (seq 0 (length times))
  ∧ MaxEvents (fst res) = MaxEvents rl
  ∧ WindowSize (fst res) = WindowSize rl
  ∧ WindowStart (fst res) = WindowStart rl
  ∧ EventCount (fst res) = EventCount rl + Z.of_nat (allowed (snd res))
  ∧ EventCount (fst res) <= Z.max (EventCount rl) (MaxEvents rl).
Proof.
  induction times as [|now times IH]; intros rl Hc Hmax Hin; simpl.
  - repeat split; lia.
  - apply Forall_cons in Hin as [Hnow Hin].
    rewrite (Allow_inside rl now Hnow Hc Hmax).
    destruct (Z.leb_spec (MaxEvents rl) (EventCount rl)) as [Hfull|Hroom].
    + specialize (IH rl Hc Hmax Hin). simpl in IH.
      destruct (allows rl times) as [rl2 oks]. simpl in *.
      destruct IH as (Hoks & ? & ? & ? & Hcount & Hle).
      repeat split; try done.
      f_equal.
      * symmetry. apply Z.ltb_ge. lia.
      * rewrite Hoks, <- seq_shift, map_map. apply map_ext. intros i.
        destruct (Z.ltb_spec (EventCount rl + Z.of_nat i) (MaxEvents rl)),
                 (Z.ltb_spec (EventCount rl + Z.of_nat (S i)) (MaxEvents rl)); lia.
    + set (rl1 := mkRateLimiter _ _ _ _).
      assert (Hin1 : Forall (inside rl1) times) by exact Hin.
      specialize (IH rl1 ltac:(simpl; lia) Hmax Hin1). simpl in IH.
      destruct (allows rl1 times) as [rl2 oks]. simpl in *.
      destruct IH as (Hoks & ? & ? & ? & Hcount & Hle).
      repeat split; try done; try lia.
      f_equal.
      * symmetry. apply Z.ltb_lt. lia.
      * rewrite Hoks, <- seq_shift, map_map. apply map_ext. intros i.
        f_equal. lia.
Qed.

(** C9: a call at or past the end of the current window restarts the
    counter and opens a new window at its own clock reading.  Of that call
    and the calls that follow inside the new window, call number [i]
    (counting from 0) is allowed iff [i < MaxEvents]: at most [MaxEvents]
    calls are allowed and every further one is refused; with a positive
    maximum the restarting call itself is allowed. *)
Theorem rate_limiter_window :
  ∀ (rl : RateLimiter) (t0 : Time) (times : list Time),
    MaxEvents rl <= 2 ^ 31 - 1 →
    WindowSize rl <= Sub t0 (WindowStart rl) →
    Forall (fun t => Sub t t0 < WindowSize rl) times →
    let res := allows rl (t0 :: times) in
    snd res = map (fun i => Z.of_nat i <? MaxEvents rl)
                  (seq 0 (S (length times)))
    ∧ Z.of_nat (allowed (snd res)) <= Z.max 0 (MaxEvents rl)
    ∧ WindowStart (fst res) = t0
    ∧ EventCount (fst res) = Z.of_nat (allowed (snd res))
    ∧ (0 < MaxEvents rl → head (snd res) = Some true).
Proof.
  intros rl t0 times Hmax Hout Hin. simpl.
  rewrite (Allow_reset rl t0 Hout).
  destruct (Z.leb_spec (MaxEvents rl) 0) as [Hnone|Hsome].
  - set (rl1 := mkRateLimiter _ _ 0 t0).
    pose proof (allows_inside times rl1 ltac:(simpl; lia) Hmax Hin) as H.
    simpl in H. destruct (allows rl1 times) as [rl2 oks]. simpl in *.
    destruct H as (Hoks & ? & ? & ? & Hcount & Hle).
    repeat split; try done; try lia.
    f_equal.
    + symmetry. apply Z.ltb_ge. lia.
    + rewrite Hoks, <- seq_shift, map_map. apply map_ext. intros i.
      destruct (Z.ltb_spec (Z.of_nat i) (MaxEvents rl)),
               (Z.ltb_spec (Z.of_nat (S i)) (MaxEvents rl)); lia.
  - set (rl1 := mkRateLimiter _ _ 1 t0).
    pose proof (allows_inside times rl1 ltac:(simpl; lia) Hmax Hin) as H.
    simpl in H. destruct (allows rl1 times) as [rl2 oks]. simpl in *.
    destruct H as (Hoks & ? & ? & ? & Hcount & Hle).
    repeat split; try done; try lia.
    f_equal.
    + symmetry. apply Z.ltb_lt. lia.
    + rewrite Hoks, <- seq_shift, map_map. apply map_ext. intros i.
      f_equal. lia.
Qed.

(** The same count for the window the constructor opens. *)
Lemma rate_limiter_first_window maxEvents windowSize created times :
  maxEvents <= 2 ^ 31 - 1 →
  Forall (fun t => Sub t created < windowSize) times →
  snd (allows (NewRateLimiter maxEvents windowSize created) times)
  = map (fun i => Z.of_nat i <? maxEvents) (seq 0 (length times)).
Proof.
  intros Hmax Hin.
  destruct (allows_inside times (NewRateLimiter maxEvents windowSize created))
    as [H _]; simpl; try done.
Qed.

(** C9, witness: a limiter for 2 events per second, created at 0 and first asked
    one second later, then three more times within the next second. *)
Lemma rate_limiter_window_witness :
  let rl := NewRateLimiter 2 Second 0 in
  let t0 := 1000000000 in
  let times := [1100000000; 1200000000; 1300000000] in
  (MaxEvents rl <= 2 ^ 31 - 1
   ∧ WindowSize rl <= Sub t0 (WindowStart rl)
   ∧ Forall (fun t => Sub t t0 < WindowSize rl) times)
  ∧ snd (allows rl (t0 :: times)) = [true; true; false; false].
Proof.
  intros rl t0 times.
  assert (H1 : MaxEvents rl <= 2 ^ 31 - 1) by (vm_compute; discriminate).
  assert (H2 : WindowSize rl <= Sub t0 (WindowStart rl))
    by (vm_compute; discriminate).
  assert (H3 : Forall (fun t => Sub t t0 < WindowSize rl) times)
    by (repeat constructor).
  split; [auto|].
  exact (proj1 (rate_limiter_window rl t0 times H1 H2 H3)).
Defined.

End RateLimitFacts.

(** * Facts about the text selection tracker *)

Module TextSelectionFacts.
Import TextSelection.

(** After a primary-button press the tracker is selecting and the press
    position is the selection start. *)
Lemma HandleMouseDown_left tst p now now' :
  let tst' := HandleMouseDown tst p MouseButtonLeft now now' in
  IsSelecting tst' = true ∧ SelectionStartPos tst' = p
  ∧ (ClickCount tst' = 1 ∨ ClickCount tst' = int64 (ClickCount tst + 1)).
Proof.
  unfold HandleMouseDown. simpl.
  destruct (isCloseClick tst p now'); simpl; auto.
Qed.

(** Pointer moves leave the selection start and the click count alone. *)
Lemma HandleMouseMove_keeps moves : ∀ tst,
  IsSelecting (foldl HandleMouseMove tst moves) = IsSelecting tst
  ∧ SelectionStartPos (foldl HandleMouseMove tst moves) = SelectionStartPos tst
  ∧ ClickCount (foldl HandleMouseMove tst moves) = ClickCount tst.
Proof.
  induction moves as [|q moves IH]; intros tst; simpl; [done|].
  destruct (IH (HandleMouseMove tst q)) as (-> & -> & ->).
  unfold HandleMouseMove. by destruct (IsSelecting tst) eqn:E; simpl.
Qed.

(** The event a release at [p] hands to the callback. *)
Definition selectionEvent (text : string) (start p : Position)
    (m : SelectionMethod) (meta : EventMetadata) : TextSelectionEvent :=
  mkTextSelectionEvent text start p m
    (uint32 (Z.of_nat (String.length text))) meta.

(** C1: a primary-button press at [p0] followed, after any pointer moves,
    by a primary-button release at [p], with [d] the distance from [p0] to
    [p], [n] the click count after the press and [text] the answer of the
    content source.
    - [d < 5] and [n <= 1]: no event.
    - otherwise [n = 2] gives a double-click event, [n = 3] a triple-click
      event, whatever [d] is;
    - a mouse-drag event is emitted only when [n] is neither 2 nor 3 and
      [d >= 5];
    - in every remaining case, and whenever [text] is empty, no event.
    The source's own [getSelectedText] always answers the empty string, so
    the tracker as it stands emits nothing. *)
Theorem mouse_up_classifies_selection :
  ∀ (tst0 : TextSelectionTracker) (p0 p : Position) (now now' : Time)
    (moves : list Position) (text clipboard : string) (meta : EventMetadata),
    let tst := foldl HandleMouseMove
                     (HandleMouseDown tst0 p0 MouseButtonLeft now now') moves in
    let d := calculateDistance p0 p in
    let n := ClickCount tst in
    let events := snd (HandleMouseUpWith text tst p MouseButtonLeft meta) in
    (root_ltb d 5 = true ∧ n <= 1 → events = [])
    ∧ (text = "" → events = [])
    ∧ (text ≠ "" → n = 2 →
       events = [selectionEvent text p0 p SelectionDoubleClick meta])
    ∧ (text ≠ "" → n = 3 →
       events = [selectionEvent text p0 p SelectionTripleClick meta])
    ∧ (text ≠ "" → n ≠ 2 → n ≠ 3 → root_geb d 5 = true →
       events = [selectionEvent text p0 p SelectionMouseDrag meta])
    ∧ (n ≠ 2 → n ≠ 3 → root_ltb d 5 = true → events = [])
    ∧ (∀ ev, ev ∈ events → Method ev = SelectionMouseDrag →
       n ≠ 2 ∧ n ≠ 3 ∧ root_geb d 5 = true)
    ∧ snd (HandleMouseUp clipboard tst p MouseButtonLeft meta) = [].
Proof.
  intros tst0 p0 p now now' moves text clipboard meta tst d n events.
  destruct (HandleMouseDown_left tst0 p0 now now') as (Hsel0 & Hstart0 & _).
  destruct (HandleMouseMove_keeps moves
              (HandleMouseDown tst0 p0 MouseButtonLeft now now'))
    as (Hsel & Hstart & _).
  fold tst in Hsel, Hstart. rewrite Hsel0 in Hsel. rewrite Hstart0 in Hstart.
  clear Hsel0 Hstart0.
  assert (Hev : ∀ txt, snd (HandleMouseUpWith txt tst p MouseButtonLeft meta)
    = if root_ltb d 5 && (n <=? 1) then []
      else if n =? 2 then
        if (txt =? "")%string then []
        else [selectionEvent txt p0 p SelectionDoubleClick meta]
      else if n =? 3 then
        if (txt =? "")%string then []
        else [selectionEvent txt p0 p SelectionTripleClick meta]
      else if root_geb d 5 then
        if (txt =? "")%string then []
        else [selectionEvent txt p0 p SelectionMouseDrag meta]
      else []).
  { intros txt. unfold HandleMouseUpWith. rewrite Hsel, Hstart.
    cbn [MouseButton_eqb negb]. fold d. fold n. unfold selectionEvent.
    destruct (root_ltb d 5 && (n <=? 1)); [done|].
    destruct (n =? 2); [by destruct (txt =? "")%string|].
    destruct (n =? 3); [by destruct (txt =? "")%string|].
    destruct (root_geb d 5); [by destruct (txt =? "")%string | done]. }
  unfold events. rewrite !Hev. unfold HandleMouseUp, getSelectedText.
  rewrite Hev. rewrite !root_geb_ltb. clear Hev Hsel Hstart events.
  repeat split.
  - intros [-> Hn]. by destruct (Z.leb_spec n 1); [|lia].
  - intros ->. simpl.
    by repeat match goal with |- context [if ?c then _ else _] => destruct c end.
  - intros Ht ->. apply String.eqb_neq in Ht. rewrite Ht. simpl.
    by rewrite andb_false_r.
  - intros Ht ->. apply String.eqb_neq in Ht. rewrite Ht. simpl.
    by rewrite andb_false_r.
  - intros Ht H2 H3 Hd. apply String.eqb_neq in Ht. rewrite Ht.
    apply negb_true_iff in Hd. rewrite Hd. simpl.
    destruct (Z.eqb_spec n 2); [done|]. by destruct (Z.eqb_spec n 3).
  - intros H2 H3 ->. simpl.
    destruct (n <=? 1); [done|]. simpl.
    destruct (Z.eqb_spec n 2); [done|]. by destruct (Z.eqb_spec n 3).
  - intros ->. revert H.
    destruct (root_ltb d 5 && (2 <=? 1)); [by intros ?%elem_of_nil|]. simpl.
    destruct (text =? "")%string; [by intros ?%elem_of_nil|].
    intros ->%list_elem_of_singleton. discriminate.
  - intros ->. revert H.
    destruct (root_ltb d 5 && (3 <=? 1)); [by intros ?%elem_of_nil|]. simpl.
    destruct (text =? "")%string; [by intros ?%elem_of_nil|].
    intros ->%list_elem_of_singleton. discriminate.
  - revert H H0.
    destruct (root_ltb d 5 && (n <=? 1)); [by intros ?%elem_of_nil|].
    destruct (n =? 2).
    { destruct (text =? "")%string; [by intros ?%elem_of_nil|].
      intros ->%list_elem_of_singleton. discriminate. }
    destruct (n =? 3).
    { destruct (text =? "")%string; [by intros ?%elem_of_nil|].
      intros ->%list_elem_of_singleton. discriminate. }
    destruct (root_ltb d 5); [by intros ?%elem_of_nil | done].
  - simpl.
    by repeat match goal with |- context [if ?c then _ else _] => destruct c end.
Qed.

End TextSelectionFacts.

(** * Facts about the drag and drop tracker *)

Module DragDropFacts.
Import DragDrop.

(** The three heuristics of [isSuccessfulDrop], each on its own. *)
Definition onDropTarget (element : option UIElement) : bool :=
  match element with
  | Some e => isDropTarget e
  | None => false
  end.
Definition farEnough (ddt : DragDropTracker) (p : Position) : bool :=
  root_gtb (calculateDistance (DragStartPos ddt) p) 50.
Definition longEnough (ddt : DragDropTracker) (now : Time) : bool :=
  500 * Millisecond <? Since now (DragStartTime ddt).

Lemma isSuccessfulDrop_heuristics ddt p element now :
  isSuccessfulDrop ddt p element now
  = onDropTarget element || farEnough ddt p || longEnough ddt now.
Proof.
  unfold isSuccessfulDrop, onDropTarget, farEnough, longEnough.
  destruct element as [e|]; [destruct (isDropTarget e); [done|] |]; simpl;
    destruct (root_gtb _ 50); simpl; try done;
    by destruct (_ <? _).
Qed.

(** A confirmed drag released far enough from its start emits one event. *)
Lemma HandleMouseUp_completes ddt p element now clipboard meta :
  IsDragging ddt = true →
  IsZero (DragStartTime ddt) = false →
  root_geb (calculateDistance (DragStartPos ddt) p) (MinDragDistance ddt) = true →
  ∃ ev, snd (HandleMouseUp ddt p MouseButtonLeft element now clipboard meta) = [ev]
        ∧ Success ev = isSuccessfulDrop ddt p element now
        ∧ StartPosition ev = DragStartPos ddt
        ∧ EndPosition ev = p.
Proof.
  intros Hdrag Hstart Hdist. unfold HandleMouseUp.
  rewrite Hdrag, Hstart. cbn [MouseButton_eqb negb orb].
  rewrite root_geb_ltb in Hdist. apply negb_true_iff in Hdist. rewrite Hdist.
  destruct (getDragContent ddt clipboard) as [content dataType].
  eexists. simpl. repeat split.
Qed.

(** C5: when a primary-button release completes a confirmed drag whose
    distance reaches the minimum, exactly one event is emitted and its
    [Success] is the disjunction of the three heuristics: the target's role
    or name is in the drop-target vocabulary, the distance exceeds 50 px,
    the duration exceeds 500 ms.  Any one is enough.  In particular a drag
    from (0,0) released at (0,60) on an element of role "listbox", with the
    constructor's 10 px minimum, succeeds at every clock reading. *)
Theorem drop_success_heuristics :
  ∀ (ddt : DragDropTracker) (p : Position) (element : option UIElement)
    (now : Time) (clipboard : string) (meta : EventMetadata),
    IsDragging ddt = true →
    IsZero (DragStartTime ddt) = false →
    root_geb (calculateDistance (DragStartPos ddt) p) (MinDragDistance ddt) = true →
    (∃ ev, snd (HandleMouseUp ddt p MouseButtonLeft element now clipboard meta) = [ev]
           ∧ Success ev = onDropTarget element || farEnough ddt p || longEnough ddt now
           ∧ (onDropTarget element = true → Success ev = true)
           ∧ (farEnough ddt p = true → Success ev = true)
           ∧ (longEnough ddt now = true → Success ev = true))
    ∧ (DragStartPos ddt = mkPosition 0 0 → MinDragDistance ddt = 10 →
       ∀ (e : UIElement) (now' : Time),
         Role e = "listbox" →
         ∃ ev, snd (HandleMouseUp ddt (mkPosition 0 60) MouseButtonLeft (Some e)
                                  now' clipboard meta) = [ev]
               ∧ Success ev = true).
Proof.
  intros ddt p element now clipboard meta Hdrag Hstart Hdist. split.
  - destruct (HandleMouseUp_completes ddt p element now clipboard meta
                Hdrag Hstart Hdist) as (ev & Hev & Hs & _).
    exists ev. rewrite Hs, isSuccessfulDrop_heuristics.
    repeat split; [done| | |]; intros ->; [done | | ].
    + by rewrite orb_true_r.
    + by rewrite orb_true_r.
  - intros Hpos Hmin e now' Hrole.
    destruct (HandleMouseUp_completes ddt (mkPosition 0 60) (Some e) now'
                clipboard meta Hdrag Hstart) as (ev & Hev & Hs & _).
    { rewrite Hpos, Hmin. reflexivity. }
    exists ev. split; [done|]. rewrite Hs, isSuccessfulDrop_heuristics.
    unfold onDropTarget, isDropTarget. rewrite Hrole. reflexivity.
Qed.

(** C5, witness: a press at (0,0), a move to (0,30) that confirms the drag,
    and a quick release at (0,60) over a list box. *)
Lemma drop_success_heuristics_witness :
  let listbox := mkUIElement "listbox" "Files" 42 "Explorer" "explorer.exe" "" in
  let ddt := HandleMouseMove
               (HandleMouseDown NewDragDropTracker (mkPosition 0 0)
                                MouseButtonLeft None 1000)
               (mkPosition 0 30) in
  (IsDragging ddt = true
   ∧ IsZero (DragStartTime ddt) = false
   ∧ root_geb (calculateDistance (DragStartPos ddt) (mkPosition 0 60))
              (MinDragDistance ddt) = true)
  ∧ ∃ ev, snd (HandleMouseUp ddt (mkPosition 0 60) MouseButtonLeft (Some listbox)
                             1001 "" (mkEventMetadata None 0)) = [ev]
          ∧ Success ev = true.
Proof.
  intros listbox ddt.
  assert (H1 : IsDragging ddt = true) by reflexivity.
  assert (H2 : IsZero (DragStartTime ddt) = false) by reflexivity.
  assert (H3 : root_geb (calculateDistance (DragStartPos ddt) (mkPosition 0 60))
                        (MinDragDistance ddt) = true) by reflexivity.
  split; [auto|].
  exact (proj2 (drop_success_heuristics ddt (mkPosition 0 60) (Some listbox) 1001 ""
                  (mkEventMetadata None 0) H1 H2 H3)
               eq_refl eq_refl listbox 1001 eq_refl).
Defined.

(** Once the drag state is cleared, pointer moves are ignored. *)
Lemma HandleMouseMove_cleared ddt moves :
  foldl HandleMouseMove (clearDragState ddt) moves = clearDragState ddt.
Proof.
  induction moves as [|q moves IH]; simpl; [done|]. exact IH.
Qed.

(** C10: a primary-button [HandleMouseUp] always leaves the drag state
    cleared, whichever way it returns: not dragging, zero start time, zero
    positions, no source element.  Pointer moves that follow change
    nothing, so no drag can start before the next [HandleMouseDown]. *)
Theorem mouse_up_clears_drag_state :
  ∀ (ddt : DragDropTracker) (p : Position) (element : option UIElement)
    (now : Time) (clipboard : string) (meta : EventMetadata)
    (moves : list Position),
    let ddt' := fst (HandleMouseUp ddt p MouseButtonLeft element now clipboard meta) in
    IsDragging ddt' = false
    ∧ DragStartTime ddt' = zeroTime
    ∧ DragStartPos ddt' = mkPosition 0 0
    ∧ DragStartElement ddt' = None
    ∧ LastDragPos ddt' = mkPosition 0 0
    ∧ MinDragDistance ddt' = MinDragDistance ddt
    ∧ foldl HandleMouseMove ddt' moves = ddt'
    ∧ IsDragging (foldl HandleMouseMove ddt' moves) = false.
Proof.
  intros ddt p element now clipboard meta moves ddt'.
  assert (E : ddt' = clearDragState ddt).
  { unfold ddt', HandleMouseUp. cbn [MouseButton_eqb negb].
    destruct (negb (IsDragging ddt) || IsZero (DragStartTime ddt)); [done|].
    destruct (root_ltb _ _); [done|].
    by destruct (getDragContent ddt clipboard). }
  rewrite E, HandleMouseMove_cleared. by repeat split.
Qed.

End DragDropFacts.

(** * Facts about the text input manager *)

Module TextInputFacts.
Import TextInput.

#[local] Arguments completeTextInputInternalWith : simpl never.

(** The final text differs from the text captured at the start and is not
    blank once trimmed. *)
Definition worthReporting (tracker : TextInputTracker) (finalText : string) : Prop :=
  finalText ≠ InitialText tracker ∧ TrimSpace finalText ≠ "".

(** The event a completion hands to the callback. *)
Definition completedEvent (tracker : TextInputTracker) (finalText : string)
    (r : Reading) : TextInputCompletedEvent :=
  mkCompletedEvent finalText (getFieldName (Element tracker))
    (getFieldType (Element tracker)) (InputMethod tracker)
    (uint64 (Milliseconds (Since (now r) (StartTime tracker))))
    (KeystrokeCount tracker)
    (match Element tracker with
     | Some e => mkEventMetadata (Some e) (Timestamp (meta r))
     | None => meta r
     end).

Lemma complete_reports readText tracker reason r :
  worthReporting tracker (readText (Element tracker)) →
  completeTextInputInternalWith readText (Some tracker) reason r
  = [completedEvent tracker (readText (Element tracker)) r].
Proof.
  intros [Hne Hblank]. unfold completeTextInputInternalWith.
  apply String.eqb_neq in Hne. apply String.eqb_neq in Hblank.
  by rewrite Hne, Hblank.
Qed.

Lemma complete_drops readText tracker reason r :
  ¬ worthReporting tracker (readText (Element tracker)) →
  completeTextInputInternalWith readText (Some tracker) reason r = [].
Proof.
  intros Hnot. unfold completeTextInputInternalWith.
  destruct (String.eqb_spec (readText (Element tracker)) (InitialText tracker));
    [done|].
  destruct (String.eqb_spec (TrimSpace (readText (Element tracker))) "");
    [done|].
  exfalso. apply Hnot. by split.
Qed.

(** C6: whatever ends a session (the timer through [CompleteTextInput], a
    new focus on the same element through [StartTextInput], the end of the
    recording through [CompleteAllActiveInputs]), its completion emits one
    event when the text read back differs from the text captured at the
    start and is not blank after trimming, and nothing otherwise; the
    functions are total, so nothing is raised.  With the source's own
    [getCurrentText], which always answers the empty string, no completion
    ever emits. *)
Theorem completion_emits_iff_text_changed :
  ∀ (readText : option UIElement -> string) (tracker : TextInputTracker)
    (reason : string) (r : Reading),
    let finalText := readText (Element tracker) in
    let events := completeTextInputInternalWith readText (Some tracker) reason r in
    (worthReporting tracker finalText →
     events = [completedEvent tracker finalText r])
    ∧ (¬ worthReporting tracker finalText → events = [])
    ∧ (events ≠ [] ↔ worthReporting tracker finalText)
    ∧ (∀ tim key, ActiveInputs tim !! key = Some tracker →
         snd (CompleteTextInputWith readText tim key reason r) = events
         ∧ ActiveInputs (fst (CompleteTextInputWith readText tim key reason r)) !! key
           = None)
    ∧ (∀ tim e t0 t1,
         ActiveInputs tim !! getElementKey (Some e) = Some tracker →
         snd (StartTextInputWith readText tim (Some e) r t0 t1)
         = completeTextInputInternalWith readText (Some tracker) "focus_change" r)
    ∧ (∀ tim rs,
         ActiveInputs (fst (CompleteAllActiveInputsWith readText tim rs)) = ∅
         ∧ ∀ ev, ev ∈ snd (CompleteAllActiveInputsWith readText tim rs) ↔
             ∃ key session,
               ActiveInputs tim !! key = Some session
               ∧ worthReporting session (readText (Element session))
               ∧ ev = completedEvent session (readText (Element session)) (rs key))
    ∧ completeTextInputInternal (Some tracker) reason r = [].
Proof.
  intros readText tracker reason r finalText events.
  split; [apply complete_reports|]. split; [apply complete_drops|].
  split; [|split; [|split; [|split]]].
  - split.
    + intros Hne. destruct (decide (finalText = InitialText tracker)) as [Heq|Hd].
      * exfalso. apply Hne. apply complete_drops. intros [? _]. done.
      * destruct (decide (TrimSpace finalText = "")) as [Heq|Hb]; [|by split].
        exfalso. apply Hne. apply complete_drops. intros [_ ?]. done.
    + intros Hw. unfold events. by rewrite complete_reports.
  - intros tim key Hkey. unfold CompleteTextInputWith. rewrite Hkey. simpl.
    split; [done | apply lookup_delete_eq].
  - intros tim e t0 t1 Hkey. unfold StartTextInputWith. by rewrite Hkey.
  - intros tim rs. split; [done|]. intros ev.
    unfold CompleteAllActiveInputsWith. simpl.
    rewrite list_elem_of_In, in_concat. split.
    + intros (l & Hl & Hev). apply in_map_iff in Hl as ([key session] & <- & Hin).
      apply list_elem_of_In, elem_of_map_to_list in Hin.
      apply list_elem_of_In in Hev. simpl in Hev.
      exists key, session. split; [done|].
      destruct (decide (readText (Element session) = InitialText session)) as [Heq|Hd].
      { rewrite complete_drops in Hev; [by apply elem_of_nil in Hev|].
        intros [? _]. done. }
      destruct (decide (TrimSpace (readText (Element session)) = "")) as [Heq|Hb].
      { rewrite complete_drops in Hev; [by apply elem_of_nil in Hev|].
        intros [_ ?]. done. }
      rewrite complete_reports in Hev by (by split).
      apply list_elem_of_singleton in Hev. by repeat split.
    + intros (key & session & Hkey & Hw & ->).
      exists [completedEvent session (readText (Element session)) (rs key)].
      split; [|by left].
      apply in_map_iff. exists (key, session). simpl.
      split; [by rewrite complete_reports|].
      by apply list_elem_of_In, elem_of_map_to_list.
  - unfold completeTextInputInternal. apply complete_drops.
    intros [_ Hb]. apply Hb. reflexivity.
Qed.

End TextInputFacts.

(** * Facts about the browser tab tracker *)

Module BrowserTabFacts.
Import BrowserTab.

(** The hotkey is one of those [determineNavigationMethod] reacts to. *)
Definition listed (hotkey : string) : bool :=
  isNewTabHotkey hotkey || isCloseTabHotkey hotkey
  || isTabCycleHotkey hotkey || isAddressBarHotkey hotkey.

(** C3 as the spec words it: the buffer is searched for a new-tab pattern
    first, then for a close-tab pattern, then for a tab-cycle pattern, then
    for an address-bar pattern; clicks and "other" come last. *)
Definition methodByCategory (st : BrowserState) : TabNavigationMethod :=
  if existsb isNewTabHotkey (RecentHotkeys st) then TabNavigationNewTabButton
  else if existsb isCloseTabHotkey (RecentHotkeys st) then TabNavigationCloseButton
  else if existsb isTabCycleHotkey (RecentHotkeys st) then TabNavigationKeyboardShortcut
  else if existsb isAddressBarHotkey (RecentHotkeys st) then TabNavigationAddressBar
  else if (0 <? length (RecentClicks st))%nat then TabNavigationTabClick
  else TabNavigationOther.

Lemma hotkeyMethod_None hotkey : hotkeyMethod hotkey = None ↔ listed hotkey = false.
Proof.
  unfold hotkeyMethod, listed.
  destruct (isNewTabHotkey hotkey), (isCloseTabHotkey hotkey),
    (isTabCycleHotkey hotkey), (isAddressBarHotkey hotkey); simpl; split; congruence.
Qed.

Lemma scanHotkeys_unlisted hotkeys :
  Forall (fun h => listed h = false) hotkeys → scanHotkeys hotkeys = None.
Proof.
  induction 1 as [|h l Hh _ IH]; simpl; [done|].
  apply hotkeyMethod_None in Hh. by rewrite Hh.
Qed.

(** The oldest listed hotkey decides. *)
Lemma scanHotkeys_oldest pre h post :
  Forall (fun x => listed x = false) pre → listed h = true →
  scanHotkeys (pre ++ h :: post) = hotkeyMethod h ∧ is_Some (hotkeyMethod h).
Proof.
  intros Hpre Hh.
  assert (Hsome : is_Some (hotkeyMethod h)).
  { destruct (hotkeyMethod h) eqn:E; [eauto|].
    apply hotkeyMethod_None in E. congruence. }
  split; [|done].
  induction Hpre as [|x l Hx _ IH]; simpl.
  - by destruct Hsome as [m ->].
  - apply hotkeyMethod_None in Hx. by rewrite Hx.
Qed.

(** A navigation hotkey goes to the end of the buffer of its process; the
    buffer keeps the last five. *)
Lemma HandleHotkey_appends btt combination e st :
  isBrowserWindow e = true →
  isBrowserNavigationHotkey combination = true →
  BrowserStates btt !! ProcessID e = Some st →
  RecentHotkeys <$> (BrowserStates (HandleHotkey btt combination (Some e)) !! ProcessID e)
  = Some (keepRecent 5 (RecentHotkeys st ++ [combination])).
Proof.
  intros Hb Hn Hst. unfold HandleHotkey. rewrite Hb, Hn, Hst. simpl.
  by rewrite lookup_insert_eq.
Qed.

Section Labels.

Variable extractTitle : string -> string.
Variable getBrowserName : string -> string.
Variable isBackForwardNavigation : string -> string -> bool.

#[local] Abbreviation handle :=
  (HandleWindowChange extractTitle getBrowserName isBackForwardNavigation).

(** Every event comes from the stored state of the element's process and
    carries what [determineNavigationMethod] makes of that state. *)
Lemma HandleWindowChange_event btt element clock meta ev :
  ev ∈ snd (handle btt element clock meta) →
  ∃ e st,
    element = Some e ∧ isBrowserWindow e = true
    ∧ BrowserStates btt !! ProcessID e = Some st
    ∧ extractURL (WindowTitle e) ≠ ""
    ∧ extractURL (WindowTitle e) ≠ CurrentURL st
    ∧ snd (handle btt element clock meta) = [ev]
    ∧ Method ev = determineNavigationMethod st
    ∧ FromURL ev = CurrentURL st
    ∧ ToURL ev = extractURL (WindowTitle e)
    ∧ PageDwellTimeMs ev
      = uint64 (Milliseconds (Since (clock O) (LastURLChange st))).
Proof.
  unfold HandleWindowChange. destruct element as [e|]; [|by intros ?%elem_of_nil].
  destruct (isBrowserWindow e) eqn:Hb; [|by intros ?%elem_of_nil]. simpl.
  destruct (BrowserStates btt !! ProcessID e) as [st|] eqn:Hst;
    [|by intros ?%elem_of_nil].
  destruct (String.eqb_spec (extractURL (WindowTitle e)) "") as [|Hne];
    [by intros ?%elem_of_nil|].
  destruct (String.eqb_spec (extractURL (WindowTitle e)) (CurrentURL st)) as [|Hch];
    [by intros ?%elem_of_nil|].
  simpl. intros ->%list_elem_of_singleton.
  exists e, st. by repeat split.
Qed.

(** C3, amended: the method of an emitted event is read off the stored
    state of the process.  The oldest entry of the recent-hotkey buffer
    that is a new-tab, close-tab, tab-cycle or address-bar hotkey decides,
    by its own kind; later entries are not looked at.  When the buffer
    holds no such entry the method is "tab click" if the recent-click
    buffer is non-empty and "other" if it is empty. *)
Theorem navigation_method_from_oldest_hotkey :
  ∀ (btt : BrowserTabTracker) (element : option UIElement) (clock : nat -> Time)
    (meta : EventMetadata) (ev : BrowserTabNavigationEvent),
    ev ∈ snd (handle btt element clock meta) →
    ∃ e st,
      element = Some e
      ∧ BrowserStates btt !! ProcessID e = Some st
      ∧ Method ev = determineNavigationMethod st
      ∧ (∀ pre h post,
           RecentHotkeys st = pre ++ h :: post →
           Forall (fun x => listed x = false) pre →
           (isNewTabHotkey h = true → Method ev = TabNavigationNewTabButton)
           ∧ (isCloseTabHotkey h = true → Method ev = TabNavigationCloseButton)
           ∧ (isTabCycleHotkey h = true → Method ev = TabNavigationKeyboardShortcut)
           ∧ (isAddressBarHotkey h = true → Method ev = TabNavigationAddressBar))
      ∧ (Forall (fun x => listed x = false) (RecentHotkeys st) →
         (RecentClicks st ≠ [] → Method ev = TabNavigationTabClick)
         ∧ (RecentClicks st = [] → Method ev = TabNavigationOther)).
Proof.
  intros btt element clock meta ev Hev.
  destruct (HandleWindowChange_event _ _ _ _ _ Hev)
    as (e & st & -> & _ & Hst & _ & _ & _ & Hm & _).
  exists e, st. split; [done|]. split; [done|]. split; [done|].
  rewrite Hm. unfold determineNavigationMethod. split.
  - intros pre h post -> Hpre.
    assert (Hscan : listed h = true →
                    scanHotkeys (pre ++ h :: post) = hotkeyMethod h
                    ∧ is_Some (hotkeyMethod h))
      by (by apply scanHotkeys_oldest).
    unfold listed, hotkeyMethod in *.
    destruct (isNewTabHotkey h) eqn:E1, (isCloseTabHotkey h) eqn:E2,
      (isTabCycleHotkey h) eqn:E3, (isAddressBarHotkey h) eqn:E4;
      simpl in Hscan;
      try (destruct (Hscan eq_refl) as [-> _]);
      repeat split; intros; try done;
      (* two kinds at once: the lists of hotkeys are disjoint *)
      exfalso; clear -E1 E2 E3 E4;
      unfold isNewTabHotkey, isCloseTabHotkey, isTabCycleHotkey,
        isAddressBarHotkey in *; simpl in *;
      repeat match goal with
      | H : context [String.eqb h ?s] |- _ =>
          destruct (String.eqb_spec h s); [subst h; simpl in *; discriminate|]
      end; simpl in *; discriminate.
  - intros Hnone. rewrite (scanHotkeys_unlisted _ Hnone).
    destruct (RecentClicks st); simpl; split; intros; done.
Qed.

(** The state a first observation stores. *)
Definition seeded (e : UIElement) (now : Time) : BrowserState :=
  mkBrowserState (ProcessID e) (WindowTitle e) (extractURL (WindowTitle e))
                 now 1 zeroTime [] [].

(** C7: for a browser window [e],
    - when its process has no stored state, the call stores the seeded
      state for that process, leaves the other processes alone and emits
      nothing;
    - when the process has a stored state [st] and the title yields a
      non-empty URL different from the stored one, the call emits exactly
      one event, from the stored URL to the extracted URL, whose dwell time
      is the whole milliseconds between the stored time of the last URL
      change and the clock reading of the call, and it stores the new URL
      with a new time of change;
    - when the process has a stored state and the title yields no URL or
      the stored URL, the call emits nothing and keeps the stored URL and
      the time of its last change. *)
Theorem window_change_seeds_then_reports :
  ∀ (btt : BrowserTabTracker) (e : UIElement) (clock : nat -> Time)
    (meta : EventMetadata),
    isBrowserWindow e = true →
    let res := handle btt (Some e) clock meta in
    let url := extractURL (WindowTitle e) in
    (BrowserStates btt !! ProcessID e = None →
     snd res = []
     ∧ BrowserStates (fst res) !! ProcessID e = Some (seeded e (clock O))
     ∧ ∀ pid, pid ≠ ProcessID e →
         BrowserStates (fst res) !! pid = BrowserStates btt !! pid)
    ∧ (∀ st, BrowserStates btt !! ProcessID e = Some st →
         url ≠ "" → url ≠ CurrentURL st →
         ∃ ev st',
           snd res = [ev]
           ∧ FromURL ev = CurrentURL st
           ∧ ToURL ev = url
           ∧ PageDwellTimeMs ev
             = uint64 (Milliseconds (Since (clock O) (LastURLChange st)))
           ∧ BrowserStates (fst res) !! ProcessID e = Some st'
           ∧ CurrentURL st' = url
           ∧ LastURLChange st' = clock 1%nat)
    ∧ (∀ st, BrowserStates btt !! ProcessID e = Some st →
         url = "" ∨ url = CurrentURL st →
         ∃ st',
           snd res = []
           ∧ BrowserStates (fst res) !! ProcessID e = Some st'
           ∧ CurrentURL st' = CurrentURL st
           ∧ LastURLChange st' = LastURLChange st).
Proof.
  intros btt e clock meta Hb res url. unfold res, HandleWindowChange.
  rewrite Hb. cbn [negb]. fold url. split; [|split].
  - intros Hnone. rewrite Hnone. simpl. split; [done|]. split.
    + by rewrite lookup_insert_eq.
    + intros pid Hpid. by rewrite lookup_insert_ne.
  - intros st Hst Hne Hch. rewrite Hst.
    apply String.eqb_neq in Hne. apply String.eqb_neq in Hch.
    rewrite Hne, Hch. simpl. eexists _, _. split; [done|].
    rewrite lookup_insert_eq. by repeat split.
  - intros st Hst Hsame. rewrite Hst.
    destruct (String.eqb_spec url "") as [Hempty|Hne]; simpl.
    + eexists. split; [done|]. rewrite lookup_insert_eq. by repeat split.
    + destruct Hsame as [?|Heq]; [done|].
      destruct (String.eqb_spec url (CurrentURL st)); [|done]. simpl.
      eexists. split; [done|]. rewrite lookup_insert_eq. by repeat split.
Qed.

End Labels.

End BrowserTabFacts.

(** * The browser scenario of the spec, run on the model *)

Module BrowserScenario.
Import BrowserTab BrowserTabFacts.

(** Stand-ins for the three label helpers. *)
Definition noTitle (title : string) : string := "".
Definition rawName (appName : string) : string := appName.
Definition neverBackForward (fromURL toURL : string) : bool := false.

Definition handle :=
  HandleWindowChange noTitle rawName neverBackForward.

Definition plainWindow : UIElement :=
  mkUIElement "window" "" 1234 "Example — Chrome" "chrome.exe" "".
Definition pageWindow : UIElement :=
  mkUIElement "window" "" 1234 "https://example.com/page — Chrome" "chrome.exe" "".

Definition clockAt (t : Time) : nat -> Time := fun i => t + Z.of_nat i.
Definition noMeta : EventMetadata := mkEventMetadata None 0.

(** The tracker after the first observation of process 1234, at 1 s. *)
Definition afterFirst : BrowserTabTracker :=
  fst (handle NewBrowserTabTracker (Some plainWindow) (clockAt 1000000000) noMeta).

(** ... and after Ctrl+L and then Ctrl+T were pressed in that window. *)
Definition afterHotkeys : BrowserTabTracker :=
  HandleHotkey (HandleHotkey afterFirst "Ctrl+L" (Some plainWindow))
               "Ctrl+T" (Some plainWindow).

(** C7, witness: the first observation of "Example — Chrome" seeds the
    state; the observation of "https://example.com/page — Chrome" 2.5 s
    later reports the navigation with a dwell time of 2500 ms. *)
Lemma window_change_seeds_then_reports_witness :
  isBrowserWindow pageWindow = true
  ∧ snd (handle NewBrowserTabTracker (Some plainWindow) (clockAt 1000000000) noMeta) = []
  ∧ ∃ ev, snd (handle afterFirst (Some pageWindow) (clockAt 3500000000) noMeta) = [ev]
          ∧ FromURL ev = ""
          ∧ ToURL ev = "https://example.com/page"
          ∧ PageDwellTimeMs ev = 2500.
Proof.
  assert (Hb : isBrowserWindow pageWindow = true) by reflexivity.
  split; [exact Hb|]. split; [reflexivity|].
  destruct (proj1 (proj2 (window_change_seeds_then_reports noTitle rawName
                            neverBackForward afterFirst pageWindow
                            (clockAt 3500000000) noMeta Hb))
              (seeded plainWindow 1000000000))
    as (ev & st' & Hev & Hfrom & Hto & Hdwell & _).
  - by vm_compute.
  - by vm_compute.
  - by vm_compute.
  - exists ev. split; [exact Hev|]. split; [exact Hfrom|].
    split; [exact Hto | exact Hdwell].
Defined.

(** C3, counterexample: with Ctrl+L pressed before Ctrl+T the buffer holds
    both an address-bar and a new-tab hotkey.  The reported method is
    "address bar", the kind of the older entry, where the search by
    category gives "new tab button". *)
Lemma older_hotkey_beats_new_tab_pattern :
  RecentHotkeys <$> (BrowserStates afterHotkeys !! 1234) = Some ["Ctrl+L"; "Ctrl+T"]
  ∧ Method <$> snd (handle afterHotkeys (Some pageWindow) (clockAt 3500000000) noMeta)
    = [TabNavigationAddressBar]
  ∧ methodByCategory <$> (BrowserStates afterHotkeys !! 1234)
    = Some TabNavigationNewTabButton.
Proof. by vm_compute. Qed.

(** C3, witness: the same run, read through the amended statement. *)
Lemma navigation_method_from_oldest_hotkey_witness :
  let res := handle afterHotkeys (Some pageWindow) (clockAt 3500000000) noMeta in
  ∃ ev, ev ∈ snd res ∧ Method ev = TabNavigationAddressBar.
Proof.
  intros res.
  assert (Hev : ∃ ev, snd res = [ev]) by (vm_compute; eauto).
  destruct Hev as [ev Hev]. exists ev.
  assert (Hin : ev ∈ snd res) by (rewrite Hev; apply list_elem_of_here).
  split; [exact Hin|].
  destruct (navigation_method_from_oldest_hotkey noTitle rawName neverBackForward
              afterHotkeys (Some pageWindow) (clockAt 3500000000) noMeta ev Hin)
    as (e & st & He & Hst & Hm & Hold & _).
  injection He as <-.
  assert (Hbuf : RecentHotkeys st = [] ++ "Ctrl+L" :: ["Ctrl+T"]).
  { assert (H : RecentHotkeys <$> Some st = Some ["Ctrl+L"; "Ctrl+T"])
      by (rewrite <- Hst; by vm_compute).
    by injection H. }
  by apply (Hold [] "Ctrl+L" ["Ctrl+T"] Hbuf (Forall_nil_2 _)).
Defined.

End BrowserScenario.

(** * More on the hotkey detector: what a match means *)

Module HotkeyMatching.
Import Hotkey.

#[local] Arguments HandleKeyPress : simpl never.

(** The key codes of the held set, in the order [map_to_list] gives. *)
Definition heldKeys (hd : HotkeyDetector) : list Z :=
  map fst (map_to_list (PressedKeys hd)).

(** The event [checkForHotkeys] builds from a pattern. *)
Definition patternEvent (p : HotkeyPattern) (meta : EventMetadata) : HotkeyEvent :=
  mkHotkeyEvent (PatCombination p) (PatAction p) (PatIsGlobal p) meta.

Lemma insertSorted_perm k l : insertSorted k l ≡ₚ k :: l.
Proof.
  induction l as [|x l IH]; simpl; [done|].
  destruct (k <? x); [done|]. rewrite IH. apply Permutation_swap.
Qed.

Lemma sortKeys_perm l : sortKeys l ≡ₚ l.
Proof.
  induction l as [|x l IH]; simpl; [done|].
  unfold sortKeys in *. simpl. by rewrite insertSorted_perm, IH.
Qed.

Lemma insertSorted_sorted k l : Sorted Z.le l → Sorted Z.le (insertSorted k l).
Proof.
  induction 1 as [|x l Hl IH Hhd]; simpl; [by repeat constructor|].
  destruct (Z.ltb_spec k x).
  - constructor; [by constructor|]. constructor. lia.
  - constructor; [done|].
    destruct l as [|y l]; simpl in *; [constructor; lia|].
    destruct (Z.ltb_spec k y); constructor; [lia|].
    by inversion Hhd.
Qed.

Lemma sortKeys_sorted l : Sorted Z.le (sortKeys l).
Proof.
  induction l as [|x l IH]; simpl; [constructor|].
  by apply insertSorted_sorted.
Qed.

(** On lists of one length the comparison loop is equality. *)
Lemma sameKeys_eq a : ∀ b, length a = length b → sameKeys a b = true ↔ a = b.
Proof.
  induction a as [|x a IH]; intros [|y b] Hlen; simpl in *; try done.
  rewrite andb_true_iff, Z.eqb_eq, IH by lia. split.
  - by intros [-> ->].
  - by intros [= -> ->].
Qed.

(** A match means the same keys. *)
Lemma keysMatch_sound pressed patternKeys :
  keysMatch (sortKeys pressed) patternKeys = true → pressed ≡ₚ patternKeys.
Proof.
  unfold keysMatch.
  destruct (Nat.eqb_spec (length (sortKeys pressed)) (length patternKeys))
    as [Hlen|]; [|done]. simpl.
  rewrite sameKeys_eq.
  - intros Heq. rewrite <- (sortKeys_perm pressed), Heq. apply sortKeys_perm.
  - rewrite Hlen. symmetry. apply Permutation_length, sortKeys_perm.
Qed.

(** X1: [keysMatch] on the sorted held keys does not depend on the order
    in which either list is written: it answers true exactly when the
    pattern's keys are a rearrangement of the held keys (with the same
    repetitions). *)
Theorem keysMatch_iff_same_keys :
  ∀ pressed patternKeys : list Z,
    keysMatch (sortKeys pressed) patternKeys = true ↔ pressed ≡ₚ patternKeys.
Proof.
  intros pressed patternKeys. split; [apply keysMatch_sound|].
  intros Hperm. unfold keysMatch.
  assert (Heq : sortKeys pressed = sortKeys patternKeys).
  { apply (Sorted_unique Z.le); [apply sortKeys_sorted..|].
    by rewrite !sortKeys_perm. }
  assert (Hlen : length (sortKeys pressed) = length patternKeys).
  { rewrite Heq. apply Permutation_length, sortKeys_perm. }
  rewrite Hlen, Nat.eqb_refl. simpl.
  apply sameKeys_eq; [|done].
  rewrite Hlen. symmetry. apply Permutation_length, sortKeys_perm.
Qed.

Lemma firstMatch_Some keys patterns p :
  firstMatch keys patterns = Some p →
  p ∈ patterns ∧ keysMatch keys (Keys p) = true.
Proof.
  induction patterns as [|q patterns IH]; simpl; [done|].
  destruct (keysMatch keys (Keys q)) eqn:E.
  - intros [= <-]. split; [apply list_elem_of_here | done].
  - intros H. destruct (IH H). split; [by apply list_elem_of_further | done].
Qed.

Lemma checkForHotkeys_event hd meta ev :
  ev ∈ snd (checkForHotkeys hd meta) →
  ∃ p, p ∈ HotkeyPatterns hd
       ∧ ev = patternEvent p meta
       ∧ snd (checkForHotkeys hd meta) = [ev]
       ∧ (2 ≤ length (Keys p))%nat
       ∧ Keys p ≡ₚ heldKeys hd
       ∧ fst (checkForHotkeys hd meta) = clearState hd.
Proof.
  unfold checkForHotkeys.
  destruct (Nat.ltb_spec (size (PressedKeys hd)) 2) as [|Hsz];
    [by intros ?%elem_of_nil|].
  destruct (firstMatch _ _) as [p|] eqn:Hfm; [|by intros ?%elem_of_nil].
  simpl. intros ->%list_elem_of_singleton.
  apply firstMatch_Some in Hfm as [Hin Hm].
  apply keysMatch_sound in Hm. fold (heldKeys hd) in Hm.
  exists p. repeat split; try done.
  rewrite <- Hm. unfold heldKeys.
  by rewrite length_map, length_map_to_list.
Qed.

(** Where an event of one call comes from. *)
Lemma HandleKeyPress_event hd k down now meta ev :
  ev ∈ snd (HandleKeyPress hd k down now meta) →
  snd (HandleKeyPress hd k down now meta) = [ev]
  ∧ down = true
  ∧ isPressed hd k = false
  ∧ PressedKeys (fst (HandleKeyPress hd k down now meta)) = ∅
  ∧ KeyPressOrder (fst (HandleKeyPress hd k down now meta)) = []
  ∧ ∃ p, p ∈ HotkeyPatterns hd
         ∧ ev = patternEvent p meta
         ∧ (2 ≤ length (Keys p))%nat
         ∧ Keys p ≡ₚ map fst (map_to_list (<[k := true]> (PressedKeys hd))).
Proof.
  unfold HandleKeyPress.
  destruct down.
  - destruct (isPressed hd k) eqn:Hp; simpl; [by intros ?%elem_of_nil|].
    intros Hev. apply checkForHotkeys_event in Hev
      as (p & Hin & -> & Hone & Hlen & Hperm & Hst).
    rewrite Hone, Hst. simpl. repeat split; try done.
    exists p. by repeat split.
  - destruct (isPressed hd k); simpl; [|by intros ?%elem_of_nil].
    match goal with |- context [if ?c then _ else _] => destruct c end;
      by intros ?%elem_of_nil.
Qed.

(** X2: a call of [HandleKeyPress] emits at most one event, and only on the
    key-down of a key not yet held.  The event is built from a pattern of
    the detector's table that has at least two keys, and those keys are
    exactly the keys held once the new key is added; the call then leaves
    no key held.  So key-ups never emit, and the single-key patterns of the
    table (F1, F4, F5, F11, PrintScreen) can never fire. *)
Theorem events_come_from_multi_key_patterns :
  ∀ (hd : HotkeyDetector) (k : Z) (down : bool) (now : Time)
    (meta : EventMetadata) (ev : HotkeyEvent),
    ev ∈ snd (HandleKeyPress hd k down now meta) →
    snd (HandleKeyPress hd k down now meta) = [ev]
    ∧ down = true
    ∧ isPressed hd k = false
    ∧ PressedKeys (fst (HandleKeyPress hd k down now meta)) = ∅
    ∧ KeyPressOrder (fst (HandleKeyPress hd k down now meta)) = []
    ∧ ∃ p, p ∈ HotkeyPatterns hd
           ∧ ev = patternEvent p meta
           ∧ (2 ≤ length (Keys p))%nat
           ∧ Keys p ≡ₚ map fst (map_to_list (<[k := true]> (PressedKeys hd))).
Proof. exact HandleKeyPress_event. Qed.

(** X2, witness: Ctrl is held and S goes down. *)
Lemma events_come_from_multi_key_patterns_witness :
  let hd := fst (HandleKeyPress NewHotkeyDetector VK_CONTROL true 1000
                                (mkEventMetadata None 0)) in
  let ev := mkHotkeyEvent "Ctrl+S" "Save" false (mkEventMetadata None 0) in
  ev ∈ snd (HandleKeyPress hd 0x53 true 2000 (mkEventMetadata None 0))
  ∧ PressedKeys (fst (HandleKeyPress hd 0x53 true 2000 (mkEventMetadata None 0))) = ∅.
Proof.
  intros hd ev.
  assert (Hev : ev ∈ snd (HandleKeyPress hd 0x53 true 2000 (mkEventMetadata None 0))).
  { assert (E : snd (HandleKeyPress hd 0x53 true 2000 (mkEventMetadata None 0)) = [ev])
      by (by vm_compute).
    rewrite E. apply list_elem_of_here. }
  split; [exact Hev|].
  exact (proj1 (proj2 (proj2 (proj2
           (events_come_from_multi_key_patterns hd 0x53 true 2000
              (mkEventMetadata None 0) ev Hev))))).
Defined.

(** No call changes the pattern table. *)
Lemma HandleKeyPress_patterns hd k down now meta :
  HotkeyPatterns (fst (HandleKeyPress hd k down now meta)) = HotkeyPatterns hd.
Proof.
  unfold HandleKeyPress, checkForHotkeys.
  repeat match goal with
  | |- context [if ?c then _ else _] => destruct c; simpl
  | |- context [match ?c with Some _ => _ | None => _ end] => destruct c; simpl
  end; done.
Qed.

(** Every event of a run is built from a multi-key pattern of the table. *)
Lemma run_event calls : ∀ hd ev,
  ev ∈ snd (run hd calls) →
  ∃ p, p ∈ HotkeyPatterns hd
       ∧ Combination ev = PatCombination p
       ∧ Action ev = PatAction p
       ∧ (2 ≤ length (Keys p))%nat.
Proof.
  induction calls as [|c calls IH]; intros hd ev; simpl;
    [by intros ?%elem_of_nil|].
  pose proof (HandleKeyPress_patterns hd (keyCode c) (isKeyDown c)
                (at_time c) (with_meta c)) as Hpat.
  pose proof (HandleKeyPress_event hd (keyCode c) (isKeyDown c)
                (at_time c) (with_meta c) ev) as Hone.
  destruct (HandleKeyPress _ _ _ _ _) as [hd1 ev1]. simpl in *.
  specialize (IH hd1 ev). destruct (run hd1 calls) as [hd2 ev2]. simpl in *.
  intros [Hin|Hin]%elem_of_app.
  - destruct (Hone Hin) as (_ & _ & _ & _ & _ & p & Hp & -> & Hlen & _).
    exists p. by repeat split.
  - destruct (IH Hin) as (p & Hp & ?). exists p. by rewrite <- Hpat.
Qed.

End HotkeyMatching.

(** * Byte strings: slices *)

Module Bytes.

(** The first [n] bytes of [s] (all of [s] when it is shorter). *)
Fixpoint takeBytes (n : nat) (s : string) : string :=
  match n, s with
  | S k, String c rest => String c (takeBytes k rest)
  | _, _ => EmptyString
  end.

(** The slice [s[:n]] of Go: a run-time panic, here [None], when [n] is
    negative or beyond the length of [s]. *)
Definition sliceTo (s : string) (n : Z) : option string :=
  if (n <? 0) || (Z.of_nat (String.length s) <? n) then None
  else Some (takeBytes (Z.to_nat n) s).

Lemma length_append (a b : string) :
  String.length (String.append a b) = (String.length a + String.length b)%nat.
Proof. induction a as [|c a IH]; simpl; [done | by rewrite IH]. Qed.

Lemma length_takeBytes n : ∀ s,
  String.length (takeBytes n s) = Nat.min n (String.length s).
Proof.
  induction n as [|n IH]; intros [|c s]; simpl; try done. by rewrite IH.
Qed.

Lemma takeBytes_prefix n : ∀ s, String.prefix (takeBytes n s) s = true.
Proof.
  induction n as [|n IH]; intros [|c s]; simpl; try done.
  rewrite IH. by destruct (Ascii.ascii_dec c c).
Qed.

Lemma sliceTo_Some s n :
  0 <= n <= Z.of_nat (String.length s) →
  sliceTo s n = Some (takeBytes (Z.to_nat n) s).
Proof.
  intros H. unfold sliceTo.
  destruct (Z.ltb_spec n 0); [lia|].
  destruct (Z.ltb_spec (Z.of_nat (String.length s)) n); [lia | done].
Qed.

End Bytes.

(** * More on the text selection tracker *)

Module TextSelectionMore.
Import TextSelection Bytes.

(** ** Definitions *)

Definition selectionHotkeys : list string :=
  [ "Ctrl+A";
    "Ctrl+Shift+Left"; "Ctrl+Shift+Right";
    "Shift+Left"; "Shift+Right";
    "Shift+Up"; "Shift+Down";
    "Shift+Home"; "Shift+End";
    "Ctrl+Shift+Home"; "Ctrl+Shift+End" ].

Definition isSelectionHotkey (combination : string) : bool :=
  existsb (String.eqb combination) selectionHotkeys.

(** [HandleKeyboardShortcut]: the events the function scheduled with
    [time.AfterFunc] hands to the callback when it runs, for a content
    source answering [selectedText] and a pointer at [currentPos]. *)
Definition HandleKeyboardShortcutWith (selectedText : string)
    (combination : string) (currentPos : Position) (meta : EventMetadata)
  : list TextSelectionEvent :=
  if negb (isSelectionHotkey combination) then []
  else if (selectedText =? "")%string then []
  else [mkTextSelectionEvent selectedText currentPos currentPos
          SelectionKeyboardShortcut
          (uint32 (Z.of_nat (String.length selectedText))) meta].

(** [truncateString]; [None] stands for the panic of an out-of-range
    slice. *)
Definition truncateString (s : string) (maxLen : Z) : option string :=
  if Z.of_nat (String.length s) <=? maxLen then Some s
  else (fun head => String.append head "...") <$> sliceTo s maxLen.

(** One primary-button press: where, the clock reading that is stored and
    the later reading inside [isCloseClick]. *)
Record Press := mkPress { at_pos : Position; stored : Time; read : Time }.

Definition press (tst : TextSelectionTracker) (pr : Press) : TextSelectionTracker :=
  HandleMouseDown tst (at_pos pr) MouseButtonLeft (stored pr) (read pr).

(** Each press of [rest] comes within 500 ms and 5 px of the one before
    it, starting from [prev]. *)
Fixpoint closeChain (prev : Press) (rest : list Press) : Prop :=
  match rest with
  | [] => True
  | pr :: rest' =>
      Since (read pr) (stored prev) <= 500 * Millisecond
      ∧ root_leb (calculateDistance (at_pos prev) (at_pos pr)) 5 = true
      ∧ closeChain pr rest'
  end.

(** ** Facts *)

Lemma int64_small x : - 2 ^ 63 <= x < 2 ^ 63 → int64 x = x.
Proof.
  intros H. unfold int64, wrapS.
  change (2 ^ (64 - 1)) with 9223372036854775808.
  change (2 ^ 64) with 18446744073709551616.
  change (2 ^ 63) with 9223372036854775808 in H.
  rewrite Z.mod_small; lia.
Qed.

Lemma press_state tst pr :
  LastClickTime (press tst pr) = stored pr
  ∧ LastClickPos (press tst pr) = at_pos pr
  ∧ ClickCount (press tst pr)
    = if isCloseClick tst (at_pos pr) (read pr)
      then int64 (ClickCount tst + 1) else 1.
Proof. done. Qed.

Lemma closeChain_count rest : ∀ prev tst,
  LastClickTime tst = stored prev →
  LastClickPos tst = at_pos prev →
  closeChain prev rest →
  0 <= ClickCount tst →
  ClickCount tst + Z.of_nat (length rest) < 2 ^ 63 →
  ClickCount (foldl press tst rest) = ClickCount tst + Z.of_nat (length rest).
Proof.
  induction rest as [|pr rest IH]; intros prev tst Ht Hp Hchain Hc Hmax; simpl.
  - lia.
  - destruct Hchain as (Hsoon & Hnear & Hchain).
    destruct (press_state tst pr) as (Ht' & Hp' & Hc').
    assert (Hclose : isCloseClick tst (at_pos pr) (read pr) = true).
    { unfold isCloseClick. rewrite Ht, Hp, Hnear.
      destruct (Z.ltb_spec (500 * Millisecond) (Since (read pr) (stored prev)));
        [lia | done]. }
    rewrite Hclose in Hc'.
    rewrite int64_small in Hc'
      by (change (2 ^ 63) with 9223372036854775808 in *; simpl in Hmax; lia).
    rewrite (IH pr (press tst pr) Ht' Hp' Hchain); rewrite Hc'; simpl in Hmax; lia.
Qed.

(** X3: click counting.  A primary-button press that is not close to the
    press before it (more than 500 ms later or more than 5 px away) sets
    the click count to 1, whatever it was; each further press that comes
    within 500 ms and 5 px of the press before it adds one.  The count is
    not capped at three: [n] presses in a row leave it at [n]. *)
Theorem close_presses_are_counted :
  ∀ (tst : TextSelectionTracker) (first : Press) (rest : list Press),
    isCloseClick tst (at_pos first) (read first) = false →
    closeChain first rest →
    Z.of_nat (length rest) + 1 < 2 ^ 63 →
    ClickCount (press tst first) = 1
    ∧ ClickCount (foldl press tst (first :: rest)) = 1 + Z.of_nat (length rest).
Proof.
  intros tst first rest Hfar Hchain Hmax.
  destruct (press_state tst first) as (Ht & Hp & Hc). rewrite Hfar in Hc.
  split; [done|]. simpl.
  rewrite (closeChain_count rest first (press tst first) Ht Hp Hchain); lia.
Qed.

(** X3, witness: four clicks on one spot, 100 ms apart, on a new tracker. *)
Lemma close_presses_are_counted_witness :
  let at_ms (ms : Z) := mkPress (mkPosition 100 100) (ms * Millisecond)
                                (ms * Millisecond + 1) in
  let first := at_ms 1000 in
  let rest := [at_ms 1100; at_ms 1200; at_ms 1300] in
  (isCloseClick NewTextSelectionTracker (at_pos first) (read first) = false
   ∧ closeChain first rest
   ∧ Z.of_nat (length rest) + 1 < 2 ^ 63)
  ∧ ClickCount (foldl press NewTextSelectionTracker (first :: rest)) = 4.
Proof.
  intros at_ms first rest.
  assert (H1 : isCloseClick NewTextSelectionTracker (at_pos first) (read first) = false)
    by reflexivity.
  assert (H2 : closeChain first rest).
  { repeat split; vm_compute; congruence. }
  assert (H3 : Z.of_nat (length rest) + 1 < 2 ^ 63) by (by vm_compute).
  split; [auto|].
  exact (proj2 (close_presses_are_counted NewTextSelectionTracker first rest H1 H2 H3)).
Defined.

(** X4: a release emits at most one event.  It is ignored, state and all,
    when the button is not the primary one or when no selection is in
    progress; a primary-button release ends the selection, so that any
    further release, before a new press, changes nothing and emits
    nothing. *)
Theorem release_ends_the_selection :
  ∀ (text : string) (tst : TextSelectionTracker) (p : Position)
    (button : MouseButton) (meta : EventMetadata),
    let res := HandleMouseUpWith text tst p button meta in
    (length (snd res) ≤ 1)%nat
    ∧ (button ≠ MouseButtonLeft → res = (tst, []))
    ∧ (IsSelecting tst = false → res = (tst, []))
    ∧ (button = MouseButtonLeft →
       IsSelecting (fst res) = false
       ∧ ∀ text' p' button' meta',
           HandleMouseUpWith text' (fst res) p' button' meta' = (fst res, [])).
Proof.
  intros text tst p button meta res.
  assert (Hidle : ∀ t text' p' button' meta',
            IsSelecting t = false →
            HandleMouseUpWith text' t p' button' meta' = (t, [])).
  { intros t text' p' button' meta' Ht. unfold HandleMouseUpWith.
    rewrite Ht. by destruct (MouseButton_eqb button' MouseButtonLeft). }
  assert (Hres : (length (snd res) ≤ 1)%nat
                 ∧ (button = MouseButtonLeft → IsSelecting (fst res) = false)).
  { unfold res, HandleMouseUpWith.
    destruct button; simpl; try (split; [lia | done]).
    destruct (IsSelecting tst) eqn:Hs; simpl; [|split; [lia | done]].
    repeat match goal with
    | |- context [if ?c then _ else _] => destruct c; simpl
    end; split; (lia || done). }
  destruct Hres as [Hlen Hoff].
  split; [done|]. split; [|split].
  - intros Hb. unfold res, HandleMouseUpWith. by destruct button.
  - intros Hs. by apply Hidle.
  - intros Hb. split; [by apply Hoff|].
    intros text' p' button' meta'. apply Hidle. by apply Hoff.
Qed.

(** X5: [truncateString] returns [s] itself when it has at most [maxLen]
    bytes; a longer [s] is cut to its first [maxLen] bytes followed by
    three dots, so the result has [maxLen + 3] bytes, three more than the
    limit; with a negative [maxLen] the slice panics for every [s]. *)
Theorem truncateString_bounds :
  ∀ (s : string) (maxLen : Z),
    (Z.of_nat (String.length s) <= maxLen → truncateString s maxLen = Some s)
    ∧ (0 <= maxLen < Z.of_nat (String.length s) →
       ∃ r, truncateString s maxLen = Some r
            ∧ r = String.append (takeBytes (Z.to_nat maxLen) s) "..."
            ∧ Z.of_nat (String.length r) = maxLen + 3
            ∧ String.prefix (takeBytes (Z.to_nat maxLen) s) s = true)
    ∧ (maxLen < 0 → truncateString s maxLen = None).
Proof.
  intros s maxLen. unfold truncateString. split; [|split].
  - intros H. by destruct (Z.leb_spec (Z.of_nat (String.length s)) maxLen); [|lia].
  - intros H. destruct (Z.leb_spec (Z.of_nat (String.length s)) maxLen); [lia|].
    rewrite sliceTo_Some by lia. simpl. eexists. split; [done|].
    split; [done|]. split; [|apply takeBytes_prefix].
    rewrite length_append, length_takeBytes. simpl. lia.
  - intros H. destruct (Z.leb_spec (Z.of_nat (String.length s)) maxLen); [lia|].
    unfold sliceTo. by destruct (Z.ltb_spec maxLen 0); [|lia].
Qed.

End TextSelectionMore.

(** * What the detector's events mean to the other trackers

    The recorder's [handleHotkeyEvent] passes the combination of every
    hotkey event to [BrowserTabTracker.HandleHotkey] and to
    [TextSelectionTracker.HandleKeyboardShortcut]. *)

Module HotkeyConsumers.
Import Hotkey HotkeyMatching.

(** The combinations of the table that have at least two keys. *)
Definition emittable : list string :=
  map PatCombination
      (List.filter (fun p => (2 <=? length (Keys p))%nat) initializeHotkeyPatterns).

Lemma run_emittable calls ev :
  ev ∈ snd (run NewHotkeyDetector calls) → Combination ev ∈ emittable.
Proof.
  intros Hev. apply run_event in Hev as (p & Hp & -> & _ & Hlen).
  unfold emittable. apply list_elem_of_In, in_map, filter_In.
  split; [by apply list_elem_of_In|]. by apply Nat.leb_le.
Qed.

(** X6: whatever keys are pressed, the only combination the detector
    emits that the selection tracker takes for a selection shortcut is
    Ctrl+A (its table has no Shift+arrow pattern), and the only ones the
    browser tracker buffers are Ctrl+T, Ctrl+W, Ctrl+Tab, Ctrl+Shift+Tab,
    Ctrl+R, Ctrl+L, Alt+Left and Alt+Right. *)
Theorem hotkeys_reaching_the_other_trackers :
  ∀ (calls : list KeyCall) (ev : HotkeyEvent),
    ev ∈ snd (run NewHotkeyDetector calls) →
    (TextSelectionMore.isSelectionHotkey (Combination ev) = true →
     Combination ev = "Ctrl+A")
    ∧ (∀ text pos meta,
         TextSelectionMore.HandleKeyboardShortcutWith text (Combination ev) pos meta ≠ [] →
         Combination ev = "Ctrl+A")
    ∧ (BrowserTab.isBrowserNavigationHotkey (Combination ev) = true →
       Combination ev ∈ [ "Ctrl+T"; "Ctrl+W"; "Ctrl+Tab"; "Ctrl+Shift+Tab";
                          "Ctrl+R"; "Ctrl+L"; "Alt+Left"; "Alt+Right" ]).
Proof.
  intros calls ev Hev. apply run_emittable in Hev.
  assert (Hsel : TextSelectionMore.isSelectionHotkey (Combination ev) = true →
                 Combination ev = "Ctrl+A").
  { revert Hev. generalize (Combination ev). intros c Hc.
    assert (Hall : forallb (fun c => implb (TextSelectionMore.isSelectionHotkey c)
                                           (String.eqb c "Ctrl+A")) emittable = true)
      by (by vm_compute).
    rewrite forallb_forall in Hall. apply list_elem_of_In, Hall in Hc.
    intros Hs. rewrite Hs in Hc. simpl in Hc. by apply String.eqb_eq. }
  split; [done|]. split.
  - intros text pos meta Hne. apply Hsel.
    unfold TextSelectionMore.HandleKeyboardShortcutWith in Hne.
    by destruct (TextSelectionMore.isSelectionHotkey (Combination ev)).
  - revert Hev. generalize (Combination ev). intros c Hc Hnav.
    assert (Hall : forallb (fun c => implb (BrowserTab.isBrowserNavigationHotkey c)
                       (existsb (String.eqb c)
                          [ "Ctrl+T"; "Ctrl+W"; "Ctrl+Tab"; "Ctrl+Shift+Tab";
                            "Ctrl+R"; "Ctrl+L"; "Alt+Left"; "Alt+Right" ]))
                     emittable = true)
      by (by vm_compute).
    rewrite forallb_forall in Hall. apply list_elem_of_In, Hall in Hc.
    rewrite Hnav in Hc. cbn [implb] in Hc.
    apply existsb_exists in Hc as (x & Hx & ->%String.eqb_eq).
    by apply list_elem_of_In.
Qed.

(** X6, witness: Ctrl+A is pressed. *)
Lemma hotkeys_reaching_the_other_trackers_witness :
  let calls := [ mkKeyCall VK_CONTROL true 1000 (mkEventMetadata None 0);
                 mkKeyCall 0x41 true 2000 (mkEventMetadata None 0) ] in
  let ev := mkHotkeyEvent "Ctrl+A" "Select All" false (mkEventMetadata None 0) in
  ev ∈ snd (run NewHotkeyDetector calls)
  ∧ (TextSelectionMore.isSelectionHotkey (Combination ev) = true →
     Combination ev = "Ctrl+A").
Proof.
  intros calls ev.
  assert (Hev : ev ∈ snd (run NewHotkeyDetector calls)).
  { assert (E : snd (run NewHotkeyDetector calls) = [ev]) by (by vm_compute).
    rewrite E. apply list_elem_of_here. }
  split; [exact Hev|].
  exact (proj1 (hotkeys_reaching_the_other_trackers calls ev Hev)).
Defined.

End HotkeyConsumers.

(** * More on the drag and drop tracker *)

Module DragDropMore.
Import DragDrop.

(** ** Definitions *)

(** [GetCurrentDragInfo]; [now] is the clock reading behind [time.Since]. *)
Definition GetCurrentDragInfo (ddt : DragDropTracker) (now : Time)
  : bool * Position * Position * Duration :=
  (IsDragging ddt, DragStartPos ddt, LastDragPos ddt,
   Since now (DragStartTime ddt)).

(** Some position of [moves] is at least the minimum distance away from
    the start of the drag. *)
Definition reaches (ddt : DragDropTracker) (moves : list Position) : Prop :=
  Exists (fun q => root_geb (calculateDistance (DragStartPos ddt) q)
                            (MinDragDistance ddt) = true) moves.

(** ** Facts *)

Lemma HandleMouseMove_pending ddt q :
  IsZero (DragStartTime ddt) = false →
  let ddt' := HandleMouseMove ddt q in
  DragStartPos ddt' = DragStartPos ddt
  ∧ DragStartTime ddt' = DragStartTime ddt
  ∧ DragStartElement ddt' = DragStartElement ddt
  ∧ MinDragDistance ddt' = MinDragDistance ddt
  ∧ LastDragPos ddt' = q
  ∧ IsDragging ddt'
    = IsDragging ddt
      || root_geb (calculateDistance (DragStartPos ddt) q) (MinDragDistance ddt).
Proof.
  intros Hz. unfold HandleMouseMove. rewrite Hz. simpl.
  repeat split. by destruct (IsDragging ddt), (root_geb _ _).
Qed.

Lemma last_nonempty {A} (x : A) (l : list A) (d d' : A) :
  List.last (x :: l) d = List.last (x :: l) d'.
Proof.
  revert x. induction l as [|y l IH]; intros x; [done|].
  change (List.last (y :: l) d = List.last (y :: l) d'). apply IH.
Qed.

Lemma moves_pending moves : ∀ ddt,
  IsZero (DragStartTime ddt) = false →
  DragStartPos (foldl HandleMouseMove ddt moves) = DragStartPos ddt
  ∧ DragStartTime (foldl HandleMouseMove ddt moves) = DragStartTime ddt
  ∧ DragStartElement (foldl HandleMouseMove ddt moves) = DragStartElement ddt
  ∧ MinDragDistance (foldl HandleMouseMove ddt moves) = MinDragDistance ddt
  ∧ LastDragPos (foldl HandleMouseMove ddt moves)
    = List.last moves (LastDragPos ddt)
  ∧ (IsDragging (foldl HandleMouseMove ddt moves) = true
     ↔ IsDragging ddt = true ∨ reaches ddt moves).
Proof.
  induction moves as [|q moves IH]; intros ddt Hz.
  - simpl. repeat split; [by left | intros [?|H]; [done | inversion H]].
  - destruct (HandleMouseMove_pending ddt q Hz) as (Hp & Ht & He & Hm & Hl & Hd).
    assert (Hz' : IsZero (DragStartTime (HandleMouseMove ddt q)) = false)
      by (by rewrite Ht).
    destruct (IH (HandleMouseMove ddt q) Hz')
      as (Hp' & Ht' & He' & Hm' & Hlast & Hiff).
    change (foldl HandleMouseMove ddt (q :: moves))
      with (foldl HandleMouseMove (HandleMouseMove ddt q) moves).
    rewrite Hp', Ht', He', Hm', Hp, Ht, He, Hm, Hlast, Hl, Hiff, Hd, orb_true_iff.
    unfold reaches. rewrite Hp, Hm.
    split; [done|]. split; [done|]. split; [done|]. split; [done|]. split.
    + destruct moves as [|q' moves]; [done | exact (last_nonempty q' moves _ _)].
    + rewrite Exists_cons. tauto.
Qed.

(** X7: after a primary-button press at [p0], pointer moves never change
    the recorded start (position, time, element); the last move is the
    last tracked position; and the drag is confirmed exactly when some
    move was at least [MinDragDistance] away from [p0], however close the
    pointer comes back afterwards.  While the drag is unconfirmed a
    release emits nothing, wherever it happens. *)
Theorem drag_confirmed_iff_some_move_reaches :
  ∀ (ddt0 : DragDropTracker) (p0 : Position) (element : option UIElement)
    (now : Time) (moves : list Position),
    now ≠ zeroTime →
    let pressed := HandleMouseDown ddt0 p0 MouseButtonLeft element now in
    let ddt := foldl HandleMouseMove pressed moves in
    DragStartPos ddt = p0
    ∧ DragStartTime ddt = now
    ∧ DragStartElement ddt = element
    ∧ LastDragPos ddt = List.last moves p0
    ∧ (IsDragging ddt = true ↔
       Exists (fun q => root_geb (calculateDistance p0 q) (MinDragDistance ddt0) = true)
              moves)
    ∧ (IsDragging ddt = false →
       ∀ p target now' clipboard meta,
         snd (HandleMouseUp ddt p MouseButtonLeft target now' clipboard meta) = []).
Proof.
  intros ddt0 p0 element now moves Hnow pressed ddt.
  assert (Hz : IsZero (DragStartTime pressed) = false).
  { simpl. unfold IsZero. by apply Z.eqb_neq. }
  destruct (moves_pending moves pressed Hz) as (Hp & Ht & He & Hm & Hl & Hiff).
  fold ddt in Hp, Ht, He, Hm, Hl, Hiff.
  split; [done|]. split; [done|]. split; [done|]. split; [done|]. split.
  - rewrite Hiff. unfold reaches. simpl. split; [|by right].
    intros [?|?]; done.
  - intros Hoff p target now' clipboard meta. unfold HandleMouseUp.
    by rewrite Hoff.
Qed.

(** X7, witness: a press at (0,0), a move to (3,0) and a move to (0,12). *)
Lemma drag_confirmed_iff_some_move_reaches_witness :
  let ddt := foldl HandleMouseMove
               (HandleMouseDown NewDragDropTracker (mkPosition 0 0)
                                MouseButtonLeft None 1000)
               [mkPosition 3 0; mkPosition 0 12] in
  1000 ≠ zeroTime
  ∧ LastDragPos ddt = mkPosition 0 12
  ∧ DragStartPos ddt = mkPosition 0 0.
Proof.
  intros ddt.
  assert (H : 1000 ≠ zeroTime) by discriminate.
  pose proof (drag_confirmed_iff_some_move_reaches NewDragDropTracker
                (mkPosition 0 0) None 1000 [mkPosition 3 0; mkPosition 0 12] H)
    as (Hp & _ & _ & Hl & _).
  split; [exact H|]. split; [exact Hl | exact Hp].
Defined.

(** X8: the Escape key.  Its key-down during a confirmed drag clears the
    drag state, so the release that follows emits nothing.  While the
    press is still unconfirmed Escape changes nothing: the press stays
    pending and a later move can still turn it into a drag.  Key-ups and
    other keys never change the tracker. *)
Theorem escape_cancels_only_a_confirmed_drag :
  ∀ (ddt : DragDropTracker) (keyCode : Z) (isKeyDown : bool),
    (IsDragging ddt = true →
     HandleKeyPress ddt 0x1B true = clearDragState ddt
     ∧ ∀ moves p target now clipboard meta,
         snd (HandleMouseUp (foldl HandleMouseMove (HandleKeyPress ddt 0x1B true) moves)
                            p MouseButtonLeft target now clipboard meta) = [])
    ∧ (IsDragging ddt = false → HandleKeyPress ddt 0x1B true = ddt)
    ∧ (keyCode ≠ 0x1B ∨ isKeyDown = false → HandleKeyPress ddt keyCode isKeyDown = ddt).
Proof.
  intros ddt keyCode isKeyDown. unfold HandleKeyPress. split; [|split].
  - intros ->. simpl. split; [done|].
    intros moves p target now clipboard meta.
    by rewrite DragDropFacts.HandleMouseMove_cleared.
  - by intros ->.
  - intros [Hk| ->].
    + by destruct (Z.eqb_spec keyCode 27).
    + by rewrite andb_false_r.
Qed.

(** X9: what [getDragContent] can answer.  A non-empty clipboard decides
    alone: the content is the clipboard text and the type is "file" when
    that text holds ":\" or "/", "text" otherwise; the source element is
    not looked at.  In every case the type is one of "file", "text",
    "image", "unknown", and "unknown" comes with empty content. *)
Theorem drag_content_kinds :
  ∀ (ddt : DragDropTracker) (clipboard : string),
    let content := fst (getDragContent ddt clipboard) in
    let dataType := snd (getDragContent ddt clipboard) in
    (clipboard ≠ "" →
     content = clipboard
     ∧ dataType = if Contains clipboard ":\" || Contains clipboard "/"
                  then "file" else "text")
    ∧ dataType ∈ ["file"; "text"; "image"; "unknown"]
    ∧ (dataType = "unknown" → content = "")
    ∧ (clipboard = "" → DragStartElement ddt = None →
       getDragContent ddt clipboard = ("", "unknown")).
Proof.
  intros ddt clipboard. unfold getDragContent.
  destruct (String.eqb_spec clipboard "") as [->|Hne]; simpl.
  - split; [done|].
    destruct (DragStartElement ddt) as [e|]; simpl.
    + repeat match goal with
      | |- context [if ?c then _ else _] => destruct c; simpl
      end; repeat split; try done; set_solver.
    + repeat split; try done; set_solver.
  - destruct (Contains clipboard ":\" || Contains clipboard "/"); simpl;
      repeat split; try done; set_solver.
Qed.

Lemma HandleMouseUp_left_clears ddt p target now clipboard meta :
  fst (HandleMouseUp ddt p MouseButtonLeft target now clipboard meta)
  = clearDragState ddt.
Proof.
  unfold HandleMouseUp. cbn [MouseButton_eqb negb].
  destruct (negb (IsDragging ddt) || IsZero (DragStartTime ddt)); [done|].
  destruct (root_ltb _ _); [done|].
  by destruct (getDragContent ddt clipboard).
Qed.

(** X10: what the status query reports once a primary-button release has
    returned: no drag, zero positions, and a duration counted from the zero
    time, that is the clock reading itself, capped at the largest
    Duration (about 292 years), not zero. *)
Theorem drag_info_after_release :
  ∀ (ddt : DragDropTracker) (p : Position) (target : option UIElement)
    (now : Time) (clipboard : string) (meta : EventMetadata) (later : Time),
    0 <= later →
    GetCurrentDragInfo
      (fst (HandleMouseUp ddt p MouseButtonLeft target now clipboard meta)) later
    = (false, mkPosition 0 0, mkPosition 0 0, Z.min later maxDuration).
Proof.
  intros ddt p target now clipboard meta later Hlater.
  rewrite HandleMouseUp_left_clears. unfold GetCurrentDragInfo. simpl.
  repeat f_equal. unfold Since, Sub, zeroTime, minDuration, maxDuration.
  change (2 ^ 63) with 9223372036854775808. lia.
Qed.

(** X10, witness: asked in the year 2025, some 6.4e19 ns after the zero
    time, the tracker reports the capped duration. *)
Lemma drag_info_after_release_witness :
  0 <= 63900000000000000000
  ∧ GetCurrentDragInfo
      (fst (HandleMouseUp NewDragDropTracker (mkPosition 5 5) MouseButtonLeft None
                          63800000000000000000 "" (mkEventMetadata None 0)))
      63900000000000000000
    = (false, mkPosition 0 0, mkPosition 0 0, maxDuration).
Proof.
  assert (H : 0 <= 63900000000000000000) by (vm_compute; discriminate).
  split; [exact H|].
  exact (drag_info_after_release NewDragDropTracker (mkPosition 5 5) None
           63800000000000000000 "" (mkEventMetadata None 0)
           63900000000000000000 H).
Defined.

End DragDropMore.

(** * More on the rate limiter *)

Module RateLimitMore.
Import RateLimit RateLimitFacts.

#[local] Arguments Allow : simpl never.

(** The room left in the current window. *)
Definition room (rl : RateLimiter) : Z := Z.max 0 (MaxEvents rl - EventCount rl).

Lemma Allow_fields rl now :
  MaxEvents (fst (Allow rl now)) = MaxEvents rl
  ∧ WindowSize (fst (Allow rl now)) = WindowSize rl.
Proof.
  unfold Allow.
  repeat match goal with |- context [if ?c then _ else _] => destruct c; simpl end;
    done.
Qed.

(** One call, whatever the clock reads. *)
Lemma Allow_count rl now :
  0 <= EventCount rl → MaxEvents rl <= 2 ^ 31 - 1 →
  0 <= EventCount (fst (Allow rl now))
  ∧ (EventCount rl <= Z.max 0 (MaxEvents rl) →
     EventCount (fst (Allow rl now)) <= Z.max 0 (MaxEvents rl))
  ∧ (snd (Allow rl now) = true → 0 < MaxEvents rl).
Proof.
  intros Hc Hmax.
  destruct (Z.leb_spec (WindowSize rl) (Sub now (WindowStart rl))) as [Hout|Hin].
  - rewrite (Allow_reset rl now Hout).
    destruct (Z.leb_spec (MaxEvents rl) 0); simpl; repeat split; lia.
  - rewrite (Allow_inside rl now Hin Hc Hmax).
    destruct (Z.leb_spec (MaxEvents rl) (EventCount rl)); simpl;
      repeat split; lia.
Qed.

(** X11: the counter of a limiter made by [NewRateLimiter] never leaves the
    range from 0 to its maximum, whatever the clock readings of the calls
    (they need not even increase); a limiter whose maximum is zero or
    negative refuses every call; the maximum and the window size never
    change. *)
Theorem counter_stays_within_maximum :
  ∀ (maxEvents : Z) (windowSize : Duration) (created : Time) (times : list Time),
    maxEvents <= 2 ^ 31 - 1 →
    let res := allows (NewRateLimiter maxEvents windowSize created) times in
    0 <= EventCount (fst res) <= Z.max 0 maxEvents
    ∧ MaxEvents (fst res) = maxEvents
    ∧ WindowSize (fst res) = windowSize
    ∧ (maxEvents <= 0 → Forall (fun ok => ok = false) (snd res)).
Proof.
  intros maxEvents windowSize created times Hmax.
  assert (Hgen : ∀ times rl,
            0 <= EventCount rl <= Z.max 0 (MaxEvents rl) →
            MaxEvents rl <= 2 ^ 31 - 1 →
            0 <= EventCount (fst (allows rl times)) <= Z.max 0 (MaxEvents rl)
            ∧ MaxEvents (fst (allows rl times)) = MaxEvents rl
            ∧ WindowSize (fst (allows rl times)) = WindowSize rl
            ∧ (MaxEvents rl <= 0 → Forall (fun ok => ok = false) (snd (allows rl times)))).
  { clear. induction times as [|now times IH]; intros rl Hc Hmax; simpl.
    - repeat split; (lia || by constructor).
    - destruct (Allow_fields rl now) as [Hm Hw].
      destruct (Allow_count rl now ltac:(lia) Hmax) as (H0 & Hle & Hok).
      destruct (Allow rl now) as [rl1 ok]. simpl in *.
      assert (Hc1 : 0 <= EventCount rl1 <= Z.max 0 (MaxEvents rl1)).
      { rewrite Hm. split; [done|]. apply Hle. lia. }
      specialize (IH rl1 Hc1 ltac:(lia)).
      destruct (allows rl1 times) as [rl2 oks]. simpl in *.
      destruct IH as (Hr & Hm2 & Hw2 & Hnone).
      rewrite Hm in *. rewrite Hw in *.
      repeat split; try lia.
      intros Hneg. constructor; [|by apply Hnone].
      destruct ok; [|done]. specialize (Hok eq_refl). lia. }
  apply (Hgen times (NewRateLimiter maxEvents windowSize created)); simpl; lia.
Qed.

(** X11, witness: a limiter for 3 events per second asked five times. *)
Lemma counter_stays_within_maximum_witness :
  let res := allows (NewRateLimiter 3 Second 0) [10; 20; 30; 40; 2000000000] in
  3 <= 2 ^ 31 - 1
  ∧ 0 <= EventCount (fst res) <= Z.max 0 3.
Proof.
  intros res.
  assert (H : 3 <= 2 ^ 31 - 1) by (vm_compute; discriminate).
  split; [exact H|].
  exact (proj1 (counter_stays_within_maximum 3 Second 0
                  [10; 20; 30; 40; 2000000000] H)).
Defined.

(** The clock readings of [times] lie less than [span] apart. *)
Definition within (span : Duration) (times : list Time) : Prop :=
  ∀ t u, t ∈ times → u ∈ times → t - u < span.

Lemma Sub_lt t u span : t - u < span → 0 < span → Sub t u < span.
Proof.
  unfold Sub, minDuration, maxDuration.
  change (2 ^ 63) with 9223372036854775808. lia.
Qed.

(** Calls that trigger no restart use up the room of the window. *)
Lemma allowed_inside times rl :
  0 <= EventCount rl → MaxEvents rl <= 2 ^ 31 - 1 →
  Forall (inside rl) times →
  Z.of_nat (allowed (snd (allows rl times))) <= room rl.
Proof.
  intros Hc Hmax Hin.
  destruct (allows_inside times rl Hc Hmax Hin) as (_ & _ & _ & _ & Hcount & Hle).
  unfold room. lia.
Qed.

Lemma burst_bound times : ∀ rl,
  0 <= EventCount rl → MaxEvents rl <= 2 ^ 31 - 1 →
  within (WindowSize rl) times →
  Z.of_nat (allowed (snd (allows rl times))) <= room rl + Z.max 0 (MaxEvents rl).
Proof.
  induction times as [|now times IH]; intros rl Hc Hmax Hspan; simpl.
  - unfold room. lia.
  - assert (Hpos : 0 < WindowSize rl).
    { specialize (Hspan now now (list_elem_of_here _ _) (list_elem_of_here _ _)). lia. }
    assert (Hrest : within (WindowSize rl) times).
    { intros t u Ht Hu. apply Hspan; by apply list_elem_of_further. }
    destruct (Z.leb_spec (WindowSize rl) (Sub now (WindowStart rl))) as [Hout|Hin].
    + (* this call restarts the window: the rest falls inside it *)
      rewrite (Allow_reset rl now Hout).
      destruct (Z.leb_spec (MaxEvents rl) 0) as [Hnone|Hsome].
      * set (rl1 := mkRateLimiter _ _ 0 now).
        assert (Hins : Forall (inside rl1) times).
        { apply Forall_forall. intros t Ht. unfold inside. simpl.
          apply Sub_lt; [|done].
          apply Hspan; [by apply list_elem_of_further | apply list_elem_of_here]. }
        pose proof (allowed_inside times rl1 ltac:(simpl; lia) Hmax Hins) as H.
        destruct (allows rl1 times) as [rl2 oks]. simpl in *.
        unfold room in *. simpl in *. lia.
      * set (rl1 := mkRateLimiter _ _ 1 now).
        assert (Hins : Forall (inside rl1) times).
        { apply Forall_forall. intros t Ht. unfold inside. simpl.
          apply Sub_lt; [|done].
          apply Hspan; [by apply list_elem_of_further | apply list_elem_of_here]. }
        pose proof (allowed_inside times rl1 ltac:(simpl; lia) Hmax Hins) as H.
        destruct (allows rl1 times) as [rl2 oks]. simpl in *.
        unfold room in *. simpl in *. lia.
    + rewrite (Allow_inside rl now Hin Hc Hmax).
      destruct (Z.leb_spec (MaxEvents rl) (EventCount rl)) as [Hfull|Hroom].
      * specialize (IH rl Hc Hmax Hrest).
        destruct (allows rl times) as [rl2 oks]. simpl in *. lia.
      * set (rl1 := mkRateLimiter _ _ (EventCount rl + 1) _).
        specialize (IH rl1 ltac:(simpl; lia) Hmax Hrest).
        destruct (allows rl1 times) as [rl2 oks]. simpl in *.
        unfold room in *. simpl in *. lia.
Qed.

(** X12: the burst a fixed window lets through.  Of any calls whose clock
    readings lie less than one window size apart, in whatever state the
    limiter is found, at most twice [MaxEvents] are allowed: what was left
    of the old window and one full new window. *)
Theorem at_most_twice_the_maximum_in_one_span :
  ∀ (rl : RateLimiter) (times : list Time),
    0 <= EventCount rl →
    MaxEvents rl <= 2 ^ 31 - 1 →
    within (WindowSize rl) times →
    Z.of_nat (allowed (snd (allows rl times))) <= 2 * Z.max 0 (MaxEvents rl).
Proof.
  intros rl times Hc Hmax Hspan.
  pose proof (burst_bound times rl Hc Hmax Hspan) as H. unfold room in H. lia.
Qed.

(** X12, witness: two events per second; the limiter was created at 0, two
    calls come just before the first second is over and three just after:
    four of the five are allowed within 0.2 s. *)
Lemma at_most_twice_the_maximum_in_one_span_witness :
  let rl := NewRateLimiter 2 Second 0 in
  let times := [900000000; 950000000; 1000000000; 1050000000; 1100000000] in
  (0 <= EventCount rl
   ∧ MaxEvents rl <= 2 ^ 31 - 1
   ∧ within (WindowSize rl) times)
  ∧ snd (allows rl times) = [true; true; true; true; false]
  ∧ Z.of_nat (allowed (snd (allows rl times))) <= 2 * Z.max 0 (MaxEvents rl).
Proof.
  intros rl times.
  assert (H1 : 0 <= EventCount rl) by (vm_compute; discriminate).
  assert (H2 : MaxEvents rl <= 2 ^ 31 - 1) by (vm_compute; discriminate).
  assert (H3 : within (WindowSize rl) times).
  { intros t u Ht Hu. unfold times in *.
    repeat (apply elem_of_cons in Ht as [->|Ht]);
      try (by apply elem_of_nil in Ht);
      repeat (apply elem_of_cons in Hu as [->|Hu]);
      try (by apply elem_of_nil in Hu); by vm_compute. }
  split; [auto|]. split; [by vm_compute|].
  exact (at_most_twice_the_maximum_in_one_span rl times H1 H2 H3).
Defined.

End RateLimitMore.

(** * Configuration and the recorder's event filter *)

Module Config.
Import RateLimit.

(** ** Definitions *)



Definition Balanced : Z := 1.
Definition LowEnergy : Z := 2.

Record PerformanceSettings := mkSettings {
  SetEventProcessingDelayMs : Z;
  SetMaxEventsPerSecond : option Z;
  SetFilterMouseNoise : bool;
  SetFilterKeyboardNoise : bool;
  SetReduceUIElementCapture : bool;
  SetMouseMoveThrottleMs : Z;
  SetScreenshotThrottleMs : Z;
  SetClipboardCheckThrottleMs : Z
}.

Definition GetPerformanceSettings (mode : Z) : PerformanceSettings :=
  if mode =? LowEnergy then
    mkSettings 100 (Some 5) true true true 500 5000 1000
  else if mode =? Balanced then
    mkSettings 50 (Some 20) true false false 200 2000 500
  else
    mkSettings 10 None false false false 100 1000 200.

(** The fields of [WorkflowRecorderConfig] that the functions below read.
    [MinDragDistance] is a float64 holding a whole number. *)
Record WorkflowRecorderConfig := mkBaseConfig {
  CaptureScreenshots : bool;
  ScreenshotFormat : string;
  ScreenshotJPEGQuality : Z;
  MouseMoveThrottleMs : Z;
  MinDragDistance : Z
}.

(** [EnhancedWorkflowRecorderConfig]; a nil override is [None]. *)
Record EnhancedWorkflowRecorderConfig := mkEnhancedConfig {
  Base : WorkflowRecorderConfig;
  PerformanceMode : Z;
  EventProcessingDelayMs : option Z;
  MaxEventsPerSecond : option Z;
  FilterMouseNoise : option bool;
  FilterKeyboardNoise : option bool;
  ReduceUIElementCapture : option bool;
  EnableMultithreading : bool;
  ScreenshotThrottleMs : option Z;
  ClipboardCheckThrottleMs : option Z
}.

Definition GetEffectiveSettings (c : EnhancedWorkflowRecorderConfig)
  : PerformanceSettings :=
  let settings := GetPerformanceSettings (PerformanceMode c) in
  mkSettings
    (default (SetEventProcessingDelayMs settings) (EventProcessingDelayMs c))
    (match MaxEventsPerSecond c with
     | Some v => Some v
     | None => SetMaxEventsPerSecond settings
     end)
    (default (SetFilterMouseNoise settings) (FilterMouseNoise c))
    (default (SetFilterKeyboardNoise settings) (FilterKeyboardNoise c))
    (default (SetReduceUIElementCapture settings) (ReduceUIElementCapture c))
    (MouseMoveThrottleMs (Base c))
    (default (SetScreenshotThrottleMs settings) (ScreenshotThrottleMs c))
    (default (SetClipboardCheckThrottleMs settings) (ClipboardCheckThrottleMs c)).





Inductive MouseEventType :=
  | MouseClick | MouseDoubleClick | MouseRightClick | MouseDown | MouseUp
  | MouseMove | MouseWheel | MouseDrag | MouseDragStart | MouseDragEnd | MouseDrop.

(** [MouseEvent] and [KeyboardEvent]; the scroll delta and the modifier
    states are not read here and are left out. *)
Record MouseEvent := mkMouseEvent {
  EventType : MouseEventType;
  Button : MouseButton;
  MousePosition : Position;
  MouseMetadata : EventMetadata
}.

Record KeyboardEvent := mkKeyboardEvent {
  KeyCode : Z;
  IsKeyDown : bool;
  Character : option string;
  KeyMetadata : EventMetadata
}.

(** What an [interface{}] argument holds: a [MouseEvent] or a
    [KeyboardEvent], each either as a struct value or behind a pointer, or
    a value of any other type.  A type switch tells the two apart. *)
Inductive Dynamic :=
  | MouseEventValue (e : MouseEvent)
  | MouseEventPointer (e : MouseEvent)
  | KeyboardEventValue (e : KeyboardEvent)
  | KeyboardEventPointer (e : KeyboardEvent)
  | OtherValue.

(** [ShouldFilterEvent]: its type switch has the cases [*MouseEvent] and
    [*KeyboardEvent]. *)
Definition ShouldFilterEvent (c : EnhancedWorkflowRecorderConfig) (event : Dynamic)
  : bool :=
  let settings := GetEffectiveSettings c in
  match event with
  | MouseEventPointer e =>
      if SetFilterMouseNoise settings then
        match EventType e with
        | MouseMove | MouseWheel => true
        | _ => false
        end
      else false
  | KeyboardEventPointer e =>
      if SetFilterKeyboardNoise settings then
        if IsKeyDown e || match Character e with None => true | Some _ => false end
        then true else false
      else false
  | _ => false
  end.

(** The part of [EnhancedWorkflowRecorder] that [shouldRecordEvent] uses;
    [FilteredEventCount] is an int64. *)
Record Recorder := mkRecorder {
  RecConfig : EnhancedWorkflowRecorderConfig;
  Limiter : option RateLimiter;
  FilteredEventCount : Z
}.

(** [shouldRecordEvent]; [now] is the clock reading of [Allow]. *)
Definition shouldRecordEvent (ewr : Recorder) (event : Dynamic) (now : Time)
  : Recorder * bool :=
  let '(limiter, allowed) :=
    match Limiter ewr with
    | Some rl => let '(rl', ok) := Allow rl now in (Some rl', ok)
    | None => (None, true)
    end in
  if negb allowed
  then (mkRecorder (RecConfig ewr) limiter (int64 (FilteredEventCount ewr + 1)), false)
  else if ShouldFilterEvent (RecConfig ewr) event
  then (mkRecorder (RecConfig ewr) limiter (int64 (FilteredEventCount ewr + 1)), false)
  else (mkRecorder (RecConfig ewr) limiter (FilteredEventCount ewr), true).

(** ** Facts *)



(** X14: the recorder's handlers build their events as struct values
    ([MouseEvent{...}], [KeyboardEvent{...}]) and pass them on as such,
    while the type switch of [ShouldFilterEvent] only has pointer cases.
    For an event passed by value the answer of [shouldRecordEvent] is
    therefore the limiter's alone: true without a limiter, the answer of
    [Allow] with one.  The noise filters of the configuration have no
    part in it, and the filtered count goes up exactly on a refusal. *)
Theorem events_by_value_pass_the_noise_filter :
  ∀ (ewr : Recorder) (event : Dynamic) (now : Time),
    (∀ e, event ≠ MouseEventPointer e) →
    (∀ e, event ≠ KeyboardEventPointer e) →
    ShouldFilterEvent (RecConfig ewr) event = false
    ∧ snd (shouldRecordEvent ewr event now)
      = match Limiter ewr with
        | Some rl => snd (Allow rl now)
        | None => true
        end
    ∧ FilteredEventCount (fst (shouldRecordEvent ewr event now))
      = (if snd (shouldRecordEvent ewr event now)
         then FilteredEventCount ewr
         else int64 (FilteredEventCount ewr + 1))
    ∧ Limiter (fst (shouldRecordEvent ewr event now))
      = (fun rl => fst (Allow rl now)) <$> Limiter ewr.
Proof.
  intros ewr event now Hm Hk.
  assert (Hf : ShouldFilterEvent (RecConfig ewr) event = false).
  { unfold ShouldFilterEvent. destruct event as [e|e|e|e|]; try done.
    - by destruct (Hm e).
    - by destruct (Hk e). }
  split; [done|]. unfold shouldRecordEvent. rewrite Hf.
  destruct (Limiter ewr) as [rl|]; simpl; [|done].
  destruct (Allow rl now) as [rl' ok]. by destruct ok.
Qed.

(** X14, witness: a mouse move, passed by value, in LowEnergy mode, whose
    settings ask for mouse noise to be filtered, with no limiter: kept. *)
Lemma events_by_value_pass_the_noise_filter_witness :
  let c := mkEnhancedConfig (mkBaseConfig false "png" 85 100 5) LowEnergy
             None None None None None false None None in
  let move := MouseEventValue
                (mkMouseEvent MouseMove MouseButtonNone (mkPosition 1 2)
                              (mkEventMetadata None 0)) in
  SetFilterMouseNoise (GetEffectiveSettings c) = true
  ∧ snd (shouldRecordEvent (mkRecorder c None 0) move 1000) = true.
Proof.
  intros c move. split; [reflexivity|].
  exact (proj1 (proj2 (events_by_value_pass_the_noise_filter
                         (mkRecorder c None 0) move 1000
                         ltac:(discriminate) ltac:(discriminate)))).
Defined.

End Config.

(** * More on the text input manager *)

Module TextInputMore.
Import TextInput.

#[local] Arguments completeTextInputInternalWith : simpl never.
#[local] Arguments getElementKey : simpl never.

(** ** Definitions *)

(** [isElementFocused] as the source has it: a placeholder answering true. *)
Definition isElementFocused (element : option UIElement) : bool := true.

(** [isLikelyPasted]; [now'] is the clock reading behind [time.Since]. *)
Definition isLikelyPasted (keyCode : Z) (char : string)
    (tracker : TextInputTracker) (now' : Time) : bool :=
  if keyCode =? 0x56 then true
  else if (Since now' (LastKeystroke tracker) <? 50 * Millisecond)
          && (1 <? String.length char)%nat
  then true
  else false.

Definition isLikelySuggestion (keyCode : Z) (char : string)
    (tracker : TextInputTracker) : bool :=
  if (keyCode =? 0x09) || (keyCode =? 0x0D) then 0 <? KeystrokeCount tracker
  else if (keyCode =? 0x0D) && (2 <? KeystrokeCount tracker) then true
  else false.

Definition isTyped (m : TextInputMethod) : bool :=
  match m with TextInputTyped => true | _ => false end.

(** The body of the loop of [HandleKeystroke] for the session it updates:
    [now] is the reading of [time.Now()] stored in [LastKeystroke], [now']
    the later reading inside [isLikelyPasted].  [KeystrokeCount] is a
    uint32. *)
Definition keystroke (tracker : TextInputTracker) (keyCode : Z) (char : string)
    (now now' : Time) : TextInputTracker :=
  let counted :=
    mkTracker (Element tracker) (StartTime tracker) now
              (uint32 (KeystrokeCount tracker + 1)) (InitialText tracker)
              (CurrentText tracker) (InputMethod tracker) in
  let method :=
    if KeystrokeCount counted =? 1 then TextInputTyped
    else if isLikelyPasted keyCode char counted now' then TextInputPasted
    else if isTyped (InputMethod counted) && isLikelySuggestion keyCode char counted
    then TextInputSuggestion
    else InputMethod counted in
  mkTracker (Element counted) (StartTime counted) (LastKeystroke counted)
            (KeystrokeCount counted) (InitialText counted) (CurrentText counted)
            method.

(** [HandleKeystroke].  The loop updates the first session it visits for
    which [isElementFocused] holds, that is the first it visits, and Go
    leaves open which one that is when several are active; [first] is the
    key of that session.  The loop visits nothing only when no session is
    active; a [first] that has no session is read as that case. *)
Definition HandleKeystroke (tim : TextInputManager) (first : string)
    (keyCode : Z) (char : string) (now now' : Time) : TextInputManager :=
  match ActiveInputs tim !! first with
  | Some tracker =>
      if isElementFocused (Element tracker)
      then mkManager (<[first := keystroke tracker keyCode char now now']>
                        (ActiveInputs tim))
                     (CompletionTimeout tim)
      else tim
  | None => tim
  end.

(** One call of an entry point, with what it reads from outside. *)
Inductive Call :=
  | Start (element : option UIElement) (readText : option UIElement -> string)
          (r : Reading) (t0 t1 : Time)
  | Keystroke (first : string) (keyCode : Z) (char : string) (now now' : Time)
  | Complete (elementKey reason : string) (readText : option UIElement -> string)
             (r : Reading)
  | CompleteAll (readText : option UIElement -> string) (rs : string -> Reading).

Definition step (tim : TextInputManager) (c : Call)
  : TextInputManager * list TextInputCompletedEvent :=
  match c with
  | Start element readText r t0 t1 => StartTextInputWith readText tim element r t0 t1
  | Keystroke first keyCode char now now' =>
      (HandleKeystroke tim first keyCode char now now', [])
  | Complete elementKey reason readText r =>
      CompleteTextInputWith readText tim elementKey reason r
  | CompleteAll readText rs => CompleteAllActiveInputsWith readText tim rs
  end.

Fixpoint run (tim : TextInputManager) (calls : list Call)
  : TextInputManager * list TextInputCompletedEvent :=
  match calls with
  | [] => (tim, [])
  | c :: rest =>
      let '(tim1, ev1) := step tim c in
      let '(tim2, ev2) := run tim1 rest in
      (tim2, ev1 ++ ev2)
  end.




(** The string holds no byte "|". *)
Definition barFree (s : string) : Prop := Contains s "|" = false.

(** ** Facts *)

(** X15: how a keystroke sets the input method, when the two clock
    readings of the call are less than 50 ms apart (they are taken a few
    instructions apart).  The keystroke that brings the count to 1 makes
    the method Typed, whatever the key.  Any other keystroke makes it
    Pasted when the key code is 0x56 (V, with or without Ctrl) or the
    character has more than one byte; the time since the previous
    keystroke plays no part, since [LastKeystroke] has just been set.
    Otherwise Tab or Enter turn Typed into Suggestion, and nothing else
    changes the method. *)
Theorem keystroke_sets_the_method :
  ∀ (tracker : TextInputTracker) (keyCode : Z) (char : string) (now now' : Time),
    Since now' now < 50 * Millisecond →
    let t' := keystroke tracker keyCode char now now' in
    KeystrokeCount t' = uint32 (KeystrokeCount tracker + 1)
    ∧ LastKeystroke t' = now
    ∧ Element t' = Element tracker
    ∧ InitialText t' = InitialText tracker
    ∧ (KeystrokeCount t' = 1 → InputMethod t' = TextInputTyped)
    ∧ (KeystrokeCount t' ≠ 1 →
       InputMethod t'
       = if (keyCode =? 0x56) || (1 <? String.length char)%nat
         then TextInputPasted
         else if isTyped (InputMethod tracker)
                 && ((keyCode =? 0x09) || (keyCode =? 0x0D))
                 && (0 <? KeystrokeCount t')
         then TextInputSuggestion
         else InputMethod tracker).
Proof.
  intros tracker keyCode char now now' Hsoon t'.
  repeat split.
  - intros H1. unfold t', keystroke. simpl in *. unfold t', keystroke in H1.
    simpl in H1. by rewrite H1.
  - intros Hn1. unfold t', keystroke in *. simpl in *.
    apply Z.eqb_neq in Hn1. rewrite Hn1.
    unfold isLikelyPasted, isLikelySuggestion. simpl.
    destruct (Z.ltb_spec (Since now' now) (50 * Millisecond)); [|lia]. simpl.
    destruct (keyCode =? 86); simpl; [done|].
    destruct (1 <? String.length char)%nat; simpl; [done|].
    destruct (isTyped (InputMethod tracker)); simpl; [|done].
    destruct (keyCode =? 9); simpl; [done|].
    destruct (keyCode =? 13); simpl; done.
Qed.

(** X15, witness: the second keystroke of a session is the letter é, two
    bytes long, typed 400 ms after the first. *)
Lemma keystroke_sets_the_method_witness :
  let typing := mkTracker None 1000 1000 1 "" "" TextInputTyped in
  Since 400000100 400000000 < 50 * Millisecond
  ∧ InputMethod (keystroke typing 0x45 "é" 400000000 400000100) = TextInputPasted.
Proof.
  intros typing.
  assert (H : Since 400000100 400000000 < 50 * Millisecond) by (by vm_compute).
  split; [exact H|].
  exact (proj2 (proj2 (proj2 (proj2 (proj2
           (keystroke_sets_the_method typing 0x45 "é" 400000000 400000100 H)))))
           ltac:(by vm_compute)).
Defined.






(** X17: once [CompleteAllActiveInputs] has returned no session is left,
    so a second call, a completion by any key and a keystroke all leave
    the manager as it is and emit nothing; the same holds for the
    completion of a key that has no session and for [StartTextInput] on a
    nil element. *)
Theorem nothing_left_after_complete_all :
  ∀ (tim : TextInputManager) (readText : option UIElement -> string)
    (rs : string -> Reading),
    let done := fst (CompleteAllActiveInputsWith readText tim rs) in
    ActiveInputs done = ∅
    ∧ (∀ readText' rs', CompleteAllActiveInputsWith readText' done rs' = (done, []))
    ∧ (∀ readText' key reason r,
         CompleteTextInputWith readText' done key reason r = (done, []))
    ∧ (∀ first keyCode char now now',
         HandleKeystroke done first keyCode char now now' = done)
    ∧ (∀ readText' key reason r,
         ActiveInputs tim !! key = None →
         CompleteTextInputWith readText' tim key reason r = (tim, []))
    ∧ (∀ readText' r t0 t1,
         StartTextInputWith readText' tim None r t0 t1 = (tim, [])).
Proof.
  intros tim readText rs done. unfold done. simpl.
  split; [done|]. split; [|split; [|split; [|split]]].
  - intros readText' rs'. unfold CompleteAllActiveInputsWith. simpl.
    by rewrite map_to_list_empty.
  - intros readText' key reason r. unfold CompleteTextInputWith. simpl.
    by rewrite lookup_empty.
  - intros first keyCode char now now'. unfold HandleKeystroke. simpl.
    by rewrite lookup_empty.
  - intros readText' key reason r Hnone. unfold CompleteTextInputWith.
    by rewrite Hnone.
  - done.
Qed.

Lemma barFree_cons c s : barFree (String c s) → c ≠ "|"%char ∧ barFree s.
Proof.
  unfold barFree. cbn [Contains]. intros [H1 H2]%orb_false_elim.
  split; [|done]. intros ->. simpl in H1. by destruct s.
Qed.

(** Two bar-free heads followed by a bar: the heads and the tails agree. *)
Lemma bar_splits a : ∀ a' rest rest',
  barFree a → barFree a' →
  String.append a (String "|" rest) = String.append a' (String "|" rest') →
  a = a' ∧ rest = rest'.
Proof.
  induction a as [|c a IH]; intros [|c' a'] rest rest' Ha Ha'; simpl.
  - by intros [= ->].
  - intros [= <- _]. by apply barFree_cons in Ha' as [? _].
  - intros [= -> _]. by apply barFree_cons in Ha as [? _].
  - intros [= -> Heq].
    apply barFree_cons in Ha as [_ Ha]. apply barFree_cons in Ha' as [_ Ha'].
    destruct (IH a' rest rest' Ha Ha' Heq) as [-> ->]. done.
Qed.

(** X18: [getElementKey] tells elements apart by role, name and window
    title, provided roles and names hold no "|": two such elements with
    the same key agree on all three.  (With a "|" inside a role or a name
    different elements can share a key, and then one session.)  The key of
    an element is never the empty key of nil. *)
Theorem element_key_is_injective :
  ∀ e1 e2 : UIElement,
    barFree (Role e1) → barFree (Name e1) →
    barFree (Role e2) → barFree (Name e2) →
    getElementKey (Some e1) = getElementKey (Some e2) →
    Role e1 = Role e2 ∧ Name e1 = Name e2 ∧ WindowTitle e1 = WindowTitle e2.
Proof.
  intros e1 e2 Hr1 Hn1 Hr2 Hn2. unfold getElementKey.
  change (String.append "|" ?x) with (String "|" x).
  intros Heq.
  apply bar_splits in Heq as [Hr Heq]; [|done..].
  apply bar_splits in Heq as [Hn Hw]; [|done..].
  done.
Qed.

(** X18, witness: two text boxes of one window. *)
Lemma element_key_is_injective_witness :
  let box := mkUIElement "edit" "Search" 7 "Main window" "app.exe" "" in
  let same := mkUIElement "edit" "Search" 8 "Main window" "other.exe" "http://x" in
  (barFree (Role box) ∧ barFree (Name box) ∧ barFree (Role same) ∧ barFree (Name same)
   ∧ getElementKey (Some box) = getElementKey (Some same))
  ∧ Role box = Role same ∧ Name box = Name same ∧ WindowTitle box = WindowTitle same.
Proof.
  intros box same.
  assert (H1 : barFree (Role box)) by reflexivity.
  assert (H2 : barFree (Name box)) by reflexivity.
  assert (H3 : barFree (Role same)) by reflexivity.
  assert (H4 : barFree (Name same)) by reflexivity.
  assert (H5 : getElementKey (Some box) = getElementKey (Some same)) by reflexivity.
  split; [auto 6|].
  exact (element_key_is_injective box same H1 H2 H3 H4 H5).
Defined.

End TextInputMore.

(** * More on the browser tab tracker *)

Module BrowserTabMore.
Import BrowserTab.

#[local] Arguments extractURL : simpl never.
#[local] Arguments isBrowserWindow : simpl never.
#[local] Arguments determineNavigationMethod : simpl never.
#[local] Arguments isBrowserNavigationHotkey : simpl never.

(** ** Definitions *)

(** The longest run matching [[^/]+] at the start of [s]. *)
Fixpoint hostRun (s : string) : string :=
  match s with
  | EmptyString => EmptyString
  | String c rest =>
      if Ascii.eqb c "/" then EmptyString else String c (hostRun rest)
  end.

(** The submatch of [https?://([^/]+)] for a match anchored at the start
    of [s]. *)
Definition matchDomainAt (s : string) : option string :=
  if String.prefix "https://" s then
    match hostRun (dropBytes 8 s) with
    | EmptyString => None
    | run => Some run
    end
  else if String.prefix "http://" s then
    match hostRun (dropBytes 7 s) with
    | EmptyString => None
    | run => Some run
    end
  else None.

(** [FindStringSubmatch]: the submatch of the leftmost match. *)
Fixpoint findDomain (s : string) : option string :=
  match matchDomainAt s with
  | Some d => Some d
  | None =>
      match s with
      | EmptyString => None
      | String _ rest => findDomain rest
      end
  end.

Definition extractDomain (url : string) : string :=
  match findDomain url with
  | Some d => d
  | None => ""
  end.

Definition isBackForwardNavigation (fromURL toURL : string) : bool :=
  if (fromURL =? "")%string || (toURL =? "")%string then false
  else
    let fromDomain := extractDomain fromURL in
    let toDomain := extractDomain toURL in
    (fromDomain =? toDomain)%string && negb (fromDomain =? "")%string.

(** One call of an entry point of the tracker. *)
Inductive Call :=
  | WindowChange (element : option UIElement) (clock : nat -> Time)
                 (meta : EventMetadata)
  | Hotkey (combination : string) (activeElement : option UIElement)
  | Click (position : Position) (activeElement : option UIElement).

Definition isWindowChange (c : Call) : bool :=
  match c with WindowChange _ _ _ => true | _ => false end.

Section Labels.

Variable extractTitle : string -> string.
Variable getBrowserName : string -> string.
Variable isBackForward : string -> string -> bool.

Definition step (btt : BrowserTabTracker) (c : Call)
  : BrowserTabTracker * list BrowserTabNavigationEvent :=
  match c with
  | WindowChange element clock meta =>
      HandleWindowChange extractTitle getBrowserName isBackForward
                         btt element clock meta
  | Hotkey combination activeElement =>
      (HandleHotkey btt combination activeElement, [])
  | Click position activeElement =>
      (HandleClick btt position activeElement, [])
  end.

Fixpoint run (btt : BrowserTabTracker) (calls : list Call)
  : BrowserTabTracker * list BrowserTabNavigationEvent :=
  match calls with
  | [] => (btt, [])
  | c :: rest =>
      let '(btt1, ev1) := step btt c in
      let '(btt2, ev2) := run btt1 rest in
      (btt2, ev1 ++ ev2)
  end.

End Labels.

(** The last [n] entries of a list. *)
Definition lastN {A} (n : nat) (l : list A) : list A := drop (length l - n) l.

(** The run holds none of the bytes and runes a URL match stops at. *)
Definition unbroken (run : string) : Prop :=
  Forall (fun c => isSpaceOrHyphen c = false) (list_ascii_of_string run)
  ∧ Contains run emDash = false.

(** The text after a match is empty or starts with something the match
    stops at. *)
Definition stopsAt (after : string) : Prop :=
  after = ""
  ∨ (∃ c rest, after = String c rest ∧ isSpaceOrHyphen c = true)
  ∨ String.prefix emDash after = true.

(** What the tracker keeps true of each stored state. *)
Definition tidyState (pid : Z) (st : BrowserState) : Prop :=
  StateProcessID st = pid
  ∧ (length (RecentHotkeys st) ≤ 5)%nat
  ∧ (length (RecentClicks st) ≤ 10)%nat
  ∧ Forall (fun h => isBrowserNavigationHotkey h = true) (RecentHotkeys st)
  ∧ TabCount st = 1.

Definition tidy (btt : BrowserTabTracker) : Prop :=
  LastNavigation btt = zeroTime
  ∧ ∀ pid st, BrowserStates btt !! pid = Some st → tidyState pid st.

(** What every emitted event looks like. *)
Definition tabSwitch (ev : BrowserTabNavigationEvent) : Prop :=
  Action ev = TabSwitched
  ∧ ToURL ev ≠ "" ∧ ToURL ev ≠ FromURL ev
  ∧ TabIndex ev = 0 ∧ TotalTabs ev = 0
  ∧ 0 <= PageDwellTimeMs ev < 2 ^ 64
  ∧ ∃ e, MetaUIElement (Metadata ev) = Some e
         ∧ ToURL ev = extractURL (WindowTitle e).

(** The method the next event of process [pid] would carry. *)
Definition methodOf (btt : BrowserTabTracker) (pid : Z) : TabNavigationMethod :=
  match BrowserStates btt !! pid with
  | Some st => determineNavigationMethod st
  | None => TabNavigationOther
  end.

(** ** Facts about strings *)

Infix "+:+" := String.append (at level 60, right associativity).

Lemma append_nil (s : string) : "" +:+ s = s.
Proof. reflexivity. Qed.

Lemma append_cons (c : ascii) (a b : string) :
  String c a +:+ b = String c (a +:+ b).
Proof. reflexivity. Qed.

Lemma prefix_split p : ∀ s,
  String.prefix p s = true ↔ ∃ rest, s = p +:+ rest.
Proof.
  induction p as [|c p IH]; intros [|d s]; simpl.
  - split; [by exists "" | done].
  - split; [by exists (String d s) | done].
  - split; [done | by intros [? ?]].
  - destruct (Ascii.ascii_dec c d) as [->|Hne].
    + rewrite IH. split; intros [rest Hr]; exists rest.
      * by rewrite append_cons, Hr.
      * rewrite append_cons in Hr. by injection Hr.
    + split; [done|]. intros [rest Hr]. rewrite append_cons in Hr.
      injection Hr as ? _. done.
Qed.

Lemma append_assoc (a b c : string) : (a +:+ b) +:+ c = a +:+ b +:+ c.
Proof.
  induction a as [|x a IH]; [done|]. rewrite !append_cons. by f_equal.
Qed.

Lemma prefix_append p a b :
  String.prefix p a = true → String.prefix p (a +:+ b) = true.
Proof.
  intros [rest ->]%prefix_split. apply prefix_split.
  exists (rest +:+ b). by rewrite append_assoc.
Qed.

(** ** Facts about URL extraction *)

Lemma urlRun_split extra : ∀ s,
  ∃ after, s = urlRun extra s +:+ after ∧ (extra = [] → stopsAt after).
Proof.
  induction s as [|c rest IH]; [exists ""; split; [done | by left]|].
  cbn [urlRun].
  destruct (isSpaceOrHyphen c) eqn:Hc.
  { exists (String c rest). split; [done|]. intros _. right. left. eauto. }
  destruct (existsb (Ascii.eqb c) extra) eqn:He.
  { exists (String c rest). split; [done|]. by intros ->. }
  destruct (String.prefix emDash (String c rest)) eqn:Hd.
  { exists (String c rest). split; [done|]. intros _. by right; right. }
  cbn [orb]. destruct IH as (after & Hs & Hstop).
  exists after. split; [|done]. rewrite append_cons. by f_equal.
Qed.

Lemma urlRun_unbroken extra : ∀ s, unbroken (urlRun extra s).
Proof.
  induction s as [|c rest [IH1 IH2]]; [by split; [constructor|]|].
  cbn [urlRun].
  destruct (isSpaceOrHyphen c) eqn:Hc; [by split; [constructor|]|].
  destruct (existsb (Ascii.eqb c) extra) eqn:He; [by split; [constructor|]|].
  destruct (String.prefix emDash (String c rest)) eqn:Hd;
    [by split; [constructor|]|].
  cbn [orb]. split.
  - cbn [list_ascii_of_string]. by constructor.
  - cbn [Contains]. rewrite IH2, orb_false_r.
    destruct (String.prefix emDash (String c (urlRun extra rest))) eqn:Hp; [|done].
    destruct (urlRun_split extra rest) as (after & Hs & _).
    apply (prefix_append _ _ after) in Hp.
    rewrite append_cons, <- Hs in Hp. congruence.
Qed.

Lemma urlRun_extra extra s : urlRun extra s ≠ "" → urlRun [] s ≠ "".
Proof.
  destruct s as [|c rest]; [done|]. cbn [urlRun existsb].
  destruct (isSpaceOrHyphen c); [done|].
  destruct (existsb (Ascii.eqb c) extra); [done|].
  by destruct (String.prefix emDash (String c rest)).
Qed.

(** What a match anchored at the start of [s] looks like. *)
Lemma matchURLAt_shape extra s m :
  matchURLAt extra s = Some m →
  ∃ scheme rest,
    (scheme = "http://" ∨ scheme = "https://")
    ∧ s = scheme +:+ rest
    ∧ m = scheme +:+ urlRun extra rest
    ∧ urlRun extra rest ≠ "".
Proof.
  unfold matchURLAt.
  destruct (String.prefix "https://" s) eqn:H1.
  - apply prefix_split in H1 as [rest ->].
    change (dropBytes 8 ("https://" +:+ rest)) with rest.
    destruct (urlRun extra rest) eqn:Hr; [done|]. intros [= <-].
    exists "https://", rest. rewrite Hr. by repeat split; [right|..].
  - destruct (String.prefix "http://" s) eqn:H2; [|done].
    apply prefix_split in H2 as [rest ->].
    change (dropBytes 7 ("http://" +:+ rest)) with rest.
    destruct (urlRun extra rest) eqn:Hr; [done|]. intros [= <-].
    exists "http://", rest. rewrite Hr. by repeat split; [left|..].
Qed.

Lemma matchURLAt_extra extra s m :
  matchURLAt extra s = Some m → ∃ m', matchURLAt [] s = Some m' ∧ m' ≠ "".
Proof.
  intros (scheme & rest & Hscheme & -> & _ & Hne%urlRun_extra)%matchURLAt_shape.
  destruct (urlRun [] rest) as [|c run] eqn:Hr; [done|].
  destruct Hscheme as [-> | ->].
  - exists ("http://" +:+ String c run). split; [|done].
    unfold matchURLAt.
    change (String.prefix "https://" ("http://" +:+ rest)) with false.
    change (String.prefix "http://" ("http://" +:+ rest))
      with (String.prefix "" rest).
    change (dropBytes 7 ("http://" +:+ rest)) with rest.
    rewrite Hr. by destruct rest.
  - exists ("https://" +:+ String c run). split; [|done].
    unfold matchURLAt.
    change (String.prefix "https://" ("https://" +:+ rest))
      with (String.prefix "" rest).
    change (dropBytes 8 ("https://" +:+ rest)) with rest.
    rewrite Hr. by destruct rest.
Qed.

Lemma FindString_unfold extra s :
  FindString extra s
  = match matchURLAt extra s with
    | Some m => m
    | None => match s with
              | EmptyString => EmptyString
              | String _ rest => FindString extra rest
              end
    end.
Proof. by destruct s. Qed.

Lemma FindString_extra extra : ∀ s,
  FindString extra s ≠ "" → FindString [] s ≠ "".
Proof.
  induction s as [|c rest IH]; rewrite (FindString_unfold extra),
    (FindString_unfold []).
  - done.
  - destruct (matchURLAt extra (String c rest)) as [m|] eqn:Hm.
    + apply matchURLAt_extra in Hm as (m' & -> & Hne). done.
    + intros H%IH. destruct (matchURLAt [] (String c rest)) as [m'|] eqn:Hm'; [|done].
      destruct (matchURLAt_extra _ _ _ Hm') as (m'' & Hm'' & Hne). congruence.
Qed.

(** The leftmost match of the plain pattern. *)
Lemma FindString_shape : ∀ s,
  FindString [] s = ""
  ∨ ∃ before scheme run after,
      (scheme = "http://" ∨ scheme = "https://")
      ∧ s = before +:+ scheme +:+ run +:+ after
      ∧ FindString [] s = scheme +:+ run
      ∧ run ≠ "" ∧ unbroken run ∧ stopsAt after
      ∧ ∀ b1 b2, before = b1 +:+ b2 → b2 ≠ "" →
          matchURLAt [] (b2 +:+ scheme +:+ run +:+ after) = None.
Proof.
  assert (Hhere : ∀ s m, matchURLAt [] s = Some m →
            ∃ scheme run after,
              (scheme = "http://" ∨ scheme = "https://")
              ∧ s = scheme +:+ run +:+ after ∧ m = scheme +:+ run
              ∧ run ≠ "" ∧ unbroken run ∧ stopsAt after).
  { intros s m (scheme & rest & Hscheme & -> & -> & Hne)%matchURLAt_shape.
    destruct (urlRun_split [] rest) as (after & Hrest & Hstop).
    exists scheme, (urlRun [] rest), after.
    split; [done|]. split; [by rewrite <- Hrest|]. split; [done|].
    split; [done|]. split; [apply urlRun_unbroken | by apply Hstop]. }
  induction s as [|c rest IH]; rewrite FindString_unfold.
  - by left.
  - destruct (matchURLAt [] (String c rest)) as [m|] eqn:Hm.
    + right. destruct (Hhere _ _ Hm) as (scheme & run & after & H1 & H2 & H3 & H4).
      exists "", scheme, run, after. rewrite append_nil.
      split; [done|]. split; [done|]. split; [done|].
      split; [tauto|]. split; [tauto|]. split; [tauto|].
      intros [|x b1] b2; [|done]. rewrite append_nil. by intros <-.
    + destruct IH as [IH | (before & scheme & run & after & H1 & H2 & H3 & H4 & H5 & H6 & H7)];
        [by left|].
      right. exists (String c before), scheme, run, after.
      split; [done|]. split; [by rewrite append_cons, <- H2|]. split; [done|].
      split; [done|]. split; [done|]. split; [done|].
      intros [|x b1] b2.
      * rewrite append_nil. intros <- _. by rewrite append_cons, <- H2.
      * rewrite append_cons. intros [= _ Hb] Hne. by apply (H7 b1 b2).
Qed.

Lemma extractURL_FindString windowTitle :
  extractURL windowTitle = FindString [] windowTitle.
Proof.
  unfold extractURL.
  destruct (String.eqb_spec windowTitle "") as [->|_]; [done|].
  cbn [firstURL URLPatterns].
  destruct (FindString [] windowTitle) eqn:Hplain; [|done].
  destruct (FindString ["|"; "["; "]"]%char windowTitle) eqn:Hfall; [done|].
  exfalso. apply (FindString_extra ["|"; "["; "]"]%char windowTitle); [|done].
  by rewrite Hfall.
Qed.

(** X19: [extractURL] returns the leftmost match of [https?://[^\s\-—]+]
    in the window title and nothing else: the fall-back pattern and its
    trimming of trailing punctuation never contribute, since a title the
    fall-back pattern matches is matched by the plain pattern first.  The
    result is empty or is a piece of the title that starts with "http://"
    or "https://" followed by at least one byte, holds no white space, no
    hyphen and no em dash, and ends where the title ends or where one of
    these begins (a URL with a hyphen is cut before the hyphen); no match
    starts further to the left. *)
Theorem extracted_url_is_leftmost_plain_match :
  ∀ windowTitle : string,
    extractURL windowTitle = FindString [] windowTitle
    ∧ (extractURL windowTitle = ""
       ∨ ∃ before scheme run after,
           (scheme = "http://" ∨ scheme = "https://")
           ∧ windowTitle = before +:+ scheme +:+ run +:+ after
           ∧ extractURL windowTitle = scheme +:+ run
           ∧ run ≠ "" ∧ unbroken run ∧ stopsAt after
           ∧ ∀ b1 b2, before = b1 +:+ b2 → b2 ≠ "" →
               matchURLAt [] (b2 +:+ scheme +:+ run +:+ after) = None).
Proof.
  intros windowTitle. rewrite extractURL_FindString. split; [done|].
  apply FindString_shape.
Qed.

(** ** Facts about the stored states *)

Lemma keepRecent_length {A} (cap : nat) (l : list A) (x : A) :
  (length l ≤ cap)%nat → (length (keepRecent cap (l ++ [x])) ≤ cap)%nat.
Proof.
  intros Hl. unfold keepRecent. rewrite length_app. simpl.
  destruct (Nat.ltb_spec cap (length l + 1)).
  - destruct l; simpl in *; [lia|]. rewrite length_app. simpl. lia.
  - rewrite length_app. simpl. lia.
Qed.

Lemma keepRecent_lastN {A} (cap : nat) (l : list A) (x : A) :
  (length l ≤ cap)%nat → keepRecent cap (l ++ [x]) = lastN cap (l ++ [x]).
Proof.
  intros Hl. unfold keepRecent, lastN. rewrite length_app. simpl.
  destruct (Nat.ltb_spec cap (length l + 1)).
  - replace (length l + 1 - cap)%nat with 1%nat by lia. by destruct l.
  - by replace (length l + 1 - cap)%nat with 0%nat by lia.
Qed.

Lemma keepRecent_Forall {A} (P : A → Prop) (cap : nat) (l : list A) :
  Forall P l → Forall P (keepRecent cap l).
Proof.
  intros Hl. unfold keepRecent. destruct (cap <? length l)%nat; [|done].
  destruct Hl; [constructor | done].
Qed.

Lemma lastN_length {A} (n : nat) (l : list A) : (length (lastN n l) ≤ n)%nat.
Proof. unfold lastN. rewrite length_drop. lia. Qed.

Lemma lastN_app {A} (n : nat) (a b : list A) :
  lastN n (lastN n a ++ b) = lastN n (a ++ b).
Proof.
  unfold lastN. destruct (Nat.le_gt_cases (length a) n) as [Hle|Hgt].
  - replace (length a - n)%nat with 0%nat by lia. done.
  - rewrite !length_app, length_drop.
    replace (length a - (length a - n) + length b - n)%nat with (length b) by lia.
    replace (length a + length b - n)%nat
      with ((length a - n) + length b)%nat by lia.
    rewrite <- drop_drop. rewrite (drop_app_le a); [done | lia].
Qed.

Section Labels.

Variable extractTitle : string -> string.
Variable getBrowserName : string -> string.
Variable isBackForward : string -> string -> bool.

#[local] Abbreviation handle :=
  (HandleWindowChange extractTitle getBrowserName isBackForward).
#[local] Abbreviation run' := (run extractTitle getBrowserName isBackForward).
#[local] Abbreviation step' := (step extractTitle getBrowserName isBackForward).

(** The three ways a window change of a browser window goes. *)
Lemma handle_cases btt e clock meta :
  isBrowserWindow e = true →
  let url := extractURL (WindowTitle e) in
  match BrowserStates btt !! ProcessID e with
  | None =>
      handle btt (Some e) clock meta
      = (mkTracker (<[ProcessID e :=
                       mkBrowserState (ProcessID e) (WindowTitle e) url (clock O) 1
                                      zeroTime [] []]> (BrowserStates btt))
                   (LastNavigation btt), [])
  | Some st =>
      ∃ st' evs,
        handle btt (Some e) clock meta
        = (mkTracker (<[ProcessID e := st']> (BrowserStates btt))
                     (LastNavigation btt), evs)
        ∧ StateProcessID st' = StateProcessID st
        ∧ TabCount st' = TabCount st
        ∧ RecentHotkeys st' = RecentHotkeys st
        ∧ RecentClicks st' = RecentClicks st
        ∧ (evs = []
           ∨ ∃ ev, evs = [ev] ∧ tabSwitch ev
                   ∧ MetaUIElement (Metadata ev) = Some e
                   ∧ Method ev = determineNavigationMethod st)
  end.
Proof.
  intros Hb url. unfold HandleWindowChange. rewrite Hb. cbn [negb].
  destruct (BrowserStates btt !! ProcessID e) as [st|] eqn:Hst; [|done].
  fold url.
  destruct (String.eqb_spec url "") as [Hu|Hu]; cbn [negb andb];
    [eexists _, _; split; [done|]; repeat split; by left|].
  destruct (String.eqb_spec url (CurrentURL st)) as [Hc|Hc]; cbn [negb andb];
    [eexists _, _; split; [done|]; repeat split; by left|].
  eexists _, _. split; [done|]. repeat split. right.
  eexists. split; [done|]. split; [|done].
  unfold tabSwitch. cbn.
  repeat split; try done.
  - apply Z.mod_pos_bound. lia.
  - apply Z.mod_pos_bound. lia.
  - by exists e.
Qed.

Lemma step_tidy btt c :
  tidy btt →
  tidy (fst (step' btt c)) ∧ Forall tabSwitch (snd (step' btt c)).
Proof.
  intros [Hnav Hst]. destruct c as [element clock meta | combination element
                                   | position element]; cbn [step fst snd].
  - destruct element as [e|]; [|by split; [split|constructor]].
    destruct (isBrowserWindow e) eqn:Hb;
      [|unfold HandleWindowChange; rewrite Hb; by split; [split|constructor]].
    pose proof (handle_cases btt e clock meta Hb) as Hcases. cbn zeta in Hcases.
    destruct (BrowserStates btt !! ProcessID e) as [st|] eqn:Hlook.
    + destruct Hcases as (st' & evs & -> & Hp & Ht & Hh & Hc & Hev).
      destruct (Hst _ _ Hlook) as (T1 & T2 & T3 & T4 & T5).
      cbn [fst snd]. split; [split; [done|]|].
      * intros pid st0. cbn [BrowserStates].
        destruct (decide (pid = ProcessID e)) as [->|Hne].
        -- rewrite lookup_insert_eq. intros [= <-]. unfold tidyState.
           rewrite Hp, Ht, Hh, Hc. done.
        -- rewrite lookup_insert_ne by done. apply Hst.
      * destruct Hev as [-> | (ev & -> & Hev & _)]; [constructor|].
        constructor; [done | constructor].
    + rewrite Hcases. cbn [fst snd]. split; [split; [done|]|constructor].
      intros pid st0. cbn [BrowserStates].
      destruct (decide (pid = ProcessID e)) as [->|Hne].
      * rewrite lookup_insert_eq. intros [= <-]. unfold tidyState. cbn.
        repeat split; try lia. constructor.
      * rewrite lookup_insert_ne by done. apply Hst.
  - split; [|constructor]. unfold HandleHotkey.
    destruct element as [e|]; [|by split].
    destruct (isBrowserWindow e); cbn [negb]; [|by split].
    destruct (isBrowserNavigationHotkey combination) eqn:Hn; [|by split].
    destruct (BrowserStates btt !! ProcessID e) as [st|] eqn:Hlook; [|by split].
    destruct (Hst _ _ Hlook) as (T1 & T2 & T3 & T4 & T5).
    split; [done|]. intros pid st0. cbn [BrowserStates].
    destruct (decide (pid = ProcessID e)) as [->|Hne].
    + rewrite lookup_insert_eq. intros [= <-]. unfold tidyState. cbn.
      split; [done|]. split; [by apply keepRecent_length|]. split; [done|].
      split; [|done]. apply keepRecent_Forall, Forall_app. by repeat constructor.
    + rewrite lookup_insert_ne by done. apply Hst.
  - split; [|constructor]. unfold HandleClick.
    destruct element as [e|]; [|by split].
    destruct (isBrowserWindow e); cbn [negb]; [|by split].
    destruct (BrowserStates btt !! ProcessID e) as [st|] eqn:Hlook; [|by split].
    destruct (Hst _ _ Hlook) as (T1 & T2 & T3 & T4 & T5).
    split; [done|]. intros pid st0. cbn [BrowserStates].
    destruct (decide (pid = ProcessID e)) as [->|Hne].
    + rewrite lookup_insert_eq. intros [= <-]. unfold tidyState. cbn.
      split; [done|]. split; [done|]. split; [by apply keepRecent_length|]. done.
    + rewrite lookup_insert_ne by done. apply Hst.
Qed.

Lemma run_tidy calls : ∀ btt,
  tidy btt →
  tidy (fst (run' btt calls)) ∧ Forall tabSwitch (snd (run' btt calls)).
Proof.
  induction calls as [|c calls IH]; intros btt Ht; cbn [run];
    [by split; [|constructor]|].
  destruct (step_tidy btt c Ht) as [Ht1 He1].
  destruct (step' btt c) as [btt1 ev1]. cbn [fst snd] in *.
  destruct (IH btt1 Ht1) as [Ht2 He2].
  destruct (run' btt1 calls) as [btt2 ev2]. cbn [fst snd] in *.
  split; [done | by apply Forall_app].
Qed.

(** X20: whatever window changes, hotkeys and clicks a new tracker is
    told of, every stored state is filed under its own process id, holds
    at most five recent hotkeys, all of them browser navigation hotkeys,
    and at most ten recent clicks, and its tab count is still the initial
    1; [LastNavigation] is still the zero time.  Every event that was
    emitted is a "Switched" event to a non-empty URL, the one extracted
    from the title of the window in its metadata, different from the URL
    it comes from, with tab index and total tabs 0. *)
Theorem tracker_states_stay_tidy :
  ∀ calls : list Call,
    let res := run' NewBrowserTabTracker calls in
    LastNavigation (fst res) = zeroTime
    ∧ (∀ pid st, BrowserStates (fst res) !! pid = Some st →
         StateProcessID st = pid
         ∧ (length (RecentHotkeys st) ≤ 5)%nat
         ∧ (length (RecentClicks st) ≤ 10)%nat
         ∧ Forall (fun h => isBrowserNavigationHotkey h = true) (RecentHotkeys st)
         ∧ TabCount st = 1)
    ∧ Forall (fun ev =>
                Action ev = TabSwitched
                ∧ ToURL ev ≠ "" ∧ ToURL ev ≠ FromURL ev
                ∧ TabIndex ev = 0 ∧ TotalTabs ev = 0
                ∧ 0 <= PageDwellTimeMs ev < 2 ^ 64
                ∧ ∃ e, MetaUIElement (Metadata ev) = Some e
                       ∧ ToURL ev = extractURL (WindowTitle e))
             (snd res).
Proof.
  intros calls res.
  destruct (run_tidy calls NewBrowserTabTracker) as [[Hnav Hst] Hev].
  { split; [done|]. intros pid st. cbn. by rewrite lookup_empty. }
  done.
Qed.

Lemma methodOf_handle btt element clock meta pid :
  methodOf (fst (handle btt element clock meta)) pid = methodOf btt pid.
Proof.
  destruct element as [e|]; [|done].
  destruct (isBrowserWindow e) eqn:Hb;
    [|by unfold HandleWindowChange; rewrite Hb].
  pose proof (handle_cases btt e clock meta Hb) as Hcases. cbn zeta in Hcases.
  unfold methodOf.
  destruct (BrowserStates btt !! ProcessID e) as [st|] eqn:Hlook.
  - destruct Hcases as (st' & evs & -> & _ & _ & Hh & Hc & _).
    cbn [fst BrowserStates].
    destruct (decide (pid = ProcessID e)) as [->|Hne].
    + rewrite lookup_insert_eq, Hlook.
      unfold determineNavigationMethod. by rewrite Hh, Hc.
    + by rewrite lookup_insert_ne.
  - rewrite Hcases. cbn [fst BrowserStates].
    destruct (decide (pid = ProcessID e)) as [->|Hne].
    + by rewrite lookup_insert_eq, Hlook.
    + by rewrite lookup_insert_ne.
Qed.

(** X21: window changes never touch the two buffers, so during a run of
    window changes alone, with no hotkey and no click in between, the
    method of every event is the one the buffers of its process gave when
    the run began, however many navigations ago the hotkey was pressed;
    for a process first seen during the run it is "other". *)
Theorem window_changes_keep_the_method :
  ∀ (btt : BrowserTabTracker) (calls : list Call),
    forallb isWindowChange calls = true →
    Forall (fun ev =>
              ∃ e, MetaUIElement (Metadata ev) = Some e
                   ∧ Method ev
                     = match BrowserStates btt !! ProcessID e with
                       | Some st => determineNavigationMethod st
                       | None => TabNavigationOther
                       end)
           (snd (run' btt calls)).
Proof.
  intros btt calls Hw.
  change (Forall (fun ev => ∃ e, MetaUIElement (Metadata ev) = Some e
                                 ∧ Method ev = methodOf btt (ProcessID e))
                 (snd (run' btt calls))).
  revert btt Hw.
  induction calls as [|c calls IH]; intros btt Hw; cbn [run]; [constructor|].
  cbn [forallb] in Hw. apply andb_prop in Hw as [Hc Hw].
  destruct c as [element clock meta | |]; [|done..]. cbn [step].
  pose proof (methodOf_handle btt element clock meta) as Hsame.
  assert (Hhere : Forall (fun ev => ∃ e, MetaUIElement (Metadata ev) = Some e
                                         ∧ Method ev = methodOf btt (ProcessID e))
                         (snd (handle btt element clock meta))).
  { destruct element as [e|]; [|constructor].
    destruct (isBrowserWindow e) eqn:Hb;
      [|unfold HandleWindowChange; rewrite Hb; constructor].
    pose proof (handle_cases btt e clock meta Hb) as Hcases. cbn zeta in Hcases.
    unfold methodOf.
    destruct (BrowserStates btt !! ProcessID e) as [st|] eqn:Hlook.
    - destruct Hcases as (st' & evs & -> & _ & _ & _ & _ & Hev).
      destruct Hev as [-> | (ev & -> & _ & Hm & Hmeth)]; [constructor|].
      constructor; [|constructor]. exists e. by rewrite Hlook.
    - rewrite Hcases. constructor. }
  destruct (handle btt element clock meta) as [btt1 ev1]. cbn [fst snd] in *.
  specialize (IH btt1 Hw).
  destruct (run' btt1 calls) as [btt2 ev2]. cbn [fst snd] in *.
  apply Forall_app. split; [done|].
  eapply Forall_impl; [exact IH|]. cbn beta.
  intros ev (e & He & Hm). exists e. by rewrite <- Hsame.
Qed.

End Labels.

(** One navigation hotkey after another for the window [e]. *)
Definition hotkeys (btt : BrowserTabTracker) (e : UIElement)
    (combinations : list string) : BrowserTabTracker :=
  foldl (fun b combination => HandleHotkey b combination (Some e)) btt combinations.

(** X22: the hotkey buffer of a process holds the last five of the browser
    navigation hotkeys pressed in its windows.  After any list of hotkeys
    sent to [HandleHotkey] for a browser window whose process has a stored
    state, the buffer is the old buffer followed by those of the hotkeys
    that are browser navigation hotkeys, cut down to its last five entries;
    the other hotkeys leave no trace, and the click buffer, the stored URL
    and the time of its last change are as before. *)
Theorem hotkey_buffer_keeps_last_five :
  ∀ (btt : BrowserTabTracker) (e : UIElement) (st : BrowserState)
    (combinations : list string),
    isBrowserWindow e = true →
    BrowserStates btt !! ProcessID e = Some st →
    (length (RecentHotkeys st) ≤ 5)%nat →
    ∃ st',
      BrowserStates (hotkeys btt e combinations) !! ProcessID e = Some st'
      ∧ RecentHotkeys st'
        = lastN 5 (RecentHotkeys st
                   ++ List.filter isBrowserNavigationHotkey combinations)
      ∧ RecentClicks st' = RecentClicks st
      ∧ CurrentURL st' = CurrentURL st
      ∧ LastURLChange st' = LastURLChange st.
Proof.
  intros btt e st combinations Hb. revert btt st.
  induction combinations as [|c cs IH]; intros btt st Hlook Hlen.
  - exists st. cbn. rewrite app_nil_r. split; [done|]. split; [|done].
    unfold lastN. by replace (length (RecentHotkeys st) - 5)%nat with 0%nat by lia.
  - unfold hotkeys. cbn [foldl List.filter]. fold (hotkeys (HandleHotkey btt c (Some e)) e cs).
    unfold HandleHotkey at 1. rewrite Hb. cbn [negb].
    destruct (isBrowserNavigationHotkey c) eqn:Hn.
    + rewrite Hlook.
      set (st1 := mkBrowserState (StateProcessID st) (StateWindowTitle st)
                    (CurrentURL st) (LastURLChange st) (TabCount st)
                    (LastTabAction st)
                    (keepRecent 5 (RecentHotkeys st ++ [c])) (RecentClicks st)).
      destruct (IH (mkTracker (<[ProcessID e := st1]> (BrowserStates btt))
                              (LastNavigation btt)) st1)
        as (st' & H1 & H2 & H3 & H4 & H5).
      { apply lookup_insert_eq. }
      { cbn. by apply keepRecent_length. }
      exists st'. split; [exact H1|]. unfold st1 in H2, H3, H4, H5.
      cbn [RecentHotkeys RecentClicks CurrentURL LastURLChange] in H2, H3, H4, H5.
      split; [|done].
      rewrite H2, keepRecent_lastN by done.
      rewrite lastN_app. by rewrite <- app_assoc.
    + by apply IH.
Qed.

(** A Chrome window of process 7 showing two pages, one after the other. *)
Definition firstPage : UIElement :=
  mkUIElement "document" "" 7 "https://a.example/inbox Mail" "chrome.exe" "".
Definition secondPage : UIElement :=
  mkUIElement "document" "" 7 "https://b.example/news News" "chrome.exe" "".
Definition atNoon (i : nat) : Time := 1000 * Second.
Definition plainMeta : EventMetadata := mkEventMetadata None 0.

(** X22, witness: Ctrl+T, Ctrl+C and Ctrl+L in a window whose process was
    seen once; Ctrl+C is no navigation hotkey. *)
Lemma hotkey_buffer_keeps_last_five_witness :
  let seen := fst (HandleWindowChange (fun t => t) (fun a => a)
                     isBackForwardNavigation NewBrowserTabTracker
                     (Some firstPage) atNoon plainMeta) in
  let st := mkBrowserState 7 "https://a.example/inbox Mail"
              "https://a.example/inbox" (1000 * Second) 1 zeroTime [] [] in
  (isBrowserWindow firstPage = true
   ∧ BrowserStates seen !! ProcessID firstPage = Some st
   ∧ (length (RecentHotkeys st) ≤ 5)%nat)
  ∧ ∃ st',
      BrowserStates (hotkeys seen firstPage ["Ctrl+T"; "Ctrl+C"; "Ctrl+L"])
        !! ProcessID firstPage = Some st'
      ∧ RecentHotkeys st' = ["Ctrl+T"; "Ctrl+L"].
Proof.
  intros seen st.
  assert (H1 : isBrowserWindow firstPage = true) by (by vm_compute).
  assert (H2 : BrowserStates seen !! ProcessID firstPage = Some st)
    by (by vm_compute).
  assert (H3 : (length (RecentHotkeys st) ≤ 5)%nat) by (cbn; lia).
  split; [done|].
  destruct (hotkey_buffer_keeps_last_five seen firstPage st
              ["Ctrl+T"; "Ctrl+C"; "Ctrl+L"] H1 H2 H3) as (st' & Hl & Hh & _).
  exists st'. split; [exact Hl | exact Hh].
Defined.

(** X21, witness: the process is seen, then shows a second page. *)
Lemma window_changes_keep_the_method_witness :
  let calls := [WindowChange (Some firstPage) atNoon plainMeta;
                WindowChange (Some secondPage) atNoon plainMeta] in
  forallb isWindowChange calls = true
  ∧ Forall (fun ev =>
              ∃ e, MetaUIElement (Metadata ev) = Some e
                   ∧ Method ev
                     = match BrowserStates NewBrowserTabTracker !! ProcessID e with
                       | Some st => determineNavigationMethod st
                       | None => TabNavigationOther
                       end)
           (snd (run (fun t => t) (fun a => a) isBackForwardNavigation
                     NewBrowserTabTracker calls)).
Proof.
  intros calls.
  assert (H : forallb isWindowChange calls = true) by reflexivity.
  split; [exact H|].
  exact (window_changes_keep_the_method (fun t => t) (fun a => a)
           isBackForwardNavigation NewBrowserTabTracker calls H).
Defined.

(** ** Facts about the back/forward heuristic *)

(** The string holds no byte "/". *)
Definition slashFree (s : string) : Prop :=
  Forall (fun c => c ≠ "/"%char) (list_ascii_of_string s).

(** The text after a host name: nothing, or a path. *)
Definition pathOrEnd (rest : string) : Prop :=
  rest = "" ∨ ∃ path, rest = String "/" path.

Lemma hostRun_host host rest :
  slashFree host → pathOrEnd rest → hostRun (host +:+ rest) = host.
Proof.
  intros Hh Hr. induction host as [|c host IH].
  - rewrite append_nil. by destruct Hr as [-> | [path ->]].
  - inversion Hh as [|? ? Hc Hrest]; subst. rewrite append_cons. cbn [hostRun].
    destruct (Ascii.eqb_spec c "/"); [done|]. by rewrite IH.
Qed.

Lemma extractDomain_host scheme host rest :
  scheme = "http://" ∨ scheme = "https://" →
  host ≠ "" → slashFree host → pathOrEnd rest →
  extractDomain (scheme +:+ host +:+ rest) = host.
Proof.
  intros Hs Hne Hh Hr. unfold extractDomain.
  assert (Hm : matchDomainAt (scheme +:+ host +:+ rest) = Some host).
  { unfold matchDomainAt. destruct Hs as [-> | ->].
    - change (String.prefix "https://" ("http://" +:+ host +:+ rest)) with false.
      change (String.prefix "http://" ("http://" +:+ host +:+ rest))
        with (String.prefix "" (host +:+ rest)).
      change (dropBytes 7 ("http://" +:+ host +:+ rest)) with (host +:+ rest).
      rewrite hostRun_host by done.
      destruct (host +:+ rest); by destruct host.
    - change (String.prefix "https://" ("https://" +:+ host +:+ rest))
        with (String.prefix "" (host +:+ rest)).
      change (dropBytes 8 ("https://" +:+ host +:+ rest)) with (host +:+ rest).
      rewrite hostRun_host by done.
      destruct (host +:+ rest); by destruct host. }
  destruct (scheme +:+ host +:+ rest); cbn [findDomain]; by rewrite Hm.
Qed.

(** X23: the back/forward flag only compares host names.  For two URLs
    made of "http://" or "https://", one and the same non-empty host and
    then nothing or a path, [extractDomain] gives the host and
    [isBackForwardNavigation] answers true, whatever the two paths and
    schemes are: every navigation that stays on one host counts as
    back/forward.  The answer never depends on the direction. *)
Theorem same_host_counts_as_back_forward :
  ∀ scheme1 scheme2 host rest1 rest2 : string,
    (scheme1 = "http://" ∨ scheme1 = "https://") →
    (scheme2 = "http://" ∨ scheme2 = "https://") →
    host ≠ "" → slashFree host → pathOrEnd rest1 → pathOrEnd rest2 →
    extractDomain (scheme1 +:+ host +:+ rest1) = host
    ∧ isBackForwardNavigation (scheme1 +:+ host +:+ rest1)
                              (scheme2 +:+ host +:+ rest2) = true
    ∧ ∀ fromURL toURL,
        isBackForwardNavigation fromURL toURL
        = isBackForwardNavigation toURL fromURL.
Proof.
  intros scheme1 scheme2 host rest1 rest2 Hs1 Hs2 Hne Hh Hr1 Hr2.
  split; [by apply extractDomain_host|]. split.
  - unfold isBackForwardNavigation.
    rewrite !extractDomain_host by done.
    assert (N : ∀ scheme rest, scheme = "http://" ∨ scheme = "https://" →
                (scheme +:+ host +:+ rest =? "")%string = false).
    { by intros scheme rest [-> | ->]. }
    rewrite !N by done. cbn [orb]. rewrite String.eqb_refl.
    by destruct (String.eqb_spec host "").
  - intros fromURL toURL. unfold isBackForwardNavigation.
    rewrite (orb_comm (toURL =? "")%string).
    destruct ((fromURL =? "")%string || (toURL =? "")%string); [done|].
    cbn zeta.
    destruct (String.eqb_spec (extractDomain fromURL) (extractDomain toURL)) as [->|Hd].
    + by rewrite String.eqb_refl.
    + destruct (String.eqb_spec (extractDomain toURL) (extractDomain fromURL)); [|done].
      congruence.
Qed.

(** X23, witness: from an article to the front page of the same site. *)
Lemma same_host_counts_as_back_forward_witness :
  (("https://" = "http://" ∨ "https://" = "https://")
   ∧ ("http://" = "http://" ∨ "http://" = "https://")
   ∧ "news.example" ≠ "" ∧ slashFree "news.example"
   ∧ pathOrEnd "/article/1" ∧ pathOrEnd "")
  ∧ isBackForwardNavigation "https://news.example/article/1"
                            "http://news.example" = true.
Proof.
  assert (H1 : "https://" = "http://" ∨ "https://" = "https://") by (by right).
  assert (H2 : "http://" = "http://" ∨ "http://" = "https://") by (by left).
  assert (H3 : "news.example" ≠ "") by done.
  assert (H4 : slashFree "news.example") by (by repeat constructor).
  assert (H5 : pathOrEnd "/article/1") by (right; by exists "article/1").
  assert (H6 : pathOrEnd "") by (by left).
  split; [done|].
  exact (proj1 (proj2 (same_host_counts_as_back_forward
           "https://" "http://" "news.example" "/article/1" "" H1 H2 H3 H4 H5 H6))).
Defined.

End BrowserTabMore.

(** * String utilities *)

Module Utilities.
Import Bytes BrowserTab BrowserTabMore.

(** ** Definitions *)

(** [TruncateString]; [maxLen] is an int.  The slice panics, here [None],
    when its bound is negative or beyond the end of [s]. *)
Definition TruncateString (s : string) (maxLen : Z) (suffix : string)
  : option string :=
  if Z.of_nat (String.length s) <=? maxLen then Some s
  else
    match sliceTo s (int64 (maxLen - Z.of_nat (String.length suffix))) with
    | Some head => Some (head +:+ suffix)
    | None => None
    end.

(** The bytes the character class of the pattern matches: the angle
    brackets, the colon, the double quote (byte 34), the slash, the
    backslash, the bar, the question mark and the star. *)
Definition invalidFilenameBytes : list ascii :=
  [ "<"; ">"; ":"; ascii_of_N 34; "/"; "\"; "|"; "?"; "*" ]%char.

Definition isInvalidFilenameByte (c : ascii) : bool :=
  existsb (Ascii.eqb c) invalidFilenameBytes.

(** [re.ReplaceAllString(filename, "_")] for a class of single bytes. *)
Fixpoint replaceInvalid (s : string) : string :=
  match s with
  | EmptyString => EmptyString
  | String c rest =>
      String (if isInvalidFilenameByte c then "_"%char else c) (replaceInvalid rest)
  end.

Definition SanitizeFilename (filename : string) : string :=
  let sanitized := replaceInvalid filename in
  let sanitized := TrimRight sanitized [" "; "."]%char in
  if (sanitized =? "")%string then "unnamed" else sanitized.

(** [ExtractDomainFromURL]: the pattern of [extractDomain], anchored at the
    start of the string. *)
Definition ExtractDomainFromURL (url : string) : string :=
  match matchDomainAt url with
  | Some d => d
  | None => ""
  end.

(** ** Facts *)

Lemma length_string_of_list l :
  String.length (string_of_list_ascii l) = length l.
Proof. induction l as [|c l IH]; simpl; [done | by rewrite IH]. Qed.

Lemma length_list_of_string s :
  length (list_ascii_of_string s) = String.length s.
Proof. induction s as [|c s IH]; simpl; [done | by rewrite IH]. Qed.

(** X24: [TruncateString] returns [s] itself when [s] has at most
    [maxLen] bytes.  A longer [s] is cut to its first
    [maxLen - len(suffix)] bytes followed by the suffix, [maxLen] bytes in
    all, provided the suffix has at most [maxLen] bytes; when the suffix
    is longer than [maxLen] (and so is [s]) the call panics.  The cut is
    made between bytes, not between characters. *)
Theorem TruncateString_cuts_or_panics :
  ∀ (s : string) (maxLen : Z) (suffix : string),
    - 2 ^ 63 <= maxLen < 2 ^ 63 →
    Z.of_nat (String.length s) + Z.of_nat (String.length suffix) < 2 ^ 63 →
    match TruncateString s maxLen suffix with
    | Some r =>
        (Z.of_nat (String.length s) <= maxLen ∧ r = s)
        ∨ (Z.of_nat (String.length suffix) <= maxLen < Z.of_nat (String.length s)
           ∧ r = takeBytes (Z.to_nat (maxLen - Z.of_nat (String.length suffix))) s
                 +:+ suffix
           ∧ Z.of_nat (String.length r) = maxLen)
    | None =>
        maxLen < Z.of_nat (String.length s)
        ∧ maxLen < Z.of_nat (String.length suffix)
    end.
Proof.
  intros s maxLen suffix Hmax Hlen. unfold TruncateString.
  destruct (Z.leb_spec (Z.of_nat (String.length s)) maxLen) as [Hfit|Hlong];
    [by left|].
  set (ls := Z.of_nat (String.length s)) in *.
  set (lf := Z.of_nat (String.length suffix)) in *.
  assert (Hls : 0 <= ls) by lia. assert (Hlf : 0 <= lf) by lia.
  destruct (Z.le_gt_cases lf maxLen) as [Hsuf|Hsuf].
  - rewrite TextSelectionMore.int64_small by lia.
    rewrite sliceTo_Some by (fold ls; lia).
    right. split; [lia|]. split; [done|].
    rewrite length_append, length_takeBytes. fold ls lf. lia.
  - unfold sliceTo. fold ls.
    destruct (Z.le_gt_cases (- 2 ^ 63) (maxLen - lf)) as [Hin|Hout].
    + rewrite TextSelectionMore.int64_small by lia.
      destruct (Z.ltb_spec (maxLen - lf) 0); [done | lia].
    + assert (Hw : int64 (maxLen - lf) = maxLen - lf + 2 ^ 64).
      { unfold int64, wrapS. change (64 - 1) with 63.
        replace ((maxLen - lf + 2 ^ 63) mod 2 ^ 64)
          with (maxLen - lf + 2 ^ 63 + 2 ^ 64); [lia|].
        apply Z.mod_unique with (q := -1); lia. }
      rewrite Hw.
      destruct (Z.ltb_spec (maxLen - lf + 2 ^ 64) 0); [done|].
      destruct (Z.ltb_spec ls (maxLen - lf + 2 ^ 64)); [done | lia].
Qed.

(** X24, witness: a log line cut to eight bytes. *)
Lemma TruncateString_cuts_or_panics_witness :
  (- 2 ^ 63 <= 8 < 2 ^ 63
   ∧ Z.of_nat (String.length "hello world") + Z.of_nat (String.length "...") < 2 ^ 63)
  ∧ TruncateString "hello world" 8 "..." = Some "hello..."
  ∧ TruncateString "hello world" 2 "..." = None.
Proof.
  assert (H1 : - 2 ^ 63 <= 8 < 2 ^ 63) by lia.
  assert (H2 : Z.of_nat (String.length "hello world")
               + Z.of_nat (String.length "...") < 2 ^ 63) by (by vm_compute).
  split; [done|].
  pose proof (TruncateString_cuts_or_panics "hello world" 8 "..." H1 H2) as H.
  split; [|by vm_compute].
  destruct (TruncateString "hello world" 8 "...") as [r|] eqn:E.
  - destruct H as [[H _] | (_ & -> & _)]; [by vm_compute in H | done].
  - destruct H as [_ H]. by vm_compute in H.
Defined.

(** The bytes of a string. *)
Definition bytesOf (s : string) : list ascii := list_ascii_of_string s.

Definition replaceByte (c : ascii) : ascii :=
  if isInvalidFilenameByte c then "_"%char else c.

Lemma bytesOf_replaceInvalid s :
  bytesOf (replaceInvalid s) = map replaceByte (bytesOf s).
Proof.
  unfold bytesOf. induction s as [|c s IH]; [done|].
  cbn [replaceInvalid list_ascii_of_string map]. by rewrite IH.
Qed.

Lemma replaceByte_valid c : isInvalidFilenameByte (replaceByte c) = false.
Proof.
  unfold replaceByte. by destruct (isInvalidFilenameByte c) eqn:E.
Qed.

Lemma replaceInvalid_valid l :
  Forall (fun c => isInvalidFilenameByte c = false) l →
  map replaceByte l = l.
Proof.
  induction 1 as [|c l Hc _ IH]; [done|]. cbn. rewrite IH.
  unfold replaceByte. by rewrite Hc.
Qed.

Lemma dropLeading_sub cutset l x : x ∈ dropLeading cutset l → x ∈ l.
Proof.
  induction l as [|c l IH]; cbn; [done|].
  destruct (existsb (Ascii.eqb c) cutset); [|done].
  intros H%IH. by apply list_elem_of_further.
Qed.

Lemma dropLeading_length cutset l : (length (dropLeading cutset l) ≤ length l)%nat.
Proof.
  induction l as [|c l IH]; cbn; [done|].
  destruct (existsb (Ascii.eqb c) cutset); cbn; lia.
Qed.

Lemma dropLeading_head cutset l :
  match dropLeading cutset l with
  | [] => True
  | c :: _ => existsb (Ascii.eqb c) cutset = false
  end.
Proof.
  induction l as [|c l IH]; cbn; [done|].
  by destruct (existsb (Ascii.eqb c) cutset) eqn:E.
Qed.

Lemma dropLeading_fixed cutset l :
  match l with
  | [] => True
  | c :: _ => existsb (Ascii.eqb c) cutset = false
  end →
  dropLeading cutset l = l.
Proof. destruct l as [|c l]; cbn; [done|]. by intros ->. Qed.

Lemma elem_of_rev {A} (x : A) (l : list A) : x ∈ rev l ↔ x ∈ l.
Proof. by rewrite !list_elem_of_In, <- in_rev. Qed.

(** The bytes of a trimmed string. *)
Definition trimmed (cutset : list ascii) (l : list ascii) : list ascii :=
  rev (dropLeading cutset (rev l)).

Lemma bytesOf_TrimRight s cutset :
  bytesOf (TrimRight s cutset) = trimmed cutset (bytesOf s).
Proof. unfold TrimRight, bytesOf. by rewrite list_ascii_of_string_of_list_ascii. Qed.

Lemma trimmed_fixed cutset l : trimmed cutset (trimmed cutset l) = trimmed cutset l.
Proof.
  unfold trimmed. rewrite rev_involutive.
  by rewrite (dropLeading_fixed _ _ (dropLeading_head cutset (rev l))).
Qed.

Lemma string_of_bytesOf s : string_of_list_ascii (bytesOf s) = s.
Proof. apply string_of_list_ascii_of_string. Qed.

Lemma bytesOf_inj a b : bytesOf a = bytesOf b → a = b.
Proof.
  intros H. by rewrite <- (string_of_bytesOf a), <- (string_of_bytesOf b), H.
Qed.

Lemma eqb_empty s : (s =? "")%string = true ↔ bytesOf s = [].
Proof. by destruct s. Qed.

(** X25: a sanitized file name is never empty, holds none of the bytes
    the pattern forbids, does not end in a space or a dot, and is at most
    as long as the given name (or the seven bytes of "unnamed").
    Sanitizing it once more changes nothing. *)
Theorem sanitized_filename_is_safe :
  ∀ filename : string,
    let name := SanitizeFilename filename in
    name ≠ ""
    ∧ Forall (fun c => isInvalidFilenameByte c = false) (bytesOf name)
    ∧ (∀ front c, bytesOf name = front ++ [c] → c ≠ " "%char ∧ c ≠ "."%char)
    ∧ (String.length name ≤ Nat.max (String.length filename) 7)%nat
    ∧ SanitizeFilename name = name.
Proof.
  intros filename name. unfold name, SanitizeFilename. cbn zeta.
  set (t := TrimRight (replaceInvalid filename) [" "; "."]%char).
  assert (Ht : bytesOf t = trimmed [" "; "."]%char (map replaceByte (bytesOf filename))).
  { unfold t. by rewrite bytesOf_TrimRight, bytesOf_replaceInvalid. }
  destruct (String.eqb_spec t "") as [He|Hne].
  { split; [done|]. split; [by repeat constructor|]. split; [|split].
    - intros front c Hfc. change (bytesOf "unnamed") with (bytesOf "unname" ++ ["d"%char]) in Hfc.
      apply app_inj_tail in Hfc as [_ <-]. done.
    - cbn. lia.
    - by vm_compute. }
  assert (Hvalid : Forall (fun c => isInvalidFilenameByte c = false) (bytesOf t)).
  { rewrite Ht. apply Forall_forall. intros c Hc.
    unfold trimmed in Hc. apply elem_of_rev, dropLeading_sub in Hc.
    apply elem_of_rev, list_elem_of_fmap in Hc as (c' & -> & _).
    apply replaceByte_valid. }
  split; [done|]. split; [done|]. split; [|split].
  - intros front c Hfc. rewrite Ht in Hfc. unfold trimmed in Hfc.
    pose proof (dropLeading_head [" "; "."]%char
                  (rev (map replaceByte (bytesOf filename)))) as Hh.
    apply (f_equal (@rev ascii)) in Hfc.
    rewrite rev_involutive, rev_app_distr in Hfc. cbn in Hfc.
    rewrite Hfc in Hh. cbn in Hh.
    destruct (Ascii.eqb_spec c " "), (Ascii.eqb_spec c "."); done.
  - rewrite <- (length_list_of_string t). fold (bytesOf t). rewrite Ht.
    unfold trimmed. rewrite length_rev.
    etrans; [apply dropLeading_length|].
    rewrite length_rev, length_map. fold (bytesOf filename).
    unfold bytesOf. rewrite length_list_of_string. lia.
  - assert (Hagain : TrimRight (replaceInvalid t) [" "; "."]%char = t).
    { apply bytesOf_inj.
      rewrite bytesOf_TrimRight, bytesOf_replaceInvalid.
      rewrite (replaceInvalid_valid _ Hvalid), Ht. apply trimmed_fixed. }
    rewrite Hagain. by destruct (String.eqb_spec t "").
Qed.

Lemma hostRun_split : ∀ s,
  ∃ rest, s = hostRun s +:+ rest ∧ slashFree (hostRun s) ∧ pathOrEnd rest.
Proof.
  induction s as [|c s (rest & Hs & Hfree & Hrest)].
  - exists "". split; [done|]. split; [constructor | by left].
  - cbn [hostRun]. destruct (Ascii.eqb_spec c "/") as [->|Hc].
    + exists (String "/" s). split; [done|]. split; [constructor|]. right. eauto.
    + exists rest. split; [by rewrite append_cons, <- Hs|].
      split; [by constructor | done].
Qed.

(** X26: [ExtractDomainFromURL] returns the non-empty host [d] exactly
    for the strings that are "http://" or "https://", then [d] without a
    slash, then nothing or a path; every other string gives the empty
    string.  On the strings it accepts the tracker's own [extractDomain],
    which also looks inside a string, finds the same host. *)
Theorem ExtractDomainFromURL_reads_the_host :
  ∀ url d : string,
    ((ExtractDomainFromURL url = d ∧ d ≠ "")
     ↔ ∃ scheme rest,
         (scheme = "http://" ∨ scheme = "https://")
         ∧ url = scheme +:+ d +:+ rest
         ∧ d ≠ "" ∧ slashFree d ∧ pathOrEnd rest)
    ∧ (ExtractDomainFromURL url ≠ "" →
       extractDomain url = ExtractDomainFromURL url).
Proof.
  intros url d.
  assert (Hto : ∀ d', ExtractDomainFromURL url = d' → d' ≠ "" →
            matchDomainAt url = Some d'
            ∧ ∃ scheme rest,
                (scheme = "http://" ∨ scheme = "https://")
                ∧ url = scheme +:+ d' +:+ rest
                ∧ slashFree d' ∧ pathOrEnd rest).
  { intros d'. unfold ExtractDomainFromURL, matchDomainAt.
    destruct (String.prefix "https://" url) eqn:H1.
    - apply prefix_split in H1 as [tail ->].
      change (dropBytes 8 ("https://" +:+ tail)) with tail.
      destruct (hostRun_split tail) as (rest & Htail & Hfree & Hrest).
      destruct (hostRun tail) as [|c run] eqn:Hrun; [by intros <-|].
      intros <- _. split; [done|]. exists "https://", rest.
      split; [by right|]. split; [by rewrite <- Htail | done].
    - destruct (String.prefix "http://" url) eqn:H2; [|by intros <-].
      apply prefix_split in H2 as [tail ->].
      change (dropBytes 7 ("http://" +:+ tail)) with tail.
      destruct (hostRun_split tail) as (rest & Htail & Hfree & Hrest).
      destruct (hostRun tail) as [|c run] eqn:Hrun; [by intros <-|].
      intros <- _. split; [done|]. exists "http://", rest.
      split; [by left|]. split; [by rewrite <- Htail | done]. }
  split; [split|].
  - intros [Hd Hne]. destruct (Hto d Hd Hne) as (_ & scheme & rest & H1 & H2 & H3 & H4).
    by exists scheme, rest.
  - intros (scheme & rest & Hs & -> & Hne & Hfree & Hrest). split; [|done].
    pose proof (extractDomain_host scheme d rest Hs Hne Hfree Hrest) as He.
    unfold extractDomain in He. unfold ExtractDomainFromURL.
    destruct Hs as [-> | ->].
    + unfold matchDomainAt.
      change (String.prefix "https://" ("http://" +:+ d +:+ rest)) with false.
      change (String.prefix "http://" ("http://" +:+ d +:+ rest))
        with (String.prefix "" (d +:+ rest)).
      change (dropBytes 7 ("http://" +:+ d +:+ rest)) with (d +:+ rest).
      rewrite hostRun_host by done.
      destruct (d +:+ rest); by destruct d.
    + unfold matchDomainAt.
      change (String.prefix "https://" ("https://" +:+ d +:+ rest))
        with (String.prefix "" (d +:+ rest)).
      change (dropBytes 8 ("https://" +:+ d +:+ rest)) with (d +:+ rest).
      rewrite hostRun_host by done.
      destruct (d +:+ rest); by destruct d.
  - intros Hne. destruct (Hto _ eq_refl Hne) as (Hm & _).
    unfold extractDomain. destruct url; cbn [findDomain]; rewrite Hm;
      unfold ExtractDomainFromURL; by rewrite Hm.
Qed.

End Utilities.

(** * Clipboard formats (enhanced_clipboard.go) *)

Module Clipboard.

(** ** Definitions *)

Definition CF_TEXT : Z := 1.
Definition CF_UNICODETEXT : Z := 13.
Definition CF_HDROP : Z := 15.
Definition CF_HTML : Z := 49356.
Definition CF_RTF : Z := 49476.

Record ClipboardFormat := mkFormat {
  ID : Z;
  FormatName : string;
  MIME : string
}.

Definition supportedFormats : list ClipboardFormat :=
  [ mkFormat CF_TEXT "CF_TEXT" "text/plain";
    mkFormat CF_UNICODETEXT "CF_UNICODETEXT" "text/plain; charset=utf-8";
    mkFormat CF_HTML "CF_HTML" "text/html";
    mkFormat CF_RTF "CF_RTF" "application/rtf";
    mkFormat CF_HDROP "CF_HDROP" "application/x-file-list" ].

(** [detectClipboardFormats]; [opened] is the answer of [OpenClipboard]
    and [available] the answers of [IsClipboardFormatAvailable], asked
    once for each supported format. *)
Definition detectClipboardFormats (opened : bool) (available : Z -> bool)
  : list ClipboardFormat :=
  if negb opened then []
  else List.filter (fun format => available (ID format)) supportedFormats.

Definition priorities : list Z := [CF_HTML; CF_RTF; CF_UNICODETEXT; CF_TEXT].

(** The two nested loops of [getBestClipboardFormat]. *)
Fixpoint firstByPriority (priorities : list Z) (formats : list ClipboardFormat)
  : option ClipboardFormat :=
  match priorities with
  | [] => None
  | priority :: rest =>
      match List.find (fun format => ID format =? priority) formats with
      | Some format => Some format
      | None => firstByPriority rest formats
      end
  end.

Definition getBestClipboardFormat (opened : bool) (available : Z -> bool)
  : ClipboardFormat :=
  match firstByPriority priorities (detectClipboardFormats opened available) with
  | Some format => format
  | None => mkFormat CF_TEXT "CF_TEXT" "text/plain"
  end.

Definition getFormatName (formatID : Z) : string :=
  match List.find (fun format => ID format =? formatID) supportedFormats with
  | Some format => FormatName format
  | None => "Unknown"
  end.

(** ** Facts *)

(** X27: the best clipboard format is always one of the four text
    formats of the table, never the file list, even when a file list is
    all the clipboard holds.  With the clipboard open it is the first
    available one of HTML, RTF, Unicode text and plain text; when the
    clipboard cannot be opened or none of the four is available the answer
    is plain text, the same as when plain text is available.  The name
    [getFormatName] gives for its id is its own name. *)
Theorem best_format_is_a_text_format :
  ∀ (opened : bool) (available : Z -> bool),
    let best := getBestClipboardFormat opened available in
    best ∈ supportedFormats
    ∧ ID best ≠ CF_HDROP
    ∧ getFormatName (ID best) = FormatName best
    ∧ (opened = true →
       ID best
       = if available CF_HTML then CF_HTML
         else if available CF_RTF then CF_RTF
         else if available CF_UNICODETEXT then CF_UNICODETEXT
         else CF_TEXT)
    ∧ (opened = false → ID best = CF_TEXT).
Proof.
  intros opened available best. unfold best, getBestClipboardFormat,
    detectClipboardFormats, supportedFormats.
  destruct opened; cbn [negb List.filter ID];
    [|split; [set_solver|]; by repeat split].
  destruct (available CF_TEXT), (available CF_UNICODETEXT), (available CF_HTML),
    (available CF_RTF), (available CF_HDROP); cbn;
    (split; [set_solver|]); by repeat split.
Qed.

End Clipboard.

(** * The trackers with the content sources of the source *)

Module AsShipped.

(** ** Definitions *)

(** One call of an entry point of the text selection tracker; [clipboard]
    is what [getClipboardContent] answers inside [getSelectedText], and
    [currentPos] what [getMousePosition] answers when the scheduled
    function of [HandleKeyboardShortcut] runs. *)
Inductive SelectionCall :=
  | Down (position : Position) (button : MouseButton) (now now' : Time)
  | Move (position : Position)
  | Up (position : Position) (button : MouseButton) (clipboard : string)
       (meta : EventMetadata)
  | Shortcut (combination : string) (clipboard : string) (currentPos : Position)
             (meta : EventMetadata).

(** [HandleKeyboardShortcut] with the source's own [getSelectedText]. *)
Definition HandleKeyboardShortcut (clipboard : string) :=
  TextSelectionMore.HandleKeyboardShortcutWith
    (TextSelection.getSelectedText clipboard).

Definition selectionStep (tst : TextSelection.TextSelectionTracker)
    (c : SelectionCall)
  : TextSelection.TextSelectionTracker * list TextSelection.TextSelectionEvent :=
  match c with
  | Down position button now now' =>
      (TextSelection.HandleMouseDown tst position button now now', [])
  | Move position => (TextSelection.HandleMouseMove tst position, [])
  | Up position button clipboard meta =>
      TextSelection.HandleMouseUp clipboard tst position button meta
  | Shortcut combination clipboard currentPos meta =>
      (tst, HandleKeyboardShortcut clipboard combination currentPos meta)
  end.

Fixpoint selectionRun (tst : TextSelection.TextSelectionTracker)
    (calls : list SelectionCall)
  : TextSelection.TextSelectionTracker * list TextSelection.TextSelectionEvent :=
  match calls with
  | [] => (tst, [])
  | c :: rest =>
      let '(tst1, ev1) := selectionStep tst c in
      let '(tst2, ev2) := selectionRun tst1 rest in
      (tst2, ev1 ++ ev2)
  end.

(** One call of an entry point of the text input manager. *)
Inductive InputCall :=
  | StartInput (element : option UIElement) (r : TextInput.Reading) (t0 t1 : Time)
  | Key (first : string) (keyCode : Z) (char : string) (now now' : Time)
  | CompleteOne (elementKey reason : string) (r : TextInput.Reading)
  | CompleteEvery (rs : string -> TextInput.Reading).

Definition inputStep (tim : TextInput.TextInputManager) (c : InputCall)
  : TextInput.TextInputManager * list TextInput.TextInputCompletedEvent :=
  match c with
  | StartInput element r t0 t1 => TextInput.StartTextInput tim element r t0 t1
  | Key first keyCode char now now' =>
      (TextInputMore.HandleKeystroke tim first keyCode char now now', [])
  | CompleteOne elementKey reason r =>
      TextInput.CompleteTextInput tim elementKey reason r
  | CompleteEvery rs => TextInput.CompleteAllActiveInputs tim rs
  end.

Fixpoint inputRun (tim : TextInput.TextInputManager) (calls : list InputCall)
  : TextInput.TextInputManager * list TextInput.TextInputCompletedEvent :=
  match calls with
  | [] => (tim, [])
  | c :: rest =>
      let '(tim1, ev1) := inputStep tim c in
      let '(tim2, ev2) := inputRun tim1 rest in
      (tim2, ev1 ++ ev2)
  end.

(** ** Facts *)

(** X28: with [getSelectedText] as the source has it, a placeholder that
    answers the empty string, the text selection tracker never emits an
    event: not for any sequence of presses, moves, releases and keyboard
    shortcuts, from any state, whatever the clipboard holds. *)
Theorem selection_tracker_is_silent :
  ∀ (tst : TextSelection.TextSelectionTracker) (calls : list SelectionCall),
    snd (selectionRun tst calls) = [].
Proof.
  intros tst calls. revert tst.
  induction calls as [|c calls IH]; intros tst; cbn [selectionRun]; [done|].
  assert (Hstep : snd (selectionStep tst c) = []).
  { destruct c as [position button now now' | position
                  | position button clipboard meta
                  | combination clipboard currentPos meta]; cbn [selectionStep snd];
      try done.
    - unfold TextSelection.HandleMouseUp, TextSelection.HandleMouseUpWith,
        TextSelection.getSelectedText.
      change ("" =? "")%string with true. cbn zeta.
      destruct (negb (MouseButton_eqb button MouseButtonLeft)); [done|].
      destruct (negb (TextSelection.IsSelecting tst)); [done|].
      destruct (_ && _); [done|].
      destruct (TextSelection.ClickCount tst =? 2); [done|].
      destruct (TextSelection.ClickCount tst =? 3); [done|].
      by destruct (root_geb _ _).
    - unfold HandleKeyboardShortcut, TextSelectionMore.HandleKeyboardShortcutWith,
        TextSelection.getSelectedText.
      by destruct (negb (TextSelectionMore.isSelectionHotkey combination)). }
  destruct (selectionStep tst c) as [tst1 ev1]. cbn [snd] in Hstep. subst ev1.
  specialize (IH tst1). by destruct (selectionRun tst1 calls) as [tst2 ev2].
Qed.

Lemma complete_silent tracker reason r :
  TextInput.completeTextInputInternalWith TextInput.getCurrentText tracker reason r
  = [].
Proof.
  destruct tracker as [t|]; [|done].
  unfold TextInput.completeTextInputInternalWith, TextInput.getCurrentText.
  change (TextInput.TrimSpace "" =? "")%string with true.
  cbn [negb]. by rewrite andb_false_r.
Qed.

(** X29: with [getCurrentText] as the source has it, a placeholder that
    answers the empty string, the text input manager never emits an
    event: not for any sequence of sessions started, keys struck and
    completions by key, by timer or all at once, from any state.  The text
    read at completion is empty, hence blank, whatever the session
    recorded. *)
Theorem input_manager_is_silent :
  ∀ (tim : TextInput.TextInputManager) (calls : list InputCall),
    snd (inputRun tim calls) = [].
Proof.
  intros tim calls. revert tim.
  induction calls as [|c calls IH]; intros tim; cbn [inputRun]; [done|].
  assert (Hstep : snd (inputStep tim c) = []).
  { destruct c as [element r t0 t1 | first keyCode char now now'
                  | elementKey reason r | rs]; cbn [inputStep snd]; try done.
    - unfold TextInput.StartTextInput, TextInput.StartTextInputWith.
      destruct element as [e|]; [|done]. cbn [snd].
      destruct (TextInput.ActiveInputs tim !! _); [apply complete_silent | done].
    - unfold TextInput.CompleteTextInput, TextInput.CompleteTextInputWith.
      destruct (TextInput.ActiveInputs tim !! elementKey);
        [apply complete_silent | done].
    - unfold TextInput.CompleteAllActiveInputs,
        TextInput.CompleteAllActiveInputsWith. cbn [snd].
      induction (map_to_list (TextInput.ActiveInputs tim)) as [|kt l IHl];
        [done|].
      cbn [map concat]. by rewrite complete_silent. }
  destruct (inputStep tim c) as [tim1 ev1]. cbn [snd] in Hstep. subst ev1.
  specialize (IH tim1). by destruct (inputRun tim1 calls) as [tim2 ev2].
Qed.

End AsShipped.

(** * The hotkey detector and the clock *)

Module HotkeyTiming.
Import Hotkey.

#[local] Arguments checkForHotkeys : simpl never.

(** ** Definitions *)

(** The two calls are key-downs of the same key with the same metadata;
    their clock readings are free. *)
Definition sameKeyDown (c c' : KeyCall) : Prop :=
  keyCode c = keyCode c'
  ∧ isKeyDown c = true ∧ isKeyDown c' = true
  ∧ with_meta c = with_meta c'.

(** The two detectors hold the same keys in the same order and have the
    same patterns; [LastKeyTime] and [MaxKeyDelay] are free. *)
Definition sameKeysHeld (hd hd' : HotkeyDetector) : Prop :=
  PressedKeys hd = PressedKeys hd'
  ∧ KeyPressOrder hd = KeyPressOrder hd'
  ∧ HotkeyPatterns hd = HotkeyPatterns hd'.

(** ** Facts *)

Lemma checkForHotkeys_sameKeysHeld hd hd' meta :
  sameKeysHeld hd hd' →
  sameKeysHeld (fst (checkForHotkeys hd meta)) (fst (checkForHotkeys hd' meta))
  ∧ snd (checkForHotkeys hd meta) = snd (checkForHotkeys hd' meta).
Proof.
  intros (Hk & Ho & Hp). unfold checkForHotkeys. rewrite <- Hk, <- Hp.
  destruct (size (PressedKeys hd) <? 2)%nat; [done|].
  destruct (firstMatch _ _); [|done].
  split; [|done]. by repeat split.
Qed.

(** X30: key-downs never look at the clock.  Two detectors that hold the
    same keys and have the same patterns, sent the same key-downs at
    whatever times, emit the same events and end up holding the same keys,
    whatever their [MaxKeyDelay] and [LastKeyTime] are.  So [MaxKeyDelay]
    does not limit the time between the key-downs of a combination: a
    modifier held for a minute still combines with the next key. *)
Theorem key_downs_ignore_the_clock :
  ∀ (hd hd' : HotkeyDetector) (calls calls' : list KeyCall),
    sameKeysHeld hd hd' →
    Forall2 sameKeyDown calls calls' →
    snd (run hd calls) = snd (run hd' calls')
    ∧ PressedKeys (fst (run hd calls)) = PressedKeys (fst (run hd' calls'))
    ∧ KeyPressOrder (fst (run hd calls)) = KeyPressOrder (fst (run hd' calls')).
Proof.
  intros hd hd' calls calls' Hsame Hcalls. revert hd hd' Hsame.
  induction Hcalls as [|c c' calls calls' (Hk & Hd & Hd' & Hm) _ IH];
    intros hd hd' Hsame; cbn [run].
  - destruct Hsame as (H1 & H2 & _). done.
  - assert (Hstep :
      sameKeysHeld
        (fst (HandleKeyPress hd (keyCode c) (isKeyDown c) (at_time c) (with_meta c)))
        (fst (HandleKeyPress hd' (keyCode c') (isKeyDown c') (at_time c') (with_meta c')))
      ∧ snd (HandleKeyPress hd (keyCode c) (isKeyDown c) (at_time c) (with_meta c))
        = snd (HandleKeyPress hd' (keyCode c') (isKeyDown c') (at_time c') (with_meta c'))).
    { rewrite Hd, Hd', <- Hk, <- Hm. unfold HandleKeyPress, isPressed.
      destruct Hsame as (H1 & H2 & H3). rewrite <- H1.
      destruct (negb (default false (PressedKeys hd !! keyCode c)));
        [|by repeat split].
      apply checkForHotkeys_sameKeysHeld. unfold sameKeysHeld. cbn.
      rewrite <- ?H1, <- ?H2, <- ?H3. by repeat split. }
    destruct Hstep as [Hs He].
    destruct (HandleKeyPress hd _ _ _ _) as [hd1 ev1].
    destruct (HandleKeyPress hd' _ _ _ _) as [hd1' ev1'].
    cbn [fst snd] in *. subst ev1'.
    specialize (IH hd1 hd1' Hs).
    destruct (run hd1 calls) as [hd2 ev2], (run hd1' calls') as [hd2' ev2'].
    cbn [fst snd] in *. destruct IH as (-> & -> & ->). done.
Qed.

(** X30, witness: Ctrl goes down, and S a minute later or at once. *)
Lemma key_downs_ignore_the_clock_witness :
  let meta := mkEventMetadata None 0 in
  let slow := [mkKeyCall VK_CONTROL true 0 meta;
               mkKeyCall 0x53 true (60 * Second) meta] in
  let fast := [mkKeyCall VK_CONTROL true 0 meta; mkKeyCall 0x53 true 1 meta] in
  (sameKeysHeld NewHotkeyDetector NewHotkeyDetector ∧ Forall2 sameKeyDown slow fast)
  ∧ snd (run NewHotkeyDetector slow) = snd (run NewHotkeyDetector fast)
  ∧ snd (run NewHotkeyDetector slow) = [mkHotkeyEvent "Ctrl+S" "Save" false meta].
Proof.
  intros meta slow fast.
  assert (H1 : sameKeysHeld NewHotkeyDetector NewHotkeyDetector) by done.
  assert (H2 : Forall2 sameKeyDown slow fast) by (by repeat constructor).
  split; [done|].
  split; [|by vm_compute].
  exact (proj1 (key_downs_ignore_the_clock _ _ slow fast H1 H2)).
Defined.

End HotkeyTiming.
